(** * Adafruit_MPRLS: a shallow embedding of the pressure sensor driver

    The driver (Adafruit_MPRLS.cpp / Adafruit_MPRLS.h) is embedded as follows.

    - Machine integers are [Z] with the wrap-around of each C++ operation
      written out ([u8], [u16], [u32]).
    - [float] is IEEE-754 binary32, computed with the Standard Library's
      [SpecFloat] operations (round to nearest, ties to even).  [double] is
      binary64 on the 32-bit cores and binary32 on AVR, so the format of
      [double] and the width of [int] are fields of a [Platform] record.
    - The I2C device, the pins and the millisecond clock are an oracle
      ([World]): the k-th call of each input primitive is answered by the
      k-th entry of its tape, and every call is recorded in a trace.
    - Methods are functions in a small state monad over the object and the
      world; the two polling loops take fuel.
    - The example sketch (mprls_simpletest.ino) runs in the same monad; what
      it sends to the serial port is a list of calls. *)

From Stdlib Require Import ZArith Bool List Lia QArith Qround Qpower Lqa.
From Stdlib Require Import SpecFloat.
From Stdlib Require String.
Import String.StringSyntax.
Import ListNotations.

Local Open Scope Z_scope.
Delimit Scope string_scope with string.

(** * The embedding *)

(** ** Fixed-width integers *)

Module MachineInt.

Definition wrap (bits x : Z) : Z := x mod 2 ^ bits.

Definition u8 (x : Z) : Z := wrap 8 x.
Definition u16 (x : Z) : Z := wrap 16 x.
Definition u32 (x : Z) : Z := wrap 32 x.

Definition is_u8 (x : Z) : Prop := 0 <= x < 2 ^ 8.
Definition is_u16 (x : Z) : Prop := 0 <= x < 2 ^ 16.
Definition is_u32 (x : Z) : Prop := 0 <= x < 2 ^ 32.

End MachineInt.
Import MachineInt.

(** ** IEEE-754 arithmetic *)

Module IEEE.

Record Format := mkFormat { fprec : Z; femax : Z }.

Definition binary32 : Format := mkFormat 24 128.
Definition binary64 : Format := mkFormat 53 1024.

Definition fadd (f : Format) : spec_float -> spec_float -> spec_float :=
  SFadd (fprec f) (femax f).
Definition fmul (f : Format) : spec_float -> spec_float -> spec_float :=
  SFmul (fprec f) (femax f).
Definition fdiv (f : Format) : spec_float -> spec_float -> spec_float :=
  SFdiv (fprec f) (femax f).

(** The number [m * 2^e], rounded into the format. *)
Definition of_scaled (f : Format) (m e : Z) : spec_float :=
  binary_normalize (fprec f) (femax f) m e false.

(** Conversion of an integer to the format. *)
Definition of_Z (f : Format) (z : Z) : spec_float := of_scaled f z 0.

(** Conversion between formats (a widening here, hence exact). *)
Definition fconv (f : Format) (x : spec_float) : spec_float :=
  match x with
  | S754_finite s m e => binary_round (fprec f) (femax f) s m e
  | _ => x
  end.

Definition is_nan (x : spec_float) : bool :=
  match x with S754_nan => true | _ => false end.

Definition is_finite (x : spec_float) : bool :=
  match x with
  | S754_zero _ | S754_finite _ _ _ => true
  | _ => false
  end.

(** Truncation toward zero of a finite number. *)
Definition trunc (x : spec_float) : option Z :=
  match x with
  | S754_zero _ => Some 0
  | S754_finite s m e =>
      let a := match e with
               | Zneg p => Z.shiftr (Zpos m) (Zpos p)
               | _ => Z.shiftl (Zpos m) e
               end in
      Some (if s then - a else a)
  | _ => None
  end.

(** The rational value of a finite number (0 for the others). *)
Definition SF2Q (x : spec_float) : Q :=
  match x with
  | S754_finite s m e =>
      let a := match e with
               | Zneg p => Qmake (Zpos m) (2 ^ p)
               | _ => inject_Z (Zpos m * 2 ^ e)
               end in
      if s then Qopp a else a
  | _ => 0%Q
  end.

End IEEE.
Import IEEE.

(** ** Platform parameters

    What C++ leaves to the implementation and the driver depends on:
    the format of [double] (binary32 under avr-gcc, binary64 elsewhere),
    the width of [int] (it decides how [uint16_t - uint16_t] is promoted),
    and the result of a floating-to-integer conversion whose value does not
    fit the target type, which the language leaves undefined. *)

Inductive int_width := Int16 | Int32.

Record Platform := mkPlatform {
  double_format : Format;
  int_bits : int_width;
  undef_cast : spec_float -> Z
}.

Definition avr8 (undef : spec_float -> Z) : Platform :=
  mkPlatform binary32 Int16 undef.

Definition ilp32 (undef : spec_float -> Z) : Platform :=
  mkPlatform binary64 Int32 undef.

(** [(uint32_t) x] for a floating-point [x]: the fractional part is dropped;
    outside of the range of [uint32_t] the platform decides. *)
Definition to_uint32 (P : Platform) (x : spec_float) : Z :=
  match trunc x with
  | Some t => if (0 <=? t) && (t <? 2 ^ 32) then t else u32 (undef_cast P x)
  | None => u32 (undef_cast P x)
  end.

(** ** The hardware

    The Arduino core and the I2C device are outside of the driver.  The
    world answers the k-th call of each input primitive from a tape and
    records every call, in order, in [trace] (most recent first). *)

Module Hardware.

Inductive Event :=
| EvPinMode (pin : Z) (output : bool)
| EvDigitalWrite (pin : Z) (high : bool)
| EvDigitalRead (pin : Z) (high : bool)
| EvDelay (ms : Z)
| EvMillis (now : Z)
| EvI2CBegin (addr : Z) (ack : bool)
| EvI2CWrite (bytes : list Z)
| EvI2CRead (bytes : list Z).

Record World := mkWorld {
  millis_tape : nat -> Z;
  pin_tape : Z -> nat -> bool;
  ack_tape : nat -> bool;
  rx_tape : nat -> nat -> Z;
  millis_calls : nat;
  pin_reads : nat;
  opens : nat;
  rx_reads : nat;
  trace : list Event
}.

(** [millis()]: an [unsigned long] of 32 bits. *)
Definition hw_millis (w : World) : Z * World :=
  let now := u32 (millis_tape w (millis_calls w)) in
  (now,
   mkWorld (millis_tape w) (pin_tape w) (ack_tape w) (rx_tape w)
           (S (millis_calls w)) (pin_reads w) (opens w) (rx_reads w)
           (EvMillis now :: trace w)).

Definition hw_digitalRead (pin : Z) (w : World) : bool * World :=
  let lvl := pin_tape w pin (pin_reads w) in
  (lvl,
   mkWorld (millis_tape w) (pin_tape w) (ack_tape w) (rx_tape w)
           (millis_calls w) (S (pin_reads w)) (opens w) (rx_reads w)
           (EvDigitalRead pin lvl :: trace w)).

Definition hw_log (e : Event) (w : World) : World :=
  mkWorld (millis_tape w) (pin_tape w) (ack_tape w) (rx_tape w)
          (millis_calls w) (pin_reads w) (opens w) (rx_reads w)
          (e :: trace w).

(** [Adafruit_I2CDevice::begin]: does the device acknowledge its address? *)
Definition hw_i2c_begin (addr : Z) (w : World) : bool * World :=
  let ack := ack_tape w (opens w) in
  (ack,
   mkWorld (millis_tape w) (pin_tape w) (ack_tape w) (rx_tape w)
           (millis_calls w) (pin_reads w) (S (opens w)) (rx_reads w)
           (EvI2CBegin addr ack :: trace w)).

(** The bytes delivered by the k-th read transaction. *)
Definition rx_frame (w : World) (k : nat) (len : nat) : list Z :=
  map (fun i => u8 (rx_tape w k i)) (seq 0 len).

(** [Adafruit_I2CDevice::read (buffer, len)]: the first [len] bytes of the
    buffer are replaced by the bytes received. *)
Definition hw_i2c_read (buffer : list Z) (len : nat) (w : World)
  : list Z * World :=
  let bytes := rx_frame w (rx_reads w) len in
  (bytes ++ skipn len buffer,
   mkWorld (millis_tape w) (pin_tape w) (ack_tape w) (rx_tape w)
           (millis_calls w) (pin_reads w) (opens w) (S (rx_reads w))
           (EvI2CRead bytes :: trace w)).

End Hardware.
Import Hardware.

(** ** The driver *)

Module MPRLS.

(** *** Adafruit_MPRLS.h *)

Definition MPRLS_DEFAULT_ADDR : Z := 0x18.
Definition MPRLS_READ_TIMEOUT : Z := 20.
Definition MPRLS_STATUS_POWERED : Z := 0x40.
Definition MPRLS_STATUS_BUSY : Z := 0x20.
Definition MPRLS_STATUS_FAILED : Z := 0x04.
Definition MPRLS_STATUS_MATHSAT : Z := 0x01.
Definition COUNTS_224 : Z := 16777216.
Definition MPRLS_STATUS_MASK : Z := 0x65.

(** [PSI_to_HPA] is the literal 68.947572932; as a [float] it is
    9037096 * 2^-17 = 68.94757080078125. *)
Definition PSI_to_HPA : spec_float := S754_finite false 9037096 (-17).

Definition NAN : spec_float := S754_nan.

(** The object.  [i2c_dev] is the pointer to the bus device: [None] is the
    null pointer, [Some a] a device object bound to address [a]. *)
Record Adafruit_MPRLS := mkMPRLS {
  lastStatus : Z;
  i2c_dev : option Z;
  _reset : Z;
  _eoc : Z;
  _PSI_min : Z;
  _PSI_max : Z;
  _OUTPUT_min : Z;
  _OUTPUT_max : Z;
  _K : spec_float
}.

Definition set_lastStatus (v : Z) (s : Adafruit_MPRLS) : Adafruit_MPRLS :=
  mkMPRLS v (i2c_dev s) (_reset s) (_eoc s) (_PSI_min s) (_PSI_max s)
          (_OUTPUT_min s) (_OUTPUT_max s) (_K s).

Definition set_i2c_dev (d : option Z) (s : Adafruit_MPRLS) : Adafruit_MPRLS :=
  mkMPRLS (lastStatus s) d (_reset s) (_eoc s) (_PSI_min s) (_PSI_max s)
          (_OUTPUT_min s) (_OUTPUT_max s) (_K s).

(** *** The constructor *)

(** [(uint32_t)((float)COUNTS_224 * (pct / 100.0) + 0.5)]: the quotient, the
    product and the sum are computed in [double]. *)
Definition output_counts (P : Platform) (pct : spec_float) : Z :=
  let D := double_format P in
  to_uint32 P
    (fadd D
       (fmul D (fconv D (of_Z binary32 COUNTS_224))
               (fdiv D (fconv D pct) (of_Z D 100)))
       (of_scaled D 1 (-1))).

(** The constructor leaves [lastStatus] uninitialised: [junk] is whatever
    the storage of the object held.  [i2c_dev] starts as the null pointer
    (its default member initialiser). *)
Definition Adafruit_MPRLS_new (P : Platform) (junk : Z)
    (reset_pin EOC_pin PSI_min PSI_max : Z)
    (OUTPUT_min OUTPUT_max K : spec_float) : Adafruit_MPRLS :=
  {| lastStatus := u8 junk;
     i2c_dev := None;
     _reset := reset_pin;
     _eoc := EOC_pin;
     _PSI_min := PSI_min;
     _PSI_max := PSI_max;
     _OUTPUT_min := output_counts P OUTPUT_min;
     _OUTPUT_max := output_counts P OUTPUT_max;
     _K := K |}.

(** The constructor with the default arguments of the header. *)
Definition Adafruit_MPRLS_default (P : Platform) (junk : Z) : Adafruit_MPRLS :=
  Adafruit_MPRLS_new P junk (-1) (-1) 0 25
    (of_Z binary32 10) (of_Z binary32 90) PSI_to_HPA.

(** *** readPressure, after the call of readData *)

(** [_PSI_max - _PSI_min]: both operands are promoted, to [int] where [int]
    has 32 bits and to [unsigned int] where it has 16; the difference is
    then converted to [uint32_t] for the product. *)
Definition psi_span (P : Platform) (s : Adafruit_MPRLS) : Z :=
  match int_bits P with
  | Int16 => u32 (u16 (_PSI_max s - _PSI_min s))
  | Int32 => u32 (_PSI_max s - _PSI_min s)
  end.

Definition pressure_of_raw (P : Platform) (s : Adafruit_MPRLS) (raw_psi : Z)
  : spec_float :=
  if (raw_psi =? 0xFFFFFFFF) || (_OUTPUT_min s =? _OUTPUT_max s) then NAN
  else
    let psi := of_Z binary32 (u32 (u32 (raw_psi - _OUTPUT_min s) * psi_span P s)) in
    let psi := fdiv binary32 psi
                 (of_Z binary32 (u32 (_OUTPUT_max s - _OUTPUT_min s))) in
    let psi := fadd binary32 psi (of_Z binary32 (_PSI_min s)) in
    fmul binary32 psi (_K s).

(** *** The method monad

    A method runs on the object and the world.  It returns, runs out of
    fuel inside a polling loop, or dereferences the null [i2c_dev]. *)

Inductive outcome (A : Type) :=
| Done (a : A) (s : Adafruit_MPRLS) (w : World)
| OutOfFuel
| NullDeref.
Arguments Done {A} a s w.
Arguments OutOfFuel {A}.
Arguments NullDeref {A}.

Definition M (A : Type) : Type := Adafruit_MPRLS -> World -> outcome A.

Definition ret {A} (a : A) : M A := fun s w => Done a s w.

Definition bind {A B} (m : M A) (k : A -> M B) : M B :=
  fun s w =>
    match m s w with
    | Done a s' w' => k a s' w'
    | OutOfFuel => OutOfFuel
    | NullDeref => NullDeref
    end.

Notation "x <- m ;; k" := (bind m (fun x => k))
  (at level 61, m at next level, right associativity).
Notation "m ;;; k" := (bind m (fun _ => k))
  (at level 61, right associativity).

Definition this : M Adafruit_MPRLS := fun s w => Done s s w.
Definition assign_lastStatus (v : Z) : M unit :=
  fun s w => Done tt (set_lastStatus v s) w.
Definition out_of_fuel {A} : M A := fun _ _ => OutOfFuel.

Definition lift {A} (f : World -> A * World) : M A :=
  fun s w => let (a, w') := f w in Done a s w'.
Definition emit (e : Event) : M unit :=
  fun s w => Done tt s (hw_log e w).

Definition millis : M Z := lift hw_millis.
Definition digitalRead (pin : Z) : M bool := lift (hw_digitalRead pin).
Definition pinMode (pin : Z) (output : bool) : M unit := emit (EvPinMode pin output).
Definition digitalWrite (pin : Z) (high : bool) : M unit :=
  emit (EvDigitalWrite pin high).
Definition delay (ms : Z) : M unit := emit (EvDelay ms).

Definition OUTPUT := true.
Definition INPUT := false.
Definition HIGH := true.
Definition LOW := false.

(** [i2c_dev->write (buffer, len)] *)
Definition i2c_write (buffer : list Z) (len : nat) : M unit :=
  fun s w =>
    match i2c_dev s with
    | Some _ => Done tt s (hw_log (EvI2CWrite (firstn len buffer)) w)
    | None => NullDeref
    end.

(** [i2c_dev->read (buffer, len)] *)
Definition i2c_read (buffer : list Z) (len : nat) : M (list Z) :=
  fun s w =>
    match i2c_dev s with
    | Some _ => let (b, w') := hw_i2c_read buffer len w in Done b s w'
    | None => NullDeref
    end.

(** *** readStatus *)

Definition readStatus : M Z :=
  buffer <- i2c_read [0] 1 ;;
  ret (nth 0 buffer 0).

(** *** begin *)

Definition begin (i2c_addr : Z) : M bool :=
  (fun s w => Done tt (set_i2c_dev (Some i2c_addr) s) w) ;;;
  ack <- lift (hw_i2c_begin i2c_addr) ;;
  if negb ack then ret false
  else
    s <- this ;;
    (if negb (_reset s =? -1) then
       pinMode (_reset s) OUTPUT ;;;
       digitalWrite (_reset s) HIGH ;;;
       digitalWrite (_reset s) LOW ;;;
       delay 10 ;;;
       digitalWrite (_reset s) HIGH
     else ret tt) ;;;
    (if negb (_eoc s =? -1) then pinMode (_eoc s) INPUT else ret tt) ;;;
    delay 10 ;;;
    stat <- readStatus ;;
    ret (Z.land stat MPRLS_STATUS_MASK =? MPRLS_STATUS_POWERED).

(** *** readData *)

(** [while (!digitalRead(_eoc)) { if (millis() - t > MPRLS_READ_TIMEOUT)
    return 0xFFFFFFFF; }]: [true] when the loop is left at its condition,
    [false] when it is left by the [return]. *)
Fixpoint wait_eoc (fuel : nat) (t : Z) : M bool :=
  match fuel with
  | O => out_of_fuel
  | S fuel' =>
      s <- this ;;
      level <- digitalRead (_eoc s) ;;
      if level then ret true
      else
        now <- millis ;;
        if u32 (now - t) >? MPRLS_READ_TIMEOUT then ret false
        else wait_eoc fuel' t
  end.

(** [while ((lastStatus = readStatus()) & MPRLS_STATUS_BUSY) { if (millis()
    - t > MPRLS_READ_TIMEOUT) return 0xFFFFFFFF; }] *)
Fixpoint wait_status (fuel : nat) (t : Z) : M bool :=
  match fuel with
  | O => out_of_fuel
  | S fuel' =>
      stat <- readStatus ;;
      assign_lastStatus stat ;;;
      if Z.land stat MPRLS_STATUS_BUSY =? 0 then ret true
      else
        now <- millis ;;
        if u32 (now - t) >? MPRLS_READ_TIMEOUT then ret false
        else wait_status fuel' t
  end.

(** The part of readData after [i2c_dev->read (buffer, 4)]. *)
Definition decode (buffer : list Z) : Z :=
  if negb (Z.land (nth 0 buffer 0) MPRLS_STATUS_MATHSAT =? 0) then 0xFFFFFFFF
  else if negb (Z.land (nth 0 buffer 0) MPRLS_STATUS_FAILED =? 0) then 0xFFFFFFFF
  else
    Z.lor (Z.lor (u32 (Z.shiftl (nth 1 buffer 0) 16))
                 (u32 (Z.shiftl (nth 2 buffer 0) 8)))
          (nth 3 buffer 0).

(** The wait of readData: the pin when there is one, the status byte
    otherwise. *)
Definition wait_ready (fuel : nat) (t : Z) : M bool :=
  s <- this ;;
  if negb (_eoc s =? -1) then wait_eoc fuel t else wait_status fuel t.

Definition readData (fuel : nat) : M Z :=
  let buffer := [0xAA; 0; 0; 0] in
  i2c_write buffer 3 ;;;
  t <- millis ;;
  ready <- wait_ready fuel t ;;
  if negb ready then ret 0xFFFFFFFF
  else
    buffer <- i2c_read buffer 4 ;;
    ret (decode buffer).

(** *** readPressure *)

Definition readPressure (P : Platform) (fuel : nat) : M spec_float :=
  raw_psi <- readData fuel ;;
  s <- this ;;
  ret (pressure_of_raw P s raw_psi).

End MPRLS.
Import MPRLS.

(** ** The example sketch (mprls_simpletest.ino) *)

Module Sketch.

Definition RESET_PIN : Z := -1.
Definition EOC_PIN : Z := -1.

(** What the sketch sends to the serial port: the calls of [Serial], most
    recent first.  A number is recorded as the [double] that is passed to
    [println]; its formatting belongs to the Arduino core. *)
Inductive SerialCall :=
| SerialBegin (baud : Z)
| SerialPrint (text : String.string) (newline : bool)
| SerialPrintNumber (x : spec_float) (newline : bool).

(** [Adafruit_MPRLS mpr = Adafruit_MPRLS(RESET_PIN, EOC_PIN);] *)
Definition mpr (P : Platform) (junk : Z) : Adafruit_MPRLS :=
  Adafruit_MPRLS_new P junk RESET_PIN EOC_PIN 0 25
    (of_Z binary32 10) (of_Z binary32 90) PSI_to_HPA.

(** The literal 68.947572932 of [loop], a [double]: 4851754121322739 * 2^-46
    where [double] is binary64, and that rounded to binary32 on AVR. *)
Definition literal_68_947572932 (D : Format) : spec_float :=
  fconv D (S754_finite false 4851754121322739 (-46)).

(** [while (1) { delay(10); }] *)
Fixpoint delay_forever (fuel : nat) : M unit :=
  match fuel with
  | O => out_of_fuel
  | S fuel' => delay 10 ;;; delay_forever fuel'
  end.

Definition setup (fuel : nat) (out : list SerialCall) : M (list SerialCall) :=
  let out := SerialPrint "MPRLS Simple Test"%string true
             :: SerialBegin 115200 :: out in
  found <- begin MPRLS_DEFAULT_ADDR ;;
  out <- (if negb found then
            let out :=
              SerialPrint
                "Failed to communicate with MPRLS sensor, check wiring?"%string
                true :: out in
            delay_forever fuel ;;; ret out
          else ret out) ;;
  ret (SerialPrint "Found MPRLS sensor"%string true :: out).

Definition loop (P : Platform) (fuel : nat) (out : list SerialCall)
  : M (list SerialCall) :=
  let D := double_format P in
  pressure_hPa <- readPressure P fuel ;;
  let out := SerialPrint "Pressure (hPa): "%string false :: out in
  let out := SerialPrintNumber (fconv D pressure_hPa) true :: out in
  let out := SerialPrint "Pressure (PSI): "%string false :: out in
  let out := SerialPrintNumber
               (fdiv D (fconv D pressure_hPa) (literal_68_947572932 D)) true
             :: out in
  delay 1000 ;;;
  ret out.

End Sketch.

(** ** Vocabulary of the properties *)

(** Every field of the object holds a value of its C++ type. *)
Definition well_formed (s : Adafruit_MPRLS) : Prop :=
  is_u8 (lastStatus s) /\
  -128 <= _reset s < 128 /\ -128 <= _eoc s < 128 /\
  is_u16 (_PSI_min s) /\ is_u16 (_PSI_max s) /\
  is_u32 (_OUTPUT_min s) /\ is_u32 (_OUTPUT_max s).

(** The j-th poll of a wait that starts in [w] finds the sensor not ready. *)
Definition not_ready (s : Adafruit_MPRLS) (w : World) (j : nat) : bool :=
  if _eoc s =? -1
  then negb (Z.land (u8 (rx_tape w (rx_reads w + j) 0)) MPRLS_STATUS_BUSY =? 0)
  else negb (pin_tape w (_eoc s) (pin_reads w + j)).

(** What the j-th reading of the clock inside the wait shows to have elapsed
    since the reading taken right after the command was written. *)
Definition elapsed (w : World) (j : nat) : Z :=
  u32 (u32 (millis_tape w (S (millis_calls w) + j))
       - u32 (millis_tape w (millis_calls w))).

(** A positive normal number of the format with [prec] digits whose
    magnitude lies in [lo, hi]: its value is in [2^(lo-1), 2^hi). *)
Definition normal_pos (prec lo hi : Z) (x : spec_float) : Prop :=
  exists m e,
    x = S754_finite false m e /\
    Zdigits2 (Zpos m) = prec /\
    lo <= prec + e <= hi.

(** [x] is [v] rounded down or up to a multiple of [2^g], the unit on which
    [v] has [prec] digits. *)
Definition rounded_to (prec g : Z) (x : spec_float) (v : Q) : Prop :=
  exists m e k m1,
    x = S754_finite false m e /\
    Zdigits2 (Zpos m) = prec /\
    (e = g \/ e = g + 1) /\
    (SF2Q x == inject_Z k * 2 ^ g)%Q /\
    (k = m1 \/ k = m1 + 1) /\
    2 ^ (prec - 1) <= m1 /\
    (inject_Z m1 * 2 ^ g <= v)%Q /\ (v < inject_Z (m1 + 1) * 2 ^ g)%Q.

(** The interpolation between the two points of the curve, in exact
    arithmetic: [((raw - min) * (psiMax - psiMin) / (max - min) + psiMin) * K]. *)
Definition interpolation (s : Adafruit_MPRLS) (raw_psi : Z) : Q :=
  ((inject_Z (raw_psi - _OUTPUT_min s) * inject_Z (_PSI_max s - _PSI_min s)
    / inject_Z (_OUTPUT_max s - _OUTPUT_min s)
    + inject_Z (_PSI_min s)) * SF2Q (_K s))%Q.

(** Rounding to the nearest integer, halves away from zero. *)
Definition Qround (q : Q) : Z :=
  if Qle_bool 0 q then Qfloor (q + (1 # 2)) else Qceiling (q - (1 # 2)).

(** [round (2^24 * (percent / 100))] in exact arithmetic. *)
Definition round_counts (pct : Q) : Z :=
  Qround (inject_Z (2 ^ 24) * (pct / inject_Z 100)).

Definition whole_percentages : list Z := map Z.of_nat (seq 0 101).

(** The events of a wait: readings of the pin, of the clock and of the bus. *)
Definition is_poll (e : Event) : bool :=
  match e with
  | EvDigitalRead _ _ | EvMillis _ | EvI2CRead _ => true
  | _ => false
  end.

(** The pulse of begin on the reset pin, and all that begin does to the
    pins, in the order of the calls. *)
Definition reset_pulse (pin : Z) : list Event :=
  [EvPinMode pin OUTPUT; EvDigitalWrite pin HIGH; EvDigitalWrite pin LOW;
   EvDelay 10; EvDigitalWrite pin HIGH].

Definition begin_pins (s : Adafruit_MPRLS) : list Event :=
  (if _reset s =? -1 then [] else reset_pulse (_reset s)) ++
  (if _eoc s =? -1 then [] else [EvPinMode (_eoc s) INPUT]).

(** The number of status reads of a wait that finds the sensor ready at
    its poll [k]: none when the pin is polled. *)
Definition polls_until (s : Adafruit_MPRLS) (k : nat) : nat :=
  if _eoc s =? -1 then S k else O.

(** The position of [q] in the unit interval that starts at the integer
    [m]: on [m], below, on or above the middle. *)
Definition located (m : Z) (l : location) (q : Q) : Prop :=
  match l with
  | loc_Exact => (q == inject_Z m)%Q
  | loc_Inexact c =>
      (inject_Z m < q)%Q /\ (q < inject_Z m + 1)%Q /\
      match c with
      | Lt => (2 * q < 2 * inject_Z m + 1)%Q
      | Eq => (2 * q == 2 * inject_Z m + 1)%Q
      | Gt => (2 * inject_Z m + 1 < 2 * q)%Q
      end
  end.

(** [x] is [v] rounded to the nearest multiple of [2^g], the unit on which
    [v] has [prec] digits, a tie going to the even multiple. *)
Definition rounded_nearest (prec g : Z) (x : spec_float) (v : Q) : Prop :=
  exists m1 l,
    2 ^ (prec - 1) <= m1 < 2 ^ prec /\
    located m1 l (v / 2 ^ g)%Q /\
    (SF2Q x == inject_Z (round_nearest_even m1 l) * 2 ^ g)%Q.

(** A number of the computation of readPressure: zero or a positive normal
    [float]. *)
Definition zero_or_normal (lo hi : Z) (x : spec_float) : Prop :=
  x = S754_zero false \/ normal_pos 24 lo hi x.

(** A whole number that [float] holds: at most 24 significant bits. *)
Definition float_integer (z : Z) : Prop :=
  exists m t, 0 <= m < 2 ^ 24 /\ 0 <= t /\ z = m * 2 ^ t.

(** ** Sample objects and worlds *)

Module Samples.

Definition no_undef : spec_float -> Z := fun _ => 0.

Definition clock_7ms : nat -> Z := fun k => 1000 + 7 * Z.of_nat k.
Definition pins_low : Z -> nat -> bool := fun _ _ => false.

(** The device answers the k-th read with the k-th frame of the list and
    with [rest] afterwards. *)
Definition replies (frames : list (list Z)) (rest : list Z) : nat -> nat -> Z :=
  fun k i => nth i (nth k frames rest) 0.

Definition boot (rx : nat -> nat -> Z) : World :=
  mkWorld clock_7ms pins_low (fun _ => true) rx 0 0 0 0 [].

(** The default object after a successful [begin], without an
    end-of-conversion pin and with one on pin 5. *)
Definition sensor_polled : Adafruit_MPRLS :=
  set_i2c_dev (Some MPRLS_DEFAULT_ADDR) (Adafruit_MPRLS_default (ilp32 no_undef) 0).

Definition sensor_wired : Adafruit_MPRLS :=
  set_i2c_dev (Some MPRLS_DEFAULT_ADDR)
    (Adafruit_MPRLS_new (ilp32 no_undef) 0 (-1) 5 0 25
       (of_Z binary32 10) (of_Z binary32 90) PSI_to_HPA).

Definition stuck_busy : World := boot (replies [] [0x60]).
Definition busy_twice : World :=
  boot (replies [[0x60]; [0x60]; [0x40]; [0x40; 0x80; 0x00; 0x00]] [0x40]).
Definition failed_frame : World :=
  boot (replies [[0x40]; [0x44; 0x12; 0x34; 0x56]] [0x40]).
Definition powered : World := boot (replies [] [0x40]).

(** A device that reports an integrity failure in its status byte. *)
Definition integrity_failed : World := boot (replies [] [0x44]).

(** The default configuration, with a scale factor that is not a number. *)
Definition nan_scale : Adafruit_MPRLS :=
  set_i2c_dev (Some MPRLS_DEFAULT_ADDR)
    (Adafruit_MPRLS_new (ilp32 no_undef) 0 (-1) (-1) 0 25
       (of_Z binary32 10) (of_Z binary32 90) NAN).

(** The [float] next above 10: 10 + 2^-20. *)
Definition above_10 : spec_float := S754_finite false 10485761 (-20).

(** A curve from 10 % to the next percentage above. *)
Definition thin_curve : Adafruit_MPRLS :=
  Adafruit_MPRLS_new (ilp32 no_undef) 0 (-1) (-1) 0 25
    (of_Z binary32 10) above_10 PSI_to_HPA.

(** A sensor of 0 to 7 PSI and one of 0 to 1000 PSI on the default curve. *)
Definition range_7 : Adafruit_MPRLS :=
  Adafruit_MPRLS_new (ilp32 no_undef) 0 (-1) (-1) 0 7
    (of_Z binary32 10) (of_Z binary32 90) PSI_to_HPA.

Definition range_1000 : Adafruit_MPRLS :=
  Adafruit_MPRLS_new (ilp32 no_undef) 0 (-1) (-1) 0 1000
    (of_Z binary32 10) (of_Z binary32 90) PSI_to_HPA.

End Samples.

(** Further objects and worlds. *)

Module Scenes.

(** A clock that is about to wrap: 4294967290, and 7 ms more at each
    reading. *)
Definition clock_wrapping : nat -> Z := fun k => 4294967290 + 7 * Z.of_nat k.

Definition about_to_wrap : World :=
  mkWorld clock_wrapping Samples.pins_low (fun _ => true)
          (Samples.replies [] [0x60]) 0 0 0 0 [].

(** No device acknowledges the address. *)
Definition absent : World :=
  mkWorld Samples.clock_7ms Samples.pins_low (fun _ => false)
          (Samples.replies [] [0x40]) 0 0 0 0 [].

(** An object with a reset pin (4) and an end-of-conversion pin (5),
    before begin. *)
Definition fully_wired : Adafruit_MPRLS :=
  Adafruit_MPRLS_new (ilp32 Samples.no_undef) 0 4 5 0 25
    (of_Z binary32 10) (of_Z binary32 90) PSI_to_HPA.

(** A range given upside down: 25 PSI at the low end of the curve and 0 at
    the high end. *)
Definition inverted_range : Adafruit_MPRLS :=
  set_i2c_dev (Some MPRLS_DEFAULT_ADDR)
    (Adafruit_MPRLS_new (ilp32 Samples.no_undef) 0 (-1) (-1) 25 0
       (of_Z binary32 10) (of_Z binary32 90) PSI_to_HPA).

(** A sensor of 0 to 5 PSI on the default curve. *)
Definition range_5 : Adafruit_MPRLS :=
  Adafruit_MPRLS_new (ilp32 Samples.no_undef) 0 (-1) (-1) 0 5
    (of_Z binary32 10) (of_Z binary32 90) PSI_to_HPA.

(** The object of the sketch after its setup. *)
Definition sketch_mpr : Adafruit_MPRLS :=
  set_i2c_dev (Some MPRLS_DEFAULT_ADDR) (Sketch.mpr (ilp32 Samples.no_undef) 0).

End Scenes.

(** * Properties of the embedding *)

Ltac run :=
  unfold readData, wait_ready, readStatus, millis, digitalRead, pinMode, digitalWrite,
    delay, i2c_read, i2c_write, bind, ret, this, assign_lastStatus,
    out_of_fuel, lift, emit in *;
  cbn [hw_millis hw_digitalRead hw_i2c_read hw_log hw_i2c_begin
       millis_tape pin_tape ack_tape rx_tape millis_calls pin_reads opens
       rx_reads trace lastStatus i2c_dev _reset _eoc _PSI_min _PSI_max
       _OUTPUT_min _OUTPUT_max _K set_lastStatus set_i2c_dev] in *.

Ltac case_if H :=
  match type of H with
  | context [if ?c then _ else _] => destruct c eqn:?
  end; run.

Section MachineIntFacts.

Lemma wrap_range bits x : 0 <= bits -> 0 <= wrap bits x < 2 ^ bits.
Proof.
  intros Hb. unfold wrap. apply Z.mod_pos_bound.
  apply Z.pow_pos_nonneg; lia.
Qed.

Lemma wrap_small bits x : 0 <= x < 2 ^ bits -> wrap bits x = x.
Proof. intros H. unfold wrap. now apply Z.mod_small. Qed.

Lemma u8_range x : is_u8 (u8 x).
Proof. apply wrap_range; lia. Qed.

Lemma u32_range x : is_u32 (u32 x).
Proof. apply wrap_range; lia. Qed.

Lemma u32_small x : is_u32 x -> u32 x = x.
Proof. apply wrap_small. Qed.

End MachineIntFacts.

(** ** The bus protocol *)

Section WaitLoops.

Lemma readStatus_inv s w b s' w' :
  readStatus s w = Done b s' w' ->
  s' = s /\ b = u8 (rx_tape w (rx_reads w) 0) /\
  w' = snd (hw_i2c_read [0] 1 w).
Proof.
  run. destruct (i2c_dev s); [|discriminate].
  intros H. injection H as <- <- <-. auto.
Qed.

(** The pin loop touches neither the object nor the bus; when it gives
    up, the last thing it did was to read the clock. *)
Lemma wait_eoc_inv fuel : forall t s w b s' w',
  wait_eoc fuel t s w = Done b s' w' ->
  s' = s /\ rx_reads w' = rx_reads w /\ rx_tape w' = rx_tape w /\
  (b = false -> exists now tr, trace w' = EvMillis now :: tr).
Proof.
  induction fuel as [|fuel IH]; intros t s w b s' w' H.
  - discriminate.
  - cbn [wait_eoc] in H. run. case_if H.
    + injection H as <- <- <-. repeat split; auto; try discriminate; try lia.
    + case_if H.
      * injection H as <- <- <-. run. repeat split; eauto.
      * apply IH in H. run. exact H.
Qed.

(** The status loop stores every byte it reads: on exit [lastStatus] is
    the byte of the last read transaction. *)
Lemma wait_status_inv fuel : forall t s w b s' w',
  wait_status fuel t s w = Done b s' w' ->
  (rx_reads w < rx_reads w')%nat /\ rx_tape w' = rx_tape w /\
  s' = set_lastStatus (u8 (rx_tape w (pred (rx_reads w')) 0)) s /\
  (b = false -> exists now tr, trace w' = EvMillis now :: tr).
Proof.
  induction fuel as [|fuel IH]; intros t s w b s' w' H.
  - discriminate.
  - cbn [wait_status] in H. run.
    destruct (i2c_dev s) eqn:Hdev; [|discriminate].
    cbn [nth app rx_frame map seq skipn] in H. case_if H.
    + injection H as <- <- <-. run. repeat split; auto; try discriminate; try lia.
    + case_if H.
      * injection H as <- <- <-. run. repeat split; eauto.
      * apply IH in H. run.
        destruct H as (Hlt & Htape & Hs & Htr).
        repeat split; auto; lia.
Qed.

End WaitLoops.

Section Timeout.

Lemma gtb_false_of_le a b : a <= b -> (a >? b) = false.
Proof. intros H. destruct (Z.gtb_spec a b); [lia | reflexivity]. Qed.

Lemma gtb_true_of_gt a b : a > b -> (a >? b) = true.
Proof. intros H. destruct (Z.gtb_spec a b); [reflexivity | lia]. Qed.

(** The pin never reads high during the first [k + 1] polls and the clock
    first exceeds the timeout at its [k]-th reading: the loop gives up
    there, after [k + 1] polls. *)
Lemma wait_eoc_timeout k : forall fuel t s w,
  (k < fuel)%nat ->
  (forall j, (j <= k)%nat -> pin_tape w (_eoc s) (pin_reads w + j) = false) ->
  (forall j, (j < k)%nat ->
     u32 (u32 (millis_tape w (millis_calls w + j)) - t) <= MPRLS_READ_TIMEOUT) ->
  u32 (u32 (millis_tape w (millis_calls w + k)) - t) > MPRLS_READ_TIMEOUT ->
  exists w', wait_eoc fuel t s w = Done false s w' /\
             millis_calls w' = (millis_calls w + k + 1)%nat.
Proof.
  induction k as [|k IH]; intros fuel t s w Hfuel Hpin Hbefore Hafter;
    (destruct fuel as [|fuel]; [lia|]); cbn [wait_eoc]; run;
    pose proof (Hpin O ltac:(lia)) as Hp0; rewrite Nat.add_0_r in Hp0;
    rewrite Hp0; run.
  - rewrite Nat.add_0_r in Hafter.
    rewrite (gtb_true_of_gt _ _ Hafter).
    eexists; split; [reflexivity|]. run. lia.
  - pose proof (Hbefore O ltac:(lia)) as Hb0. rewrite Nat.add_0_r in Hb0.
    rewrite (gtb_false_of_le _ _ Hb0).
    edestruct (IH fuel t s) as (w' & Hrun & Hcalls);
      [| | | | exists w'; split; [exact Hrun|]]; run.
    + lia.
    + intros j Hj.
      replace (S (pin_reads w) + j)%nat with (pin_reads w + S j)%nat by lia.
      apply Hpin. lia.
    + intros j Hj.
      replace (S (millis_calls w) + j)%nat with (millis_calls w + S j)%nat by lia.
      apply Hbefore. lia.
    + replace (S (millis_calls w) + k)%nat with (millis_calls w + S k)%nat by lia.
      exact Hafter.
    + rewrite Hcalls. lia.
Qed.

(** The same for the status loop, with the busy bit of the polled byte. *)
Lemma wait_status_timeout k : forall fuel t s w a,
  i2c_dev s = Some a ->
  (k < fuel)%nat ->
  (forall j, (j <= k)%nat ->
     Z.land (u8 (rx_tape w (rx_reads w + j) 0)) MPRLS_STATUS_BUSY <> 0) ->
  (forall j, (j < k)%nat ->
     u32 (u32 (millis_tape w (millis_calls w + j)) - t) <= MPRLS_READ_TIMEOUT) ->
  u32 (u32 (millis_tape w (millis_calls w + k)) - t) > MPRLS_READ_TIMEOUT ->
  exists s' w', wait_status fuel t s w = Done false s' w' /\
                millis_calls w' = (millis_calls w + k + 1)%nat.
Proof.
  induction k as [|k IH]; intros fuel t s w a Hdev Hfuel Hbusy Hbefore Hafter;
    (destruct fuel as [|fuel]; [lia|]); cbn [wait_status]; run;
    rewrite Hdev; cbn [nth app rx_frame map seq skipn]; run;
    pose proof (Hbusy O ltac:(lia)) as Hb; rewrite Nat.add_0_r in Hb;
    apply Z.eqb_neq in Hb; rewrite Hb; run.
  - rewrite Nat.add_0_r in Hafter.
    rewrite (gtb_true_of_gt _ _ Hafter).
    do 2 eexists; split; [reflexivity|]. run. lia.
  - pose proof (Hbefore O ltac:(lia)) as Hb0. rewrite Nat.add_0_r in Hb0.
    rewrite (gtb_false_of_le _ _ Hb0).
    edestruct (IH fuel t) as (s' & w' & Hrun & Hcalls);
      [| | | | | exists s', w'; split; [exact Hrun|]]; run.
    + exact Hdev.
    + lia.
    + intros j Hj.
      replace (S (rx_reads w) + j)%nat with (rx_reads w + S j)%nat by lia.
      apply Hbusy. lia.
    + intros j Hj.
      replace (S (millis_calls w) + j)%nat with (millis_calls w + S j)%nat by lia.
      apply Hbefore. lia.
    + replace (S (millis_calls w) + k)%nat with (millis_calls w + S k)%nat by lia.
      exact Hafter.
    + rewrite Hcalls. lia.
Qed.

End Timeout.

Section ReadData.

Lemma wait_ready_inv fuel t s w b s' w' :
  wait_ready fuel t s w = Done b s' w' ->
  rx_tape w' = rx_tape w /\ i2c_dev s' = i2c_dev s /\
  (b = false -> exists now tr, trace w' = EvMillis now :: tr) /\
  (_eoc s <> -1 -> s' = s /\ rx_reads w' = rx_reads w) /\
  (_eoc s = -1 ->
     (rx_reads w < rx_reads w')%nat /\
     s' = set_lastStatus (u8 (rx_tape w (pred (rx_reads w')) 0)) s).
Proof.
  intros H. run. destruct (Z.eqb_spec (_eoc s) (-1)) as [E|E];
    cbn [negb] in H.
  - apply wait_status_inv in H. destruct H as (Hlt & Htape & Hs & Htr).
    repeat split; auto; try contradiction.
    rewrite Hs. reflexivity.
  - apply wait_eoc_inv in H. destruct H as (Hs & Hrx & Htape & Htr).
    subst s'. repeat split; auto; contradiction.
Qed.

Lemma testbit_land_pow2 x n :
  0 <= n -> Z.testbit x n = negb (Z.land x (2 ^ n) =? 0).
Proof.
  intros Hn. destruct (Z.eqb_spec (Z.land x (2 ^ n)) 0) as [E|E]; cbn [negb].
  - assert (H : Z.testbit (Z.land x (2 ^ n)) n = false)
      by (rewrite E; apply Z.bits_0).
    rewrite Z.land_spec, Z.pow2_bits_true, andb_true_r in H; auto.
  - destruct (Z.testbit x n) eqn:Hb; [reflexivity|].
    exfalso. apply E. apply Z.bits_inj'. intros i Hi.
    rewrite Z.land_spec, Z.bits_0.
    destruct (Z.eq_dec i n) as [->|Hne].
    + rewrite Hb. reflexivity.
    + rewrite Z.pow2_bits_false by auto. apply andb_false_r.
Qed.

(** A frame whose status byte reports a fault decodes to the sentinel. *)
Lemma decode_fault st data :
  Z.testbit st 0 = true \/ Z.testbit st 2 = true ->
  decode (st :: data) = 0xFFFFFFFF.
Proof.
  intros H. unfold decode. cbn [nth].
  change MPRLS_STATUS_MATHSAT with (2 ^ 0).
  change MPRLS_STATUS_FAILED with (2 ^ 2).
  rewrite <- !testbit_land_pow2 by lia.
  destruct H as [-> | ->]; [reflexivity|].
  destruct (Z.testbit st 0); reflexivity.
Qed.

Lemma lor_below a b n :
  0 <= n -> 0 <= a < 2 ^ n -> 0 <= b < 2 ^ n -> 0 <= Z.lor a b < 2 ^ n.
Proof.
  intros Hn Ha Hb. split; [apply Z.lor_nonneg; lia|].
  destruct (Z.eq_dec (Z.lor a b) 0) as [E|E].
  - rewrite E. apply Z.pow_pos_nonneg; lia.
  - assert (Hpos : 0 < Z.lor a b)
      by (assert (0 <= Z.lor a b) by (apply Z.lor_nonneg; lia); lia).
    assert (Hn' : 0 < n).
    { destruct (Z.eq_dec n 0) as [->|]; [|lia].
      exfalso. apply E. change (2 ^ 0) with 1 in *.
      replace a with 0 by lia. replace b with 0 by lia. reflexivity. }
    apply Z.log2_lt_pow2; [exact Hpos|].
    rewrite Z.log2_lor by lia.
    apply Z.max_lub_lt.
    + destruct (Z.eq_dec a 0) as [->|Hna]; [cbn; lia|].
      apply Z.log2_lt_pow2; lia.
    + destruct (Z.eq_dec b 0) as [->|Hnb]; [cbn; lia|].
      apply Z.log2_lt_pow2; lia.
Qed.

(** A healthy frame decodes to its three data bytes, most significant
    first, and the result has 24 bits. *)
Lemma decode_data st b1 b2 b3 :
  Z.testbit st 0 = false -> Z.testbit st 2 = false ->
  is_u8 b1 -> is_u8 b2 -> is_u8 b3 ->
  decode [st; b1; b2; b3] = Z.lor (Z.lor (Z.shiftl b1 16) (Z.shiftl b2 8)) b3 /\
  0 <= decode [st; b1; b2; b3] < 2 ^ 24.
Proof.
  unfold is_u8. intros H0 H2 H1' H2' H3'. unfold decode. cbn [nth].
  change MPRLS_STATUS_MATHSAT with (2 ^ 0).
  change MPRLS_STATUS_FAILED with (2 ^ 2).
  rewrite <- !testbit_land_pow2 by lia. rewrite H0, H2. cbn [negb].
  change (2 ^ 8) with 256 in *.
  assert (A1 : 0 <= Z.shiftl b1 16 < 2 ^ 24).
  { rewrite Z.shiftl_mul_pow2 by lia.
    change (2 ^ 16) with 65536. change (2 ^ 24) with 16777216. lia. }
  assert (A2 : 0 <= Z.shiftl b2 8 < 2 ^ 24).
  { rewrite Z.shiftl_mul_pow2 by lia.
    change (2 ^ 8) with 256. change (2 ^ 24) with 16777216. lia. }
  assert (A3 : 0 <= b3 < 2 ^ 24)
    by (change (2 ^ 24) with 16777216; lia).
  rewrite !u32_small
    by (unfold is_u32; change (2 ^ 32) with (2 ^ 24 * 256); lia).
  split; [reflexivity|].
  apply lor_below; [lia| |exact A3].
  apply lor_below; [lia|exact A1|exact A2].
Qed.

(** What a call of readData that returns has done: it timed out and
    returns the sentinel, or it read one frame of four bytes and returns
    what that frame decodes to. *)
Lemma readData_inv fuel s w r s' w' :
  readData fuel s w = Done r s' w' ->
  (r = 0xFFFFFFFF /\ exists now tr, trace w' = EvMillis now :: tr) \/
  (exists k tr, trace w' = EvI2CRead (rx_frame w k 4) :: tr /\
                r = decode (rx_frame w k 4)).
Proof.
  intros H. run. destruct (i2c_dev s) eqn:Hdev; [|discriminate].
  match type of H with
  | match ?m with _ => _ end = _ => destruct m as [ready s1 w1| |] eqn:Hwait
  end; try discriminate.
  apply wait_ready_inv in Hwait. run.
  destruct Hwait as (Htape & Hdev1 & Htr & _).
  destruct ready; cbn [negb] in H.
  - right. rewrite Hdev1, Hdev in H. run.
    injection H as <- <- <-. run.
    unfold rx_frame. rewrite Htape.
    exists (rx_reads w1), (trace w1). split; reflexivity.
  - left. injection H as <- <- <-. split; [reflexivity|]. now apply Htr.
Qed.

End ReadData.

(** * Floating-point facts

    What the conversion of readPressure needs from [SpecFloat]: rounding a
    positive number of the normal range gives a finite, normal number whose
    magnitude is that of the input or one more. *)

Section Digits.

Lemma digits2_pos_size p : digits2_pos p = Pos.size p.
Proof. induction p as [p IH|p IH|]; cbn; now rewrite ?IH. Qed.

Lemma Zdigits2_log2 p : Zdigits2 (Zpos p) = Z.log2 (Zpos p) + 1.
Proof.
  cbn [Zdigits2]. rewrite digits2_pos_size.
  destruct p as [p|p|]; cbn [Z.log2 Pos.size]; try rewrite Pos2Z.inj_succ; lia.
Qed.

Lemma Zdigits2_bounds m :
  0 < m -> 2 ^ (Zdigits2 m - 1) <= m < 2 ^ Zdigits2 m.
Proof.
  intros Hm. destruct m as [|p|p]; try lia.
  rewrite Zdigits2_log2.
  replace (Z.log2 (Zpos p) + 1 - 1) with (Z.log2 (Zpos p)) by lia.
  replace (Z.log2 (Zpos p) + 1) with (Z.succ (Z.log2 (Zpos p))) by lia.
  apply Z.log2_spec. lia.
Qed.

Lemma Zdigits2_unique m d :
  2 ^ (d - 1) <= m < 2 ^ d -> 0 < d -> Zdigits2 m = d.
Proof.
  intros H Hd.
  assert (Hm : 0 < m).
  { assert (0 < 2 ^ (d - 1)) by (apply Z.pow_pos_nonneg; lia). lia. }
  destruct m as [|p|p]; try lia.
  rewrite Zdigits2_log2.
  rewrite (Z.log2_unique (Zpos p) (d - 1)); try lia.
  replace (Z.succ (d - 1)) with d by lia. exact H.
Qed.

Lemma Zdigits2_pos m : 0 < m -> 0 < Zdigits2 m.
Proof. destruct m; cbn; lia. Qed.

Lemma Zdigits2_nonneg m : 0 <= Zdigits2 m.
Proof. destruct m; cbn; lia. Qed.

(** Dropping [n] low bits of a number of more than [n] digits. *)
Lemma Zdigits2_div_pow2 m n :
  0 < m -> 0 <= n < Zdigits2 m -> Zdigits2 (m / 2 ^ n) = Zdigits2 m - n.
Proof.
  intros Hm Hn. pose proof (Zdigits2_bounds m Hm) as [Hlo Hhi].
  assert (Hp : 0 < 2 ^ n) by (apply Z.pow_pos_nonneg; lia).
  apply Zdigits2_unique; [|lia]. split.
  - apply Z.div_le_lower_bound; [exact Hp|].
    rewrite <- Z.pow_add_r by lia.
    replace (n + (Zdigits2 m - n - 1)) with (Zdigits2 m - 1) by lia.
    exact Hlo.
  - apply Z.div_lt_upper_bound; [exact Hp|].
    rewrite <- Z.pow_add_r by lia.
    replace (n + (Zdigits2 m - n)) with (Zdigits2 m) by lia.
    exact Hhi.
Qed.

Lemma Zdigits2_mul_pow2 m n :
  0 < m -> 0 <= n -> Zdigits2 (m * 2 ^ n) = Zdigits2 m + n.
Proof.
  intros Hm Hn. pose proof (Zdigits2_bounds m Hm) as [Hlo Hhi].
  pose proof (Zdigits2_pos m Hm) as Hd.
  assert (Hp : 0 < 2 ^ n) by (apply Z.pow_pos_nonneg; lia).
  apply Zdigits2_unique; [|lia]. split.
  - replace (Zdigits2 m + n - 1) with (Zdigits2 m - 1 + n) by lia.
    rewrite Z.pow_add_r by lia. apply Z.mul_le_mono_nonneg_r; lia.
  - rewrite Z.pow_add_r by lia. apply Z.mul_lt_mono_pos_r; lia.
Qed.

(** One more than a number has the digits of the number, or one more and
    is then a power of two. *)
Lemma Zdigits2_succ m :
  0 < m ->
  Zdigits2 (m + 1) = Zdigits2 m \/
  (m + 1 = 2 ^ Zdigits2 m /\ Zdigits2 (m + 1) = Zdigits2 m + 1).
Proof.
  intros Hm. pose proof (Zdigits2_bounds m Hm) as [Hlo Hhi].
  pose proof (Zdigits2_pos m Hm) as Hd.
  destruct (Z.eq_dec (m + 1) (2 ^ Zdigits2 m)) as [E|E].
  - right. split; [exact E|].
    apply Zdigits2_unique; [|lia].
    replace (Zdigits2 m + 1 - 1) with (Zdigits2 m) by lia.
    rewrite E. split; [lia|].
    apply Z.pow_lt_mono_r; lia.
  - left. apply Zdigits2_unique; [|lia]. lia.
Qed.

End Digits.

Section ShiftRight.

Lemma iter_pos_nat {A} (f : A -> A) p : forall x,
  iter_pos f p x = Nat.iter (Pos.to_nat p) f x.
Proof.
  induction p as [p IH|p IH|]; intros x; cbn [iter_pos].
  - rewrite !IH, Pos2Nat.inj_xI.
    replace (S (2 * Pos.to_nat p)) with (Pos.to_nat p + S (Pos.to_nat p))%nat by lia.
    rewrite Nat.iter_add, Nat.iter_succ_r. reflexivity.
  - rewrite !IH, Pos2Nat.inj_xO.
    replace (2 * Pos.to_nat p)%nat with (Pos.to_nat p + Pos.to_nat p)%nat by lia.
    rewrite Nat.iter_add. reflexivity.
  - reflexivity.
Qed.

Lemma shr_1_m mrs : 0 <= shr_m mrs -> shr_m (shr_1 mrs) = shr_m mrs / 2.
Proof.
  destruct mrs as [m r s]. cbn [shr_m]. intros Hm.
  destruct m as [|[p|p|]|p]; cbn [shr_1 shr_m]; try lia.
  - reflexivity.
  - rewrite Pos2Z.inj_xI. apply (Z.div_unique _ _ _ 1); lia.
  - rewrite Pos2Z.inj_xO. apply (Z.div_unique _ _ _ 0); lia.
  - reflexivity.
Qed.

Lemma iter_shr_1_m n : forall mrs,
  0 <= shr_m mrs ->
  shr_m (Nat.iter n shr_1 mrs) = shr_m mrs / 2 ^ Z.of_nat n.
Proof.
  induction n as [|n IH]; intros mrs Hm.
  - cbn. now rewrite Z.div_1_r.
  - rewrite Nat.iter_succ_r, IH.
    + rewrite shr_1_m by exact Hm.
      rewrite Z.div_div by (try apply Z.pow_pos_nonneg; lia).
      rewrite Nat2Z.inj_succ, Z.pow_succ_r by lia. reflexivity.
    + rewrite shr_1_m by exact Hm. apply Z.div_pos; lia.
Qed.

(** [shr] drops [max n 0] low bits of the mantissa and adds as much to the
    exponent. *)
Lemma shr_spec mrs e n :
  0 <= shr_m mrs ->
  shr_m (fst (shr mrs e n)) = shr_m mrs / 2 ^ Z.max n 0 /\
  snd (shr mrs e n) = e + Z.max n 0.
Proof.
  intros Hm. destruct n as [|p|p]; cbn [shr fst snd].
  - cbn. rewrite Z.div_1_r. split; lia.
  - rewrite iter_pos_nat, iter_shr_1_m by exact Hm.
    rewrite positive_nat_Z. rewrite Z.max_l by lia. split; reflexivity.
  - cbn. rewrite Z.div_1_r. split; lia.
Qed.

Lemma shr_1_double z :
  0 <= z ->
  shr_1 (Build_shr_record (2 * z) false false) = Build_shr_record z false false.
Proof. destruct z as [|p|p]; try lia; reflexivity. Qed.

Lemma iter_shr_1_exact n : forall k,
  0 <= k ->
  Nat.iter n shr_1 (Build_shr_record (k * 2 ^ Z.of_nat n) false false)
  = Build_shr_record k false false.
Proof.
  induction n as [|n IH]; intros k Hk.
  - cbn [Nat.iter]. change (2 ^ Z.of_nat 0) with 1. now rewrite Z.mul_1_r.
  - rewrite Nat.iter_succ_r, Nat2Z.inj_succ, Z.pow_succ_r by lia.
    replace (k * (2 * 2 ^ Z.of_nat n)) with (2 * (k * 2 ^ Z.of_nat n)) by lia.
    rewrite shr_1_double.
    + apply IH. exact Hk.
    + apply Z.mul_nonneg_nonneg; [exact Hk|]. apply Z.pow_nonneg. lia.
Qed.

(** Dropping low bits that are all zero leaves an exact location. *)
Lemma shr_exact m e n :
  0 <= m -> 0 <= n -> m mod 2 ^ n = 0 ->
  fst (shr (Build_shr_record m false false) e n)
  = Build_shr_record (m / 2 ^ n) false false.
Proof.
  intros Hm Hn Hdiv. destruct n as [|p|p]; try lia.
  - cbn [shr fst]. change (2 ^ 0) with 1. now rewrite Z.div_1_r.
  - cbn [shr fst]. rewrite iter_pos_nat.
    assert (Hp : 0 < 2 ^ Zpos p) by (apply Z.pow_pos_nonneg; lia).
    pose proof (Z.div_mod m (2 ^ Zpos p) ltac:(lia)) as Hdm.
    rewrite Hdiv, Z.add_0_r in Hdm.
    rewrite Hdm at 1. rewrite Z.mul_comm.
    replace (Zpos p) with (Z.of_nat (Pos.to_nat p)) by apply positive_nat_Z.
    apply iter_shr_1_exact. apply Z.div_pos; [exact Hm|].
    apply Z.pow_pos_nonneg; lia.
Qed.

Lemma shr_record_of_loc_m m l : shr_m (shr_record_of_loc m l) = m.
Proof. destruct l as [|[| |]]; reflexivity. Qed.

Lemma round_nearest_even_cases m l :
  round_nearest_even m l = m \/ round_nearest_even m l = m + 1.
Proof.
  destruct l as [|[| |]]; cbn; auto. destruct (Z.even m); auto.
Qed.

End ShiftRight.

Section Rounding.

Variables prec emax : Z.
Hypothesis Hprec : 0 < prec.
Hypothesis Hemax : prec < emax.

Local Abbreviation emin := (SpecFloat.emin prec emax).
Local Abbreviation fexp := (SpecFloat.fexp prec emax).

Lemma fexp_normal V : emin <= V - prec -> fexp V = V - prec.
Proof. unfold SpecFloat.fexp. intros H. apply Z.max_l. exact H. Qed.

Lemma fexp_ge_emin V : emin <= fexp V.
Proof. unfold SpecFloat.fexp. apply Z.le_max_r. Qed.

Lemma shr_fexp_spec m e l :
  0 <= m ->
  let n := Z.max (fexp (Zdigits2 m + e) - e) 0 in
  shr_m (fst (shr_fexp prec emax m e l)) = m / 2 ^ n /\
  snd (shr_fexp prec emax m e l) = e + n.
Proof.
  intros Hm n. unfold shr_fexp.
  pose proof (shr_spec (shr_record_of_loc m l) e
                (fexp (Zdigits2 m + e) - e)) as H.
  rewrite shr_record_of_loc_m in H. apply H. exact Hm.
Qed.

(** Rounding a non-negative mantissa never gives a NaN. *)
Lemma binary_round_aux_not_nan sx mx ex lx :
  0 <= mx -> is_nan (binary_round_aux prec emax sx mx ex lx) = false.
Proof.
  intros Hm. unfold binary_round_aux.
  pose proof (shr_fexp_spec mx ex lx Hm) as [H1 _].
  destruct (shr_fexp prec emax mx ex lx) as [mrs' e'].
  cbn [fst snd] in H1.
  set (m2 := round_nearest_even (shr_m mrs') (loc_of_shr_record mrs')).
  assert (Hm1 : 0 <= shr_m mrs').
  { rewrite H1. apply Z.div_pos; [exact Hm|].
    apply Z.pow_pos_nonneg; lia. }
  assert (Hm2 : 0 <= m2).
  { unfold m2.
    destruct (round_nearest_even_cases (shr_m mrs') (loc_of_shr_record mrs'))
      as [-> | ->]; lia. }
  pose proof (shr_fexp_spec m2 e' loc_Exact Hm2) as [H3 _].
  destruct (shr_fexp prec emax m2 e' loc_Exact) as [mrs'' e''].
  cbn [fst snd] in H3.
  assert (Hm3 : 0 <= shr_m mrs'').
  { rewrite H3. apply Z.div_pos; [exact Hm2|].
    apply Z.pow_pos_nonneg; lia. }
  destruct (shr_m mrs'') as [|p|p]; [reflexivity| |lia].
  destruct (e'' <=? emax - prec); reflexivity.
Qed.

(** Rounding in the normal range: the mantissa [mx] has at least [prec]
    digits and the magnitude [V] of the number is such that neither
    underflow nor overflow happens.  The result is the mantissa cut to
    [prec] digits, or one more than that; it is the cut mantissa when no
    non-zero bit is cut off an exact number. *)
Lemma binary_round_aux_faithful sx mx ex lx :
  0 < mx ->
  let V := Zdigits2 mx + ex in
  let n := V - prec - ex in
  0 <= n ->
  emin <= V - prec ->
  V + 1 <= emax ->
  exists m e k,
    binary_round_aux prec emax sx mx ex lx = S754_finite sx m e /\
    Zdigits2 (Zpos m) = prec /\
    (e = V - prec \/ e = V - prec + 1) /\
    Zpos m * 2 ^ (e - (V - prec)) = k /\
    (k = mx / 2 ^ n \/ k = mx / 2 ^ n + 1) /\
    Zdigits2 (mx / 2 ^ n) = prec /\
    (lx = loc_Exact -> mx mod 2 ^ n = 0 -> k = mx / 2 ^ n).
Proof.
  intros Hm V n Halign Hlo Hhi. unfold binary_round_aux.
  assert (Hexact : lx = loc_Exact -> mx mod 2 ^ n = 0 ->
                   loc_of_shr_record (fst (shr_fexp prec emax mx ex lx))
                   = loc_Exact).
  { intros -> Hdiv. unfold shr_fexp. fold V.
    rewrite (fexp_normal V Hlo). fold n. cbn [shr_record_of_loc].
    rewrite shr_exact by (try assumption; lia). reflexivity. }
  pose proof (shr_fexp_spec mx ex lx ltac:(lia)) as [H1 E1].
  destruct (shr_fexp prec emax mx ex lx) as [mrs' e'].
  cbn [fst snd] in H1, E1, Hexact. fold V in H1, E1.
  rewrite (fexp_normal V Hlo) in H1, E1. fold n in H1, E1.
  rewrite Z.max_l in H1, E1 by lia.
  set (m1 := shr_m mrs') in *.
  assert (Hd1 : Zdigits2 m1 = prec).
  { rewrite H1, Zdigits2_div_pow2; unfold n, V in *; lia. }
  assert (Hm1 : 0 < m1).
  { assert (0 <= m1)
      by (rewrite H1; apply Z.div_pos; [lia | apply Z.pow_pos_nonneg; lia]).
    destruct (Z.eq_dec m1 0) as [E|E]; [|lia].
    rewrite E in Hd1. cbn in Hd1. lia. }
  assert (He' : e' = V - prec) by (unfold n in E1; lia). clear E1.
  set (m2 := round_nearest_even m1 (loc_of_shr_record mrs')).
  assert (Hm2 : m2 = m1 \/ m2 = m1 + 1)
    by apply round_nearest_even_cases.
  assert (Hm2x : lx = loc_Exact -> mx mod 2 ^ n = 0 -> m2 = m1).
  { intros Hl Hdiv. unfold m2. rewrite (Hexact Hl Hdiv). reflexivity. }
  assert (Hcases : Zdigits2 m2 = prec \/
                   (m2 = 2 ^ prec /\ Zdigits2 m2 = prec + 1)).
  { destruct Hm2 as [E | E]; rewrite E; [left; exact Hd1|].
    destruct (Zdigits2_succ m1 Hm1) as [E' | [E1 E2]].
    - left. lia.
    - right. rewrite Hd1 in E1, E2. split; assumption. }
  assert (Hm2pos : 0 < m2) by lia.
  pose proof (shr_fexp_spec m2 e' loc_Exact ltac:(lia)) as [H3 E3].
  destruct (shr_fexp prec emax m2 e' loc_Exact) as [mrs'' e''].
  cbn [fst snd] in H3, E3. rewrite <- H1.
  destruct Hcases as [Hd2 | [Hpow Hd2]].
  - rewrite Hd2, He' in H3, E3.
    replace (prec + (V - prec)) with V in H3, E3 by lia.
    rewrite (fexp_normal V Hlo) in H3, E3.
    rewrite Z.max_r in H3, E3 by lia.
    rewrite Z.div_1_r in H3.
    rewrite H3. destruct m2 as [|p|p] eqn:Ep; try lia.
    exists p, e'', (Zpos p). rewrite Hd2.
    replace (e'' <=? emax - prec) with true
      by (symmetry; apply Z.leb_le; lia).
    replace (e'' - (V - prec)) with 0 by lia.
    repeat split; auto; try lia.
  - rewrite Hd2, He' in H3, E3.
    replace (prec + 1 + (V - prec)) with (V + 1) in H3, E3 by lia.
    rewrite (fexp_normal (V + 1)) in H3, E3 by lia.
    replace (V + 1 - prec - (V - prec)) with 1 in H3, E3 by lia.
    rewrite Z.max_l in H3, E3 by lia.
    assert (Hpp : 2 ^ prec = 2 * 2 ^ (prec - 1)).
    { replace prec with (Z.succ (prec - 1)) at 1 by lia.
      apply Z.pow_succ_r. lia. }
    assert (Hm3 : shr_m mrs'' = 2 ^ (prec - 1)).
    { rewrite H3, Hpow, Hpp. change (2 ^ 1) with 2.
      rewrite Z.mul_comm, Z.div_mul by lia. reflexivity. }
    assert (Hpos3 : 0 < 2 ^ (prec - 1)) by (apply Z.pow_pos_nonneg; lia).
    rewrite Hm3. destruct (2 ^ (prec - 1)) as [|p|p] eqn:Ep; try lia.
    exists p, e'', m2.
    replace (e'' <=? emax - prec) with true
      by (symmetry; apply Z.leb_le; lia).
    replace (e'' - (V - prec)) with 1 by lia. change (2 ^ 1) with 2.
    repeat split; auto; try lia.
    rewrite <- Ep. apply Zdigits2_unique; [|lia].
    replace (prec - 1) with (Z.pred prec) by lia.
    split; [lia|]. apply Z.pow_lt_mono_r; lia.
Qed.

Lemma binary_round_aux_normal sx mx ex lx :
  0 < mx ->
  let V := Zdigits2 mx + ex in
  ex <= V - prec ->
  emin <= V - prec ->
  V + 1 <= emax ->
  exists m e,
    binary_round_aux prec emax sx mx ex lx = S754_finite sx m e /\
    Zdigits2 (Zpos m) = prec /\
    (e = V - prec \/ e = V - prec + 1).
Proof.
  intros Hm V Halign Hlo Hhi.
  destruct (binary_round_aux_faithful sx mx ex lx Hm)
    as (m & e & k & Hr & Hd & He & _); fold V; try lia.
  exists m, e. auto.
Qed.

Lemma iter_xO_pow2 m d : Zpos (Pos.iter xO m d) = Zpos m * 2 ^ Zpos d.
Proof.
  induction d as [|d IH] using Pos.peano_ind.
  - cbn. lia.
  - rewrite Pos.iter_succ, Pos2Z.inj_xO, IH, Pos2Z.inj_succ.
    rewrite Z.pow_succ_r by lia. lia.
Qed.

(** [shl_align] pads the mantissa with low zero bits down to exponent
    [ex'], when that is below [ex]. *)
Lemma shl_align_spec mx ex ex' :
  let ez := Z.min ex ex' in
  shl_align mx ex ex' =
    (Z.to_pos (Zpos mx * 2 ^ (ex - ez)), ez) /\
  0 < Zpos mx * 2 ^ (ex - ez).
Proof.
  intros ez. unfold shl_align, ez.
  destruct (ex' - ex) as [|d|d] eqn:E.
  - rewrite Z.min_l by lia. rewrite Z.sub_diag, Z.mul_1_r.
    split; [reflexivity | lia].
  - rewrite Z.min_l by lia. rewrite Z.sub_diag, Z.mul_1_r.
    split; [reflexivity | lia].
  - rewrite Z.min_r by lia.
    replace (ex - ex') with (Zpos d) by lia.
    rewrite <- iter_xO_pow2. split; [reflexivity | lia].
Qed.

(** [binary_round] in the normal range. *)
Lemma binary_round_normal sx mx ex :
  let V := Zdigits2 (Zpos mx) + ex in
  emin <= V - prec ->
  V + 1 <= emax ->
  exists m e,
    binary_round prec emax sx mx ex = S754_finite sx m e /\
    Zdigits2 (Zpos m) = prec /\
    (e = V - prec \/ e = V - prec + 1).
Proof.
  intros V Hlo Hhi. unfold binary_round.
  change (Zpos (digits2_pos mx)) with (Zdigits2 (Zpos mx)). fold V.
  rewrite (fexp_normal V Hlo).
  destruct (shl_align_spec mx ex (V - prec)) as [-> Hpos].
  set (ez := Z.min ex (V - prec)) in *.
  set (mz := Zpos mx * 2 ^ (ex - ez)) in *.
  rewrite Z2Pos.id by exact Hpos.
  assert (Hdz : Zdigits2 mz + ez = V).
  { unfold mz. rewrite Zdigits2_mul_pow2 by lia. unfold V. lia. }
  destruct (binary_round_aux_normal sx mz ez loc_Exact Hpos)
    as (m & e & Hr & Hd & He); rewrite ?Hdz; try lia.
  exists m, e. rewrite Hdz in He. auto.
Qed.

End Rounding.

Section Operations.

Variables prec emax : Z.
Hypothesis Hprec : 0 < prec.
Hypothesis Hemax : prec < emax.

Local Abbreviation emin := (SpecFloat.emin prec emax).

Lemma normal_pos_weaken lo hi lo' hi' x :
  normal_pos prec lo hi x -> lo' <= lo -> hi <= hi' ->
  normal_pos prec lo' hi' x.
Proof.
  intros (m & e & Hx & Hd & Hr) Hlo Hhi. exists m, e. repeat split; auto; lia.
Qed.

Lemma normal_pos_finite lo hi x : normal_pos prec lo hi x -> is_finite x = true.
Proof. intros (m & e & -> & _). reflexivity. Qed.

(** Conversion of a positive integer. *)
Lemma binary_normalize_pos z :
  0 < z ->
  emin <= Zdigits2 z - prec ->
  Zdigits2 z + 1 <= emax ->
  normal_pos prec (Zdigits2 z) (Zdigits2 z + 1)
    (binary_normalize prec emax z 0 false).
Proof.
  intros Hz Hlo Hhi. destruct z as [|p|p]; try lia.
  cbn [binary_normalize].
  destruct (binary_round_normal prec emax Hprec false p 0)
    as (m & e & Hr & Hd & He); rewrite ?Z.add_0_r; try assumption.
  exists m, e. rewrite Z.add_0_r in He. repeat split; auto; lia.
Qed.

Lemma digits_between S D :
  0 < D -> 2 ^ (D - 1) <= S < 2 ^ (D + 1) ->
  Zdigits2 S = D \/ Zdigits2 S = D + 1.
Proof.
  intros HD [Hlo Hhi]. destruct (Z_lt_le_dec S (2 ^ D)) as [Hlt|Hge].
  - left. apply Zdigits2_unique; lia.
  - right. apply Zdigits2_unique; [|lia].
    replace (D + 1 - 1) with D by lia. lia.
Qed.

(** The product of two finite numbers is not a NaN. *)
Lemma SFmul_not_nan x y :
  is_finite x = true -> is_finite y = true ->
  is_nan (SFmul prec emax x y) = false.
Proof.
  destruct x as [sx|sx| |sx mx ex]; destruct y as [sy|sy| |sy my ey];
    try discriminate; intros _ _; try reflexivity.
  cbn [SFmul]. apply binary_round_aux_not_nan. lia.
Qed.

End Operations.

(** ** Values and rounding errors *)

Section Values.

Local Open Scope Q_scope.

Lemma pow2_pos e : 0 < 2 ^ e.
Proof. apply Qpower_0_lt. reflexivity. Qed.

Lemma pow2_add a b : 2 ^ (a + b) == 2 ^ a * 2 ^ b.
Proof. apply Qpower_plus. discriminate. Qed.

Lemma pow2_Z n : (0 <= n)%Z -> 2 ^ n == inject_Z (2 ^ n).
Proof. intros H. now rewrite Zpower_Qpower. Qed.

Lemma pow2_le a b : (a <= b)%Z -> 2 ^ a <= 2 ^ b.
Proof. intros H. apply Qpower_le_compat_l; [exact H | lra]. Qed.

Lemma pow2_le_inv a b : 2 ^ a <= 2 ^ b -> (a <= b)%Z.
Proof. intros H. apply (Qpower_le_compat_l_inv 2); [exact H | lra]. Qed.

Lemma pow2_lt_inv a b : 2 ^ a < 2 ^ b -> (a < b)%Z.
Proof.
  intros H. destruct (Z_lt_le_dec a b) as [|Hle]; [assumption|].
  apply pow2_le in Hle. lra.
Qed.

(** The value of a finite number. *)
Lemma SF2Q_finite s m e :
  SF2Q (S754_finite s m e)
  == (if s then -1 else 1) * (inject_Z (Zpos m) * 2 ^ e).
Proof.
  assert (H : match e with
              | Zneg p => Zpos m # 2 ^ p
              | _ => inject_Z (Zpos m * 2 ^ e)
              end == inject_Z (Zpos m) * 2 ^ e).
  { destruct e as [|p|p].
    - change (2 ^ 0)%Z with 1%Z. rewrite Z.mul_1_r.
      change (2 ^ 0) with 1. ring.
    - rewrite inject_Z_mult, pow2_Z by lia. reflexivity.
    - rewrite Qmake_Qdiv, Pos2Z.inj_pow.
      change (Zneg p) with (- Zpos p)%Z.
      rewrite Qpower_opp, <- pow2_Z by lia. reflexivity. }
  cbn [SF2Q]. destruct s; rewrite H; ring.
Qed.

Lemma SF2Q_pos m e : SF2Q (S754_finite false m e) == inject_Z (Zpos m) * 2 ^ e.
Proof. rewrite SF2Q_finite. ring. Qed.

(** Truncation is the floor of the value, for a positive number. *)
Lemma trunc_floor m e :
  trunc (S754_finite false m e) = Some (Qfloor (SF2Q (S754_finite false m e))).
Proof.
  cbn [trunc SF2Q]. f_equal. destruct e as [|p|p].
  - rewrite Qfloor_Z. apply Z.shiftl_mul_pow2. lia.
  - rewrite Qfloor_Z. apply Z.shiftl_mul_pow2. lia.
  - cbn [Qfloor]. rewrite Pos2Z.inj_pow. apply Z.shiftr_div_pow2. lia.
Qed.

Lemma Qfloor_unique q c :
  inject_Z c <= q -> q < inject_Z (c + 1) -> Qfloor q = c.
Proof.
  intros Hlo Hhi.
  pose proof (Qfloor_le q) as H1. pose proof (Qlt_floor q) as H2.
  assert (A : (c < Qfloor q + 1)%Z) by (rewrite Zlt_Qlt; lra).
  assert (B : (Qfloor q < c + 1)%Z) by (rewrite Zlt_Qlt; lra).
  lia.
Qed.

End Values.

Section FaithfulRounding.

Variables prec emax : Z.
Hypothesis Hprec : 0 < prec.
Hypothesis Hemax : prec < emax.

Local Abbreviation emin := (SpecFloat.emin prec emax).

Lemma round_aux_rounded_to mx ex lx (v : Q) :
  0 < mx ->
  let g := Zdigits2 mx + ex - prec in
  ex <= g ->
  emin <= g ->
  g + prec + 1 <= emax ->
  (inject_Z mx * 2 ^ ex <= v)%Q ->
  (v < inject_Z (mx + 1) * 2 ^ ex)%Q ->
  rounded_to prec g (binary_round_aux prec emax false mx ex lx) v /\
  (lx = loc_Exact -> mx mod 2 ^ (g - ex) = 0 ->
   (SF2Q (binary_round_aux prec emax false mx ex lx) == inject_Z mx * 2 ^ ex)%Q).
Proof.
  intros Hm g Hn Hlo Hhi Hv1 Hv2.
  destruct (binary_round_aux_faithful prec emax Hprec false mx ex lx Hm)
    as (m & e & k & Hr & Hd & He & Hk & Hk2 & Hd1 & Hex);
    try (fold g; lia).
  replace (Zdigits2 mx + ex - prec - ex) with (g - ex) in * by (unfold g; lia).
  replace (Zdigits2 mx + ex - prec) with g in * by reflexivity.
  set (n := g - ex) in *. set (m1 := mx / 2 ^ n) in *.
  assert (Hpn : 0 < 2 ^ n) by (apply Z.pow_pos_nonneg; unfold n; lia).
  assert (Hval : (SF2Q (binary_round_aux prec emax false mx ex lx)
                  == inject_Z k * 2 ^ g)%Q).
  { rewrite Hr, SF2Q_pos, <- Hk, inject_Z_mult.
    replace e with ((e - g) + g) at 1 by lia.
    rewrite pow2_add, (pow2_Z (e - g)) by lia. ring. }
  assert (Hg : (2 ^ g == inject_Z (2 ^ n) * 2 ^ ex)%Q).
  { replace g with (n + ex) by (unfold n; lia).
    rewrite pow2_add, pow2_Z by (unfold n; lia). reflexivity. }
  pose proof (pow2_pos ex) as Hpe.
  split.
  - exists m, e, k, m1. repeat split; try assumption.
    + pose proof (Zdigits2_bounds m1) as Hb. rewrite Hd1 in Hb.
      apply Hb. destruct (Z.eq_dec m1 0) as [E|E].
      * rewrite E in Hd1. cbn in Hd1. lia.
      * assert (0 <= m1) by (apply Z.div_pos; lia). lia.
    + rewrite Hg.
      assert (H : (m1 * 2 ^ n <= mx)%Z)
        by (rewrite Z.mul_comm; apply Z.mul_div_le; exact Hpn).
      rewrite Zle_Qle, inject_Z_mult in H. nra.
    + rewrite Hg.
      assert (H : (mx + 1 <= (m1 + 1) * 2 ^ n)%Z).
      { pose proof (Z.mul_succ_div_gt mx (2 ^ n) Hpn) as H.
        fold m1 in H. lia. }
      rewrite Zle_Qle, inject_Z_mult in H. nra.
  - intros Hl Hdiv. rewrite Hval, (Hex Hl Hdiv), Hg.
    pose proof (Z.div_mod mx (2 ^ n) ltac:(lia)) as Hdm.
    rewrite Hdiv, Z.add_0_r in Hdm. fold m1 in Hdm.
    assert (Hq : (inject_Z mx == inject_Z (2 ^ n) * inject_Z m1)%Q)
      by (rewrite <- inject_Z_mult, <- Hdm; reflexivity).
    rewrite Hq. ring.
Qed.

Lemma rounded_to_normal g x v lo hi :
  rounded_to prec g x v -> lo <= prec + g -> prec + g + 1 <= hi ->
  normal_pos prec lo hi x.
Proof.
  intros (m & e & k & m1 & -> & Hd & He & _) Hlo Hhi.
  exists m, e. repeat split; auto; lia.
Qed.

(** Conversion of a number whose mantissa has at most [prec] digits: exact. *)
Lemma binary_round_exact M E :
  let d := Zdigits2 (Zpos M) in
  d <= prec ->
  emin <= d + E - prec ->
  d + E + 1 <= emax ->
  normal_pos prec (d + E) (d + E + 1) (binary_round prec emax false M E) /\
  (SF2Q (binary_round prec emax false M E) == inject_Z (Zpos M) * 2 ^ E)%Q.
Proof.
  intros d Hd Hlo Hhi. unfold binary_round.
  change (Zpos (digits2_pos M)) with d.
  rewrite (fexp_normal prec emax (d + E)) by lia.
  destruct (shl_align_spec M E (d + E - prec)) as [-> Hpos].
  rewrite Z.min_r in * by lia.
  set (g := d + E - prec) in *.
  set (mz := (Zpos M * 2 ^ (E - g))%Z) in *.
  rewrite Z2Pos.id by exact Hpos.
  assert (Hdz : Zdigits2 mz = prec).
  { unfold mz. rewrite Zdigits2_mul_pow2 by (unfold g; lia).
    fold d. unfold g. lia. }
  destruct (round_aux_rounded_to mz g loc_Exact (inject_Z mz * 2 ^ g) Hpos)
    as [Hr Hex]; rewrite ?Hdz; try lia.
  - apply Qle_refl.
  - pose proof (pow2_pos g). rewrite inject_Z_plus.
    change (inject_Z 1) with 1%Q. nra.
  - rewrite Hdz in Hr, Hex.
    replace (prec + g - prec) with g in * by lia. split.
    + apply (rounded_to_normal g _ _ _ _ Hr); unfold g; lia.
    + rewrite Hex; [|reflexivity|].
      * unfold mz. rewrite inject_Z_mult.
        replace E with ((E - g) + g) at 2 by lia.
        rewrite pow2_add, (pow2_Z (E - g)) by (unfold g; lia). ring.
      * rewrite Z.sub_diag. apply Z.mod_1_r.
Qed.

(** Quotient of two positive normal numbers. *)
Lemma SFdiv_rounded_to a1 b1 a2 b2 x y :
  normal_pos prec a1 b1 x ->
  normal_pos prec a2 b2 y ->
  emin <= a1 - b2 - prec ->
  b1 - a2 + 3 <= emax ->
  exists g,
    a1 - b2 - prec <= g <= b1 - a2 + 1 - prec /\
    rounded_to prec g (SFdiv prec emax x y) (SF2Q x / SF2Q y).
Proof.
  intros (m1 & e1 & -> & Hd1 & Hr1) (m2 & e2 & -> & Hd2 & Hr2) Hlo Hhi.
  set (v := (SF2Q (S754_finite false m1 e1) / SF2Q (S754_finite false m2 e2))%Q).
  cbn [SFdiv xorb]. unfold SFdiv_core_binary.
  rewrite Hd1, Hd2.
  replace (prec + e1 - (prec + e2)) with (e1 - e2) by lia.
  rewrite (fexp_normal prec emax (e1 - e2)) by lia.
  rewrite Z.min_l by lia.
  replace (e1 - e2 - (e1 - e2 - prec)) with prec by lia.
  assert (Hs : match prec with
               | Zpos _ => Z.shiftl (Zpos m1) prec
               | 0 => Zpos m1
               | Zneg _ => 0
               end = Zpos m1 * 2 ^ prec).
  { clear -Hprec. destruct prec; try lia. apply Z.shiftl_mul_pow2. lia. }
  rewrite Hs. clear Hs.
  pose proof (Zdigits2_bounds (Zpos m1) ltac:(lia)) as [L1 U1].
  pose proof (Zdigits2_bounds (Zpos m2) ltac:(lia)) as [L2 U2].
  rewrite Hd1 in L1, U1. rewrite Hd2 in L2, U2.
  assert (Hp1 : 0 < 2 ^ (prec - 1)) by (apply Z.pow_pos_nonneg; lia).
  assert (Hp : 2 ^ prec = 2 * 2 ^ (prec - 1)).
  { replace prec with (Z.succ (prec - 1)) at 1 by lia.
    apply Z.pow_succ_r. lia. }
  pose proof (Z.div_eucl_eq (Zpos m1 * 2 ^ prec) (Zpos m2) ltac:(lia)) as Hq.
  pose proof (Z.mod_pos_bound (Zpos m1 * 2 ^ prec) (Zpos m2) ltac:(lia)) as Hrem.
  unfold Z.modulo in Hrem.
  destruct (Z.div_eucl (Zpos m1 * 2 ^ prec) (Zpos m2)) as [q r].
  assert (Hqlo : 2 ^ (prec - 1) <= q) by nia.
  assert (Hqhi : q < 2 ^ (prec + 1)).
  { replace (prec + 1) with (Z.succ prec) by lia.
    rewrite Z.pow_succ_r by lia. nia. }
  set (ex := e1 - e2 - prec).
  assert (Hv : (inject_Z q * 2 ^ ex <= v)%Q /\ (v < inject_Z (q + 1) * 2 ^ ex)%Q).
  { pose proof (pow2_pos e2) as P2. pose proof (pow2_pos (e1 - prec)) as Pa.
    assert (E1 : (2 ^ e1 == inject_Z (2 ^ prec) * 2 ^ (e1 - prec))%Q).
    { replace e1 with (prec + (e1 - prec)) at 1 by lia.
      rewrite pow2_add, pow2_Z by lia. reflexivity. }
    assert (E2 : (2 ^ ex * 2 ^ e2 == 2 ^ (e1 - prec))%Q).
    { rewrite <- pow2_add. unfold ex.
      replace (e1 - e2 - prec + e2) with (e1 - prec) by lia. reflexivity. }
    assert (Hm2 : (0 < inject_Z (Zpos m2))%Q)
      by (rewrite <- (Zlt_Qlt 0); lia).
    assert (HY : (0 < inject_Z (Zpos m2) * 2 ^ e2)%Q) by nra.
    assert (Hqq : (inject_Z (Zpos m1) * inject_Z (2 ^ prec)
                   == inject_Z (Zpos m2) * inject_Z q + inject_Z r)%Q)
      by (rewrite <- !inject_Z_mult, <- inject_Z_plus, Hq; reflexivity).
    assert (Hr0 : (0 <= inject_Z r)%Q) by (rewrite <- (Zle_Qle 0); lia).
    assert (Hr1' : (inject_Z r < inject_Z (Zpos m2))%Q)
      by (rewrite <- Zlt_Qlt; lia).
    unfold v. rewrite !SF2Q_pos. split.
    - apply Qle_shift_div_l; [exact HY|].
      rewrite E1.
      setoid_replace (inject_Z q * 2 ^ ex * (inject_Z (Zpos m2) * 2 ^ e2))%Q
        with (inject_Z (Zpos m2) * inject_Z q * 2 ^ (e1 - prec))%Q
        by (rewrite <- E2; ring).
      nra.
    - apply Qlt_shift_div_r; [exact HY|].
      rewrite E1, inject_Z_plus.
      setoid_replace ((inject_Z q + inject_Z 1) * 2 ^ ex
                      * (inject_Z (Zpos m2) * 2 ^ e2))%Q
        with ((inject_Z (Zpos m2) * inject_Z q + inject_Z (Zpos m2))
              * 2 ^ (e1 - prec))%Q
        by (rewrite <- E2; change (inject_Z 1) with 1%Q; ring).
      nra. }
  destruct Hv as [Hv1 Hv2].
  destruct (digits_between q prec Hprec (conj Hqlo Hqhi)) as [Hdq|Hdq].
  - exists ex.
    destruct (round_aux_rounded_to q ex (new_location (Zpos m2) r) v)
      as [Hr _]; rewrite ?Hdq; unfold ex in *; try lia; try assumption.
    rewrite Hdq in Hr.
    replace (prec + (e1 - e2 - prec) - prec) with (e1 - e2 - prec) in Hr by lia.
    split; [lia | exact Hr].
  - exists (ex + 1).
    destruct (round_aux_rounded_to q ex (new_location (Zpos m2) r) v)
      as [Hr _]; rewrite ?Hdq; unfold ex in *; try lia; try assumption.
    rewrite Hdq in Hr.
    replace (prec + 1 + (e1 - e2 - prec) - prec) with (e1 - e2 - prec + 1)
      in Hr by lia.
    split; [lia | exact Hr].
Qed.

(** Product with a power of two: exact. *)
Lemma SFmul_pow2_exact mc ec a b y :
  Zpos mc = 2 ^ (prec - 1) ->
  normal_pos prec a b y ->
  emin <= a + ec - 1 ->
  b + prec + ec <= emax ->
  normal_pos prec (a + prec + ec - 1) (b + prec + ec)
    (SFmul prec emax (S754_finite false mc ec) y) /\
  (SF2Q (SFmul prec emax (S754_finite false mc ec) y)
   == SF2Q (S754_finite false mc ec) * SF2Q y)%Q.
Proof.
  intros Hmc (m & e & -> & Hd & Hr) Hlo Hhi.
  cbn [SFmul xorb]. rewrite Pos2Z.inj_mul, Hmc.
  set (mx := 2 ^ (prec - 1) * Zpos m).
  assert (Hp1 : 0 < 2 ^ (prec - 1)) by (apply Z.pow_pos_nonneg; lia).
  assert (Hmx : 0 < mx) by (unfold mx; lia).
  assert (Hdx : Zdigits2 mx = 2 * prec - 1).
  { unfold mx. rewrite Z.mul_comm, Zdigits2_mul_pow2 by lia. lia. }
  destruct (round_aux_rounded_to mx (ec + e) loc_Exact
              (inject_Z mx * 2 ^ (ec + e)) Hmx)
    as [Hrt Hex]; rewrite ?Hdx; try lia.
  - apply Qle_refl.
  - pose proof (pow2_pos (ec + e)). rewrite inject_Z_plus.
    change (inject_Z 1) with 1%Q. nra.
  - rewrite Hdx in Hrt, Hex.
    replace (2 * prec - 1 + (ec + e) - prec) with (prec - 1 + ec + e)
      in Hrt, Hex by lia.
    split.
    + apply (rounded_to_normal _ _ _ _ _ Hrt); lia.
    + rewrite Hex; [|reflexivity|].
      * rewrite !SF2Q_pos, Hmc. unfold mx.
        rewrite inject_Z_mult, pow2_add. ring.
      * replace (prec - 1 + ec + e - (ec + e)) with (prec - 1) by lia.
        unfold mx. rewrite Z.mul_comm. apply Z.mod_mul. lia.
Qed.

(** Sum of two positive normal numbers. *)
Lemma SFadd_rounded_to a1 b1 a2 b2 x y :
  normal_pos prec a1 b1 x ->
  normal_pos prec a2 b2 y ->
  emin <= Z.max a1 a2 - prec ->
  Z.max b1 b2 + 3 <= emax ->
  exists g,
    Z.max a1 a2 - prec <= g <= Z.max b1 b2 + 1 - prec /\
    rounded_to prec g (SFadd prec emax x y) (SF2Q x + SF2Q y).
Proof.
  intros (m1 & e1 & -> & Hd1 & Hr1) (m2 & e2 & -> & Hd2 & Hr2) Hlo Hhi.
  set (v := (SF2Q (S754_finite false m1 e1) + SF2Q (S754_finite false m2 e2))%Q).
  cbn [SFadd cond_Zopp].
  set (ez := Z.min e1 e2).
  destruct (shl_align_spec m1 e1 ez) as [E1 P1].
  destruct (shl_align_spec m2 e2 ez) as [E2 P2].
  rewrite E1, E2. cbn [fst]. rewrite !Z2Pos.id by assumption.
  replace (Z.min e1 ez) with ez in * by (unfold ez; lia).
  replace (Z.min e2 ez) with ez in * by (unfold ez; lia).
  set (A := Zpos m1 * 2 ^ (e1 - ez)) in *.
  set (B := Zpos m2 * 2 ^ (e2 - ez)) in *.
  assert (HdA : Zdigits2 A = prec + (e1 - ez))
    by (unfold A; rewrite Zdigits2_mul_pow2; unfold ez; lia).
  assert (HdB : Zdigits2 B = prec + (e2 - ez))
    by (unfold B; rewrite Zdigits2_mul_pow2; unfold ez; lia).
  pose proof (Zdigits2_bounds A P1) as [LA UA].
  pose proof (Zdigits2_bounds B P2) as [LB UB].
  rewrite HdA in LA, UA. rewrite HdB in LB, UB.
  set (D := prec + (Z.max e1 e2 - ez)).
  assert (HD : 0 < D) by (unfold D, ez; lia).
  assert (HS : 2 ^ (D - 1) <= A + B < 2 ^ (D + 1)).
  { assert (MA : 2 ^ (prec + (e1 - ez)) <= 2 ^ D)
      by (apply Z.pow_le_mono_r; unfold D, ez; lia).
    assert (MB : 2 ^ (prec + (e2 - ez)) <= 2 ^ D)
      by (apply Z.pow_le_mono_r; unfold D, ez; lia).
    replace (D + 1) with (Z.succ D) by lia.
    rewrite Z.pow_succ_r by lia.
    split; [|lia].
    destruct (Z.max_spec e1 e2) as [[_ Em]|[_ Em]]; unfold D; rewrite Em.
    - replace (prec + (e2 - ez) - 1) with (prec + (e2 - ez - 1)) in * by lia.
      replace (prec + (e2 - ez) - 1) with (prec + (e2 - ez - 1)) by lia. lia.
    - replace (prec + (e1 - ez) - 1) with (prec + (e1 - ez - 1)) in * by lia.
      replace (prec + (e1 - ez) - 1) with (prec + (e1 - ez - 1)) by lia. lia. }
  assert (HSpos : 0 < A + B) by lia.
  assert (Hv : (v == inject_Z (A + B) * 2 ^ ez)%Q).
  { unfold v, A, B. rewrite !SF2Q_pos, inject_Z_plus, !inject_Z_mult.
    rewrite <- !pow2_Z by (unfold ez; lia).
    replace e1 with ((e1 - ez) + ez) at 1 by lia.
    replace e2 with ((e2 - ez) + ez) at 1 by lia.
    rewrite !pow2_add. ring. }
  destruct (A + B) as [|p|p] eqn:ES; try lia.
  cbn [binary_normalize]. unfold binary_round.
  change (Zpos (digits2_pos p)) with (Zdigits2 (Zpos p)).
  assert (Hdp : prec <= Zdigits2 (Zpos p)).
  { destruct (digits_between (Zpos p) D HD HS) as [-> | ->]; unfold D, ez; lia. }
  assert (Hdp' : Zdigits2 (Zpos p) <= D + 1).
  { destruct (digits_between (Zpos p) D HD HS) as [-> | ->]; lia. }
  assert (Hdp'' : D <= Zdigits2 (Zpos p)).
  { destruct (digits_between (Zpos p) D HD HS) as [-> | ->]; lia. }
  rewrite (fexp_normal prec emax (Zdigits2 (Zpos p) + ez))
    by (unfold D, ez in *; lia).
  destruct (shl_align_spec p ez (Zdigits2 (Zpos p) + ez - prec)) as [-> _].
  rewrite Z.min_l by lia. rewrite Z.sub_diag, Z.mul_1_r. cbn [Z.to_pos].
  exists (Zdigits2 (Zpos p) + ez - prec).
  destruct (round_aux_rounded_to (Zpos p) ez loc_Exact v ltac:(lia))
    as [Hrt _]; try (unfold D, ez in *; lia).
  - rewrite Hv. apply Qle_refl.
  - rewrite Hv. pose proof (pow2_pos ez). rewrite inject_Z_plus.
    change (inject_Z 1) with 1%Q. nra.
  - split; [unfold D, ez in *; lia | exact Hrt].
Qed.

End FaithfulRounding.

Section Grid.

Local Open Scope Q_scope.

(** A rounded value is not below a multiple of a coarser unit that the
    exact value is not below. *)
Lemma rounded_to_ge_grid prec g x v z g' :
  rounded_to prec g x v ->
  (g <= g')%Z ->
  inject_Z z * 2 ^ g' <= v ->
  inject_Z z * 2 ^ g' <= SF2Q x.
Proof.
  intros (m & e & k & m1 & _ & _ & _ & Hval & Hk & _ & Hlo & Hhi) Hg Hz.
  rewrite Hval.
  assert (E : 2 ^ g' == inject_Z (2 ^ (g' - g)) * 2 ^ g).
  { replace g' with ((g' - g) + g)%Z at 1 by lia.
    rewrite pow2_add, pow2_Z by lia. reflexivity. }
  pose proof (pow2_pos g) as Hp.
  rewrite E in *.
  assert (H : (z * 2 ^ (g' - g) < m1 + 1)%Z).
  { rewrite Zlt_Qlt, inject_Z_mult.
    apply (Qmult_lt_r _ _ (2 ^ g) Hp). lra. }
  assert (H' : (z * 2 ^ (g' - g) <= k)%Z) by lia.
  rewrite Zle_Qle, inject_Z_mult in H'. nra.
Qed.

Lemma rounded_to_bounds prec g x v :
  rounded_to prec g x v ->
  v - 2 ^ g < SF2Q x /\ SF2Q x <= v + 2 ^ g /\
  inject_Z (2 ^ (prec - 1)) * 2 ^ g <= v.
Proof.
  intros (m & e & k & m1 & _ & _ & _ & Hval & Hk & Hm1 & Hlo & Hhi).
  rewrite Hval. pose proof (pow2_pos g) as Hp.
  rewrite inject_Z_plus in Hhi. change (inject_Z 1) with 1 in Hhi.
  rewrite Zle_Qle in Hm1.
  destruct Hk as [-> | ->]; rewrite ?inject_Z_plus;
    change (inject_Z 1) with 1; repeat split; nra.
Qed.

End Grid.

Section NormalResults.

Variables prec emax : Z.
Hypothesis Hprec : 0 < prec.
Hypothesis Hemax : prec < emax.

Local Abbreviation emin := (SpecFloat.emin prec emax).

(** The quotient and the sum of two positive normal numbers are positive
    normal numbers. *)
Lemma SFdiv_normal a1 b1 a2 b2 x y :
  normal_pos prec a1 b1 x ->
  normal_pos prec a2 b2 y ->
  emin <= a1 - b2 - prec ->
  b1 - a2 + 3 <= emax ->
  normal_pos prec (a1 - b2) (b1 - a2 + 2) (SFdiv prec emax x y).
Proof.
  intros Hx Hy Hlo Hhi.
  destruct (SFdiv_rounded_to prec emax Hprec a1 b1 a2 b2 x y Hx Hy Hlo Hhi)
    as (g & Hg & Hr).
  apply (rounded_to_normal prec g _ _ _ _ Hr); lia.
Qed.

Lemma SFadd_normal a1 b1 a2 b2 x y :
  normal_pos prec a1 b1 x ->
  normal_pos prec a2 b2 y ->
  emin <= Z.max a1 a2 - prec ->
  Z.max b1 b2 + 3 <= emax ->
  normal_pos prec (Z.max a1 a2) (Z.max b1 b2 + 2) (SFadd prec emax x y).
Proof.
  intros Hx Hy Hlo Hhi.
  destruct (SFadd_rounded_to prec emax Hprec a1 b1 a2 b2 x y Hx Hy Hlo Hhi)
    as (g & Hg & Hr).
  apply (rounded_to_normal prec g _ _ _ _ Hr); lia.
Qed.

End NormalResults.

(** ** The conversion of readPressure *)

Section Conversion.

Lemma Zdigits2_below z k : 0 < z < 2 ^ k -> 1 <= Zdigits2 z <= k.
Proof.
  intros [Hz Hk]. pose proof (Zdigits2_pos z Hz) as Hd.
  pose proof (Zdigits2_bounds z Hz) as [Hlo _].
  split; [lia|].
  destruct (Z_lt_le_dec k (Zdigits2 z)) as [Hlt|]; [|assumption].
  exfalso.
  assert (2 ^ k <= 2 ^ (Zdigits2 z - 1)) by (apply Z.pow_le_mono_r; lia).
  lia.
Qed.

(** An unsigned integer of at most [k <= 100] bits converts to zero or to
    a positive normal number of magnitude at most [k + 1]. *)
Lemma of_Z_binary32 z k :
  0 <= z < 2 ^ k -> k <= 100 ->
  (z = 0 /\ of_Z binary32 z = S754_zero false) \/
  (0 < z /\ normal_pos 24 1 (k + 1) (of_Z binary32 z)).
Proof.
  intros Hz Hk. destruct (Z.eq_dec z 0) as [->|Hnz]; [left; auto|].
  right. split; [lia|].
  pose proof (Zdigits2_below z k ltac:(lia)) as Hd.
  unfold of_Z, of_scaled. cbn [fprec femax binary32].
  apply (normal_pos_weaken 24 (Zdigits2 z) (Zdigits2 z + 1)); try lia.
  apply binary_normalize_pos; unfold SpecFloat.emin; lia.
Qed.

Lemma is_finite_cases x :
  x = S754_zero false \/ (exists lo hi, normal_pos 24 lo hi x) ->
  is_finite x = true.
Proof.
  intros [-> | (lo & hi & H)]; [reflexivity|].
  now apply normal_pos_finite in H.
Qed.

(** The value of [psi] before the final product is finite. *)
Lemma psi_finite (n d p : Z) :
  is_u32 n -> is_u32 d -> d <> 0 -> is_u16 p ->
  is_finite
    (fadd binary32 (fdiv binary32 (of_Z binary32 n) (of_Z binary32 d))
          (of_Z binary32 p)) = true.
Proof.
  unfold is_u32, is_u16. intros Hn Hd Hd0 Hp.
  destruct (of_Z_binary32 d 32 Hd ltac:(lia)) as [[E _]|[_ Nd]]; [lia|].
  assert (Hq : fdiv binary32 (of_Z binary32 n) (of_Z binary32 d)
               = S754_zero false \/
               normal_pos 24 (-32) 34
                 (fdiv binary32 (of_Z binary32 n) (of_Z binary32 d))).
  { destruct (of_Z_binary32 n 32 Hn ltac:(lia)) as [[_ ->]|[_ Nn]].
    - left. destruct Nd as (m & e & -> & _). reflexivity.
    - right. unfold fdiv. cbn [fprec femax binary32].
      apply SFdiv_normal with (a1 := 1) (b1 := 33) (a2 := 1) (b2 := 33);
        auto; unfold SpecFloat.emin; lia. }
  apply is_finite_cases.
  destruct (of_Z_binary32 p 16 Hp ltac:(lia)) as [[_ ->]|[_ Np]];
    destruct Hq as [-> | Nq].
  - left. reflexivity.
  - right. exists (-32), 34.
    destruct Nq as (m & e & -> & H). cbn. exists m, e. auto.
  - right. exists 1, 17.
    destruct Np as (m & e & -> & H). cbn. exists m, e. auto.
  - right. do 2 eexists. unfold fadd. cbn [fprec femax binary32].
    apply SFadd_normal with (a1 := -32) (b1 := 34) (a2 := 1) (b2 := 17);
      auto; unfold SpecFloat.emin; lia.
Qed.

Lemma pressure_of_raw_not_nan P s raw_psi :
  well_formed s ->
  raw_psi <> 0xFFFFFFFF ->
  _OUTPUT_max s <> _OUTPUT_min s ->
  is_finite (_K s) = true ->
  is_nan (pressure_of_raw P s raw_psi) = false.
Proof.
  intros (_ & _ & _ & Hpmin & _ & Homin & Homax) Hraw Hcurve HK.
  unfold pressure_of_raw.
  destruct (Z.eqb_spec raw_psi 0xFFFFFFFF) as [E|_]; [contradiction|].
  destruct (Z.eqb_spec (_OUTPUT_min s) (_OUTPUT_max s)) as [E|_];
    [congruence|].
  cbn [orb]. unfold fmul. cbn [fprec femax binary32].
  apply SFmul_not_nan; try lia; try exact HK.
  apply psi_finite; try apply u32_range; try assumption.
  unfold is_u32, u32, wrap in *. change (2 ^ 32) with 4294967296 in *.
  intros E.
  pose proof (Z.div_mod (_OUTPUT_max s - _OUTPUT_min s) 4294967296
                ltac:(lia)) as Hdm.
  rewrite E in Hdm. lia.
Qed.

End Conversion.

Section ReadPressure.

(** readData changes nothing of the object but [lastStatus]. *)
Lemma readData_object fuel s w r s' w' :
  readData fuel s w = Done r s' w' ->
  s' = set_lastStatus (lastStatus s') s.
Proof.
  intros H. run. destruct (i2c_dev s) eqn:Hdev; [|discriminate].
  match type of H with
  | match ?m with _ => _ end = _ => destruct m as [ready s1 w1| |] eqn:Hwait
  end; try discriminate.
  apply wait_ready_inv in Hwait. run.
  destruct Hwait as (_ & Hdev1 & _ & Hpin & Hpoll).
  assert (Hs1 : s1 = set_lastStatus (lastStatus s1) s).
  { destruct (Z.eq_dec (_eoc s) (-1)) as [E|E].
    - destruct (Hpoll E) as [_ ->]. reflexivity.
    - destruct (Hpin E) as [-> _]. destruct s; reflexivity. }
  destruct ready; cbn [negb] in H.
  - rewrite Hdev1, Hdev in H. run. injection H as _ <- _. exact Hs1.
  - injection H as _ <- _. exact Hs1.
Qed.

Lemma readPressure_inv P fuel s w x s' w' :
  readPressure P fuel s w = Done x s' w' ->
  exists raw_psi,
    readData fuel s w = Done raw_psi s' w' /\
    x = pressure_of_raw P s' raw_psi.
Proof.
  unfold readPressure, bind, this, ret.
  destruct (readData fuel s w) as [r s1 w1| |]; try discriminate.
  intros H. injection H as <- <- <-. exists r. auto.
Qed.

Lemma pressure_of_raw_lastStatus P v s raw_psi :
  pressure_of_raw P (set_lastStatus v s) raw_psi = pressure_of_raw P s raw_psi.
Proof. reflexivity. Qed.

End ReadPressure.

(** The default scale factor: the literal 68.947572932 is a [double], the
    quotient of 68947572932 by 10^9 rounded once, and [PSI_to_HPA] is that
    [double] converted to [float].  It is within half a unit in the last
    place (2^-18) of the decimal number. *)
Lemma PSI_to_HPA_literal :
  PSI_to_HPA
  = fconv binary32
      (fdiv binary64 (of_Z binary64 68947572932) (of_Z binary64 1000000000)) /\
  (SF2Q PSI_to_HPA - (68947572932 # 1000000000) <= 1 # 262144)%Q /\
  ((68947572932 # 1000000000) - SF2Q PSI_to_HPA <= 1 # 262144)%Q.
Proof. repeat split; vm_compute; (reflexivity || discriminate). Qed.

Section Constructor.

Lemma to_uint32_range P x : is_u32 (to_uint32 P x).
Proof.
  unfold to_uint32.
  destruct (trunc x) as [t|]; [|apply u32_range].
  destruct ((0 <=? t) && (t <? 2 ^ 32)) eqn:E; [|apply u32_range].
  apply andb_true_iff in E. destruct E as [E1 E2].
  apply Z.leb_le in E1. apply Z.ltb_lt in E2. split; assumption.
Qed.

(** The constructor establishes the invariant, given arguments of the
    declared types. *)
Lemma Adafruit_MPRLS_new_well_formed P junk reset_pin EOC_pin PSI_min PSI_max
      OUTPUT_min OUTPUT_max K :
  -128 <= reset_pin < 128 -> -128 <= EOC_pin < 128 ->
  is_u16 PSI_min -> is_u16 PSI_max ->
  well_formed (Adafruit_MPRLS_new P junk reset_pin EOC_pin PSI_min PSI_max
                 OUTPUT_min OUTPUT_max K).
Proof.
  intros Hr He Hmin Hmax. unfold well_formed, Adafruit_MPRLS_new.
  cbn [lastStatus _reset _eoc _PSI_min _PSI_max _OUTPUT_min _OUTPUT_max].
  repeat split; try apply u8_range; try apply to_uint32_range;
    try apply Hr; try apply He; try apply Hmin; try apply Hmax.
Qed.

Lemma set_i2c_dev_well_formed d s :
  well_formed s -> well_formed (set_i2c_dev d s).
Proof. intros H. exact H. Qed.

End Constructor.

Lemma sensor_polled_well_formed : well_formed Samples.sensor_polled.
Proof.
  apply set_i2c_dev_well_formed, Adafruit_MPRLS_new_well_formed;
    unfold is_u16; cbn; lia.
Qed.

Lemma whole_percentages_all (f : Z -> bool) :
  forallb f whole_percentages = true ->
  forall p, 0 <= p <= 100 -> f p = true.
Proof.
  intros H p Hp. rewrite forallb_forall in H. apply H.
  unfold whole_percentages. apply in_map_iff.
  exists (Z.to_nat p). split; [lia|]. apply in_seq. lia.
Qed.

(** ** The counts of the constructor where [double] is binary64 *)

Section Binary64Counts.

Local Open Scope Q_scope.

Lemma Qround_nonneg q : 0 <= q -> Qround q = Qfloor (q + (1 # 2)).
Proof.
  intros H. unfold Qround.
  destruct (Qle_bool 0 q) eqn:E; [reflexivity|].
  apply Qle_bool_iff in H. congruence.
Qed.

(** The gap between [X + 1/2] and the next integer, for [X = 2^24 P / 100]
    and [P = M 2^E] with a mantissa of at most 24 bits. *)
Lemma gap_above (M : positive) (E c : Z) (X : Q) :
  (Zpos M < 2 ^ 24)%Z ->
  X == inject_Z (2 ^ 24) * (inject_Z (Zpos M) * 2 ^ E) / 100 ->
  X + (1 # 2) < inject_Z (c + 1) ->
  (0 <= c)%Z ->
  X + (1 # 2) + (1 # 2 ^ 25) <= inject_Z (c + 1).
Proof.
  intros HM HX Hc Hc0.
  pose proof (pow2_pos E) as HpE.
  assert (HM' : inject_Z (Zpos M) < inject_Z (2 ^ 24))
    by (rewrite <- Zlt_Qlt; exact HM).
  assert (HM0 : 0 < inject_Z (Zpos M)) by (rewrite <- (Zlt_Qlt 0); lia).
  rewrite inject_Z_plus in *. change (inject_Z 1) with 1 in *.
  destruct (Z_le_gt_dec (-25) E) as [HE|HE].
  - (* 200 (X + 1/2) is an integer *)
    assert (E1 : 2 ^ E == inject_Z (2 ^ (E + 25)) * (1 # 2 ^ 25)).
    { rewrite <- pow2_Z by lia. 
      change (1 # 2 ^ 25) with (2 ^ (-25)). rewrite <- pow2_add.
      replace (E + 25 + -25)%Z with E by lia. reflexivity. }
    set (K := (Zpos M * 2 ^ (E + 25))%Z).
    assert (HK : 200 * (X + (1 # 2)) == inject_Z (K + 100)).
    { unfold K. rewrite inject_Z_plus, inject_Z_mult, HX, E1.
      change (inject_Z (2 ^ 24)) with (16777216 # 1).
      change (inject_Z 100) with 100.
      change (1 # 2 ^ 25) with (1 # 33554432). field. }
    assert (HW : (K + 100 < 200 * (c + 1))%Z).
    { rewrite Zlt_Qlt, <- HK, inject_Z_mult, inject_Z_plus.
      change (inject_Z 200) with 200. change (inject_Z 1) with 1. lra. }
    assert (HW' : (K + 100 + 1 <= 200 * (c + 1))%Z) by lia.
    rewrite Zle_Qle, inject_Z_mult, !inject_Z_plus in HW'.
    rewrite inject_Z_plus in HK.
    change (inject_Z 200) with 200 in HW'. change (inject_Z 1) with 1 in HW'.
    change (inject_Z 100) with 100 in HW', HK.
    change (1 # 2 ^ 25) with (1 # 33554432). lra.
  - destruct (Z_le_gt_dec (-42) E) as [HE'|HE'].
    + (* 200 * 2^j * (X + 1/2) is an integer, j = -25 - E <= 17 *)
      set (j := (-25 - E)%Z).
      assert (Hj : (1 <= j <= 17)%Z) by (unfold j; lia).
      assert (E1 : inject_Z (2 ^ j) * 2 ^ E == 1 # 2 ^ 25).
      { rewrite <- pow2_Z by lia. rewrite <- pow2_add.
        replace (j + E)%Z with (-25)%Z by (unfold j; lia). reflexivity. }
      assert (Hpj : (0 < 2 ^ j)%Z) by (apply Z.pow_pos_nonneg; lia).
      assert (Hpj' : (2 ^ j <= 2 ^ 17)%Z) by (apply Z.pow_le_mono_r; lia).
      set (J := inject_Z (2 ^ j)) in *.
      assert (HJ0 : 0 < J) by (unfold J; rewrite <- (Zlt_Qlt 0); lia).
      assert (HJ1 : J <= 131072)
        by (unfold J; change 131072 with (inject_Z (2 ^ 17));
            rewrite <- Zle_Qle; lia).
      assert (HK : 200 * J * (X + (1 # 2))
                   == inject_Z (Zpos M + 100 * 2 ^ j)).
      { rewrite inject_Z_plus, inject_Z_mult. fold J.
        change (inject_Z 100) with 100.
        setoid_replace (200 * J * (X + (1 # 2)))
          with (200 * X * J + 100 * J) by ring.
        rewrite HX.
        setoid_replace (200 * (inject_Z (2 ^ 24) * (inject_Z (Zpos M) * 2 ^ E) / 100) * J)
          with (2 * inject_Z (2 ^ 24) * inject_Z (Zpos M) * (J * 2 ^ E))
          by field.
        rewrite E1. change (inject_Z (2 ^ 24)) with (16777216 # 1).
        change (1 # 2 ^ 25) with (1 # 33554432). field. }
      assert (HW : (Zpos M + 100 * 2 ^ j < 200 * 2 ^ j * (c + 1))%Z).
      { rewrite Zlt_Qlt, <- HK, !inject_Z_mult, inject_Z_plus. fold J.
        change (inject_Z 200) with 200. change (inject_Z 1) with 1. nra. }
      assert (HW' : (Zpos M + 100 * 2 ^ j + 1 <= 200 * 2 ^ j * (c + 1))%Z) by lia.
      rewrite Zle_Qle, !inject_Z_mult, !inject_Z_plus, !inject_Z_mult in HW'.
      rewrite inject_Z_plus, inject_Z_mult in HK. fold J in HW', HK.
      change (inject_Z 200) with 200 in HW'. change (inject_Z 1) with 1 in HW'.
      change (inject_Z 100) with 100 in HW', HK.
      change (1 # 2 ^ 25) with (1 # 33554432). nra.
    + (* X is below 1/3 *)
      assert (HpE' : 2 ^ E <= 2 ^ (-43)) by (apply pow2_le; lia).
      change (2 ^ (-43)) with (1 # 8796093022208) in HpE'.
      change (inject_Z (2 ^ 24)) with (16777216 # 1) in *.
      assert (HX' : X <= 1 # 3).
      { rewrite HX. apply Qle_shift_div_r; [reflexivity|]. nra. }
      assert (Hc1 : inject_Z 0 <= inject_Z c) by (rewrite <- Zle_Qle; exact Hc0).
      change (inject_Z 0) with 0 in Hc1.
      change (1 # 2 ^ 25) with (1 # 33554432). lra.
Qed.

Lemma double_constants :
  fconv binary64 (of_Z binary32 COUNTS_224)
    = S754_finite false 4503599627370496 (-28) /\
  of_Z binary64 100 = S754_finite false 7036874417766400 (-46) /\
  of_scaled binary64 1 (-1) = S754_finite false 4503599627370496 (-53).
Proof. repeat split; vm_compute; reflexivity. Qed.

(** The magnitude of a number that is at most 100. *)
Lemma magnitude_le_100 (M : positive) (E : Z) :
  inject_Z (Zpos M) * 2 ^ E <= 100 -> (Zdigits2 (Zpos M) + E <= 7)%Z.
Proof.
  intros H.
  pose proof (Zdigits2_bounds (Zpos M) ltac:(lia)) as [Hlo _].
  pose proof (Zdigits2_pos (Zpos M) ltac:(lia)) as Hd.
  set (d := Zdigits2 (Zpos M)) in *.
  assert (H1 : 2 ^ (d - 1 + E) <= inject_Z (Zpos M) * 2 ^ E).
  { rewrite pow2_add, pow2_Z by lia.
    rewrite Zle_Qle in Hlo. pose proof (pow2_pos E). nra. }
  assert (H2 : 2 ^ (d - 1 + E) < 2 ^ 7).
  { change (2 ^ 7) with 128. lra. }
  apply pow2_lt_inv in H2. lia.
Qed.

Lemma output_counts_binary64_pos undef (M : positive) (E : Z) :
  (Zdigits2 (Zpos M) <= 24)%Z ->
  (-149 <= E)%Z ->
  inject_Z (Zpos M) * 2 ^ E <= 100 ->
  output_counts (ilp32 undef) (S754_finite false M E)
  = round_counts (SF2Q (S754_finite false M E)).
Proof.
  intros Hd HE H100.
  pose proof (magnitude_le_100 M E H100) as Hmag.
  pose proof (Zdigits2_pos (Zpos M) ltac:(lia)) as Hd0.
  pose proof (SF2Q_pos M E) as HP.
  set (P := SF2Q (S754_finite false M E)) in *.
  assert (HP0 : 0 < P).
  { rewrite HP. pose proof (pow2_pos E).
    assert (0 < inject_Z (Zpos M)) by (rewrite <- (Zlt_Qlt 0); lia). nra. }
  assert (HP1 : P <= 100) by (rewrite HP; exact H100).
  unfold output_counts. cbn [double_format ilp32].
  destruct double_constants as (-> & -> & ->).
  unfold fadd, fmul, fdiv, fconv. cbn [fprec femax binary64].
  set (h := S754_finite false 7036874417766400 (-46)).
  set (c := S754_finite false 4503599627370496 (-28)).
  set (half := S754_finite false 4503599627370496 (-53)).
  (* the percentage as a double *)
  destruct (binary_round_exact 53 1024 ltac:(lia) M E)
    as [Npd Vpd]; try (unfold SpecFloat.emin; lia).
  fold P in Vpd. rewrite <- HP in Vpd.
  set (pd := binary_round 53 1024 false M E) in *.
  apply (normal_pos_weaken 53 _ _ (-148) 8) in Npd; try lia.
  assert (Nh : normal_pos 53 7 7 h).
  { exists 7036874417766400%positive, (-46)%Z. repeat split; try reflexivity; lia. }
  assert (Vh : SF2Q h == 100) by reflexivity.
  (* the quotient *)
  destruct (SFdiv_rounded_to 53 1024 ltac:(lia) (-148) 8 7 7 pd h Npd Nh)
    as (gd & Hgd & Rd); try (unfold SpecFloat.emin; lia).
  set (d := SFdiv 53 1024 pd h) in *.
  pose proof (rounded_to_bounds _ _ _ _ Rd) as (Bd1 & Bd2 & Bd3).
  pose proof (rounded_to_normal 53 gd d _ (-155) 3 Rd
                ltac:(lia) ltac:(lia)) as Nd.
  (* the product *)
  destruct (SFmul_pow2_exact 53 1024 ltac:(lia)
              4503599627370496 (-28) (-155) 3 d eq_refl Nd)
    as [Nx Vx]; try (unfold SpecFloat.emin; lia).
  fold c in Nx, Vx.
  assert (Vc : SF2Q c == 16777216) by reflexivity.
  set (x := SFmul 53 1024 c d) in *.
  assert (Nhalf : normal_pos 53 0 0 half).
  { exists 4503599627370496%positive, (-53)%Z.
    repeat split; try reflexivity; lia. }
  assert (Vhalf : SF2Q half == 1 # 2) by reflexivity.
  (* the sum *)
  destruct (SFadd_rounded_to 53 1024 ltac:(lia) _ _ _ _ x half Nx Nhalf)
    as (gy & Hgy & Ry); try (unfold SpecFloat.emin; lia).
  set (y := SFadd 53 1024 x half) in *.
  pose proof (rounded_to_bounds _ _ _ _ Ry) as (By1 & By2 & By3).
  (* the count of the specification *)
  unfold round_counts. fold P.
  set (X := inject_Z (2 ^ 24) * (P / inject_Z 100)).
  assert (HX : X == 16777216 * (P / 100)) by reflexivity.
  assert (HX0 : 0 <= X).
  { rewrite HX. apply Qmult_le_0_compat; [discriminate|].
    apply Qle_shift_div_l; [reflexivity|]. lra. }
  assert (HX1 : X <= 16777216).
  { rewrite HX.
    assert (P / 100 <= 1) by (apply Qle_shift_div_r; [reflexivity|]; lra).
    lra. }
  rewrite (Qround_nonneg X HX0).
  set (cs := Qfloor (X + (1 # 2))).
  pose proof (Qfloor_le (X + (1 # 2))) as Hc1.
  pose proof (Qlt_floor (X + (1 # 2))) as Hc2.
  fold cs in Hc1, Hc2.
  assert (Hcs0 : (0 <= cs)%Z).
  { change 0%Z with (Qfloor 0). apply Qfloor_resp_le. lra. }
  assert (Hcs1 : (cs < 2 ^ 32)%Z).
  { rewrite Zlt_Qlt. change (inject_Z (2 ^ 32)) with 4294967296. lra. }
  assert (Hgap : X + (1 # 2) + (1 # 2 ^ 25) <= inject_Z (cs + 1)).
  { apply (gap_above M E cs X); try assumption.
    - pose proof (Zdigits2_bounds (Zpos M) ltac:(lia)) as [_ Hhi].
      assert (2 ^ Zdigits2 (Zpos M) <= 2 ^ 24)%Z
        by (apply Z.pow_le_mono_r; lia).
      lia.
    - unfold X. rewrite HP. change (inject_Z 100) with 100. field. }
  change (1 # 2 ^ 25) with (1 # 33554432) in Hgap.
  rewrite inject_Z_plus in Hgap, Hc2. change (inject_Z 1) with 1 in Hgap, Hc2.
  rewrite Vpd, Vh in Bd1, Bd2, Bd3.
  rewrite Vx, Vc, Vhalf in By1, By2, By3.
  change (inject_Z (2 ^ (53 - 1))) with 4503599627370496 in Bd3, By3.
  assert (HT : P / 100 == X / 16777216) by (rewrite HX; field).
  pose proof (pow2_pos gd) as Hpd. pose proof (pow2_pos gy) as Hpy.
  (* not below the count *)
  assert (Glo : inject_Z cs <= SF2Q y).
  { assert (Hz : inject_Z (2 * cs - 1) == 2 * inject_Z cs - 1).
    { unfold Z.sub. rewrite inject_Z_plus, inject_Z_mult. cbn [Z.opp].
      change (inject_Z 2) with 2. change (inject_Z (-1)) with (-1). ring. }
    assert (G1 : inject_Z (2 * cs - 1) * 2 ^ (-25) <= SF2Q d).
    { apply (rounded_to_ge_grid 53 gd d _ _ _ Rd); [lia|].
      rewrite Vpd, Vh, HT, Hz.
      change (2 ^ (-25)) with (1 # 33554432). lra. }
    rewrite Hz in G1.
    change (2 ^ (-25)) with (1 # 33554432) in G1.
    assert (G2 : inject_Z cs * 2 ^ 0 <= SF2Q y).
    { apply (rounded_to_ge_grid 53 gy y _ _ _ Ry); [lia|].
      rewrite Vx, Vc, Vhalf. change (2 ^ 0) with 1. lra. }
    change (2 ^ 0) with 1 in G2. lra. }
  (* below the next one *)
  assert (Ghi : SF2Q y < inject_Z (cs + 1)).
  { rewrite inject_Z_plus. change (inject_Z 1) with 1. lra. }
  (* the conversion to uint32_t *)
  destruct Ry as (my & ey & _ & _ & Ey & _).
  unfold to_uint32. rewrite Ey, trunc_floor. rewrite <- Ey.
  rewrite (Qfloor_unique (SF2Q y) cs Glo Ghi).
  replace ((0 <=? cs)%Z && (cs <? 2 ^ 32)%Z) with true; [reflexivity|].
  symmetry. apply andb_true_iff. split; [apply Z.leb_le | apply Z.ltb_lt]; lia.
Qed.

(** A valid [float] has a mantissa of at most 24 bits and an exponent of
    at least -149. *)
Lemma valid_binary32 s M E :
  valid_binary 24 128 (S754_finite s M E) = true ->
  (Zdigits2 (Zpos M) <= 24)%Z /\ (-149 <= E)%Z.
Proof.
  cbn [valid_binary]. unfold bounded, canonical_mantissa, SpecFloat.fexp.
  intros H. apply andb_true_iff in H. destruct H as [H _].
  apply Z.eqb_eq in H. change (Zpos (digits2_pos M)) with (Zdigits2 (Zpos M)) in H.
  change (SpecFloat.emin 24 128) with (-149)%Z in H. lia.
Qed.

Lemma output_counts_binary64 undef pct :
  is_finite pct = true ->
  valid_binary 24 128 pct = true ->
  0 <= SF2Q pct <= 100 ->
  output_counts (ilp32 undef) pct = round_counts (SF2Q pct).
Proof.
  intros Hfin Hvalid [H0 H100].
  destruct pct as [s|s| |s M E]; try discriminate.
  - destruct s; vm_compute; reflexivity.
  - destruct (valid_binary32 s M E Hvalid) as [Hd HE].
    destruct s.
    + exfalso. rewrite SF2Q_finite in H0.
      pose proof (pow2_pos E).
      assert (0 < inject_Z (Zpos M)) by (rewrite <- (Zlt_Qlt 0); lia).
      nra.
    + apply output_counts_binary64_pos; try assumption.
      rewrite <- SF2Q_pos. exact H100.
Qed.

End Binary64Counts.

(** * The calls return *)

Section Liveness.

(** Whatever the pin shows, the loop is left by the [k]-th reading of the
    clock that shows the timeout exceeded. *)
Lemma wait_eoc_returns k : forall fuel t s w,
  (k < fuel)%nat ->
  (forall j, (j < k)%nat ->
     u32 (u32 (millis_tape w (millis_calls w + j)) - t) <= MPRLS_READ_TIMEOUT) ->
  u32 (u32 (millis_tape w (millis_calls w + k)) - t) > MPRLS_READ_TIMEOUT ->
  exists b w', wait_eoc fuel t s w = Done b s w' /\
               (millis_calls w' <= millis_calls w + k + 1)%nat.
Proof.
  induction k as [|k IH]; intros fuel t s w Hfuel Hbefore Hafter;
    (destruct fuel as [|fuel]; [lia|]); cbn [wait_eoc]; run;
    (destruct (pin_tape w (_eoc s) (pin_reads w));
     [do 2 eexists; split; [reflexivity|]; run; lia|]); run.
  - rewrite Nat.add_0_r in Hafter.
    rewrite (gtb_true_of_gt _ _ Hafter).
    do 2 eexists; split; [reflexivity|]. run. lia.
  - pose proof (Hbefore O ltac:(lia)) as Hb0. rewrite Nat.add_0_r in Hb0.
    rewrite (gtb_false_of_le _ _ Hb0).
    edestruct (IH fuel t s) as (b & w' & Hrun & Hcalls);
      [| | | exists b, w'; split; [exact Hrun|]]; run.
    + lia.
    + intros j Hj.
      replace (S (millis_calls w) + j)%nat with (millis_calls w + S j)%nat by lia.
      apply Hbefore. lia.
    + replace (S (millis_calls w) + k)%nat with (millis_calls w + S k)%nat by lia.
      exact Hafter.
    + lia.
Qed.

Lemma wait_status_returns k : forall fuel t s w a,
  i2c_dev s = Some a ->
  (k < fuel)%nat ->
  (forall j, (j < k)%nat ->
     u32 (u32 (millis_tape w (millis_calls w + j)) - t) <= MPRLS_READ_TIMEOUT) ->
  u32 (u32 (millis_tape w (millis_calls w + k)) - t) > MPRLS_READ_TIMEOUT ->
  exists b s' w', wait_status fuel t s w = Done b s' w' /\
                  (millis_calls w' <= millis_calls w + k + 1)%nat.
Proof.
  induction k as [|k IH]; intros fuel t s w a Hdev Hfuel Hbefore Hafter;
    (destruct fuel as [|fuel]; [lia|]); cbn [wait_status]; run;
    rewrite Hdev; cbn [nth app rx_frame map seq skipn]; run;
    (destruct (Z.land (u8 (rx_tape w (rx_reads w) 0)) MPRLS_STATUS_BUSY =? 0);
     [do 3 eexists; split; [reflexivity|]; run; lia|]); run.
  - rewrite Nat.add_0_r in Hafter.
    rewrite (gtb_true_of_gt _ _ Hafter).
    do 3 eexists; split; [reflexivity|]. run. lia.
  - pose proof (Hbefore O ltac:(lia)) as Hb0. rewrite Nat.add_0_r in Hb0.
    rewrite (gtb_false_of_le _ _ Hb0).
    edestruct (IH fuel t) as (b & s' & w' & Hrun & Hcalls);
      [| | | | exists b, s', w'; split; [exact Hrun|]]; run.
    + exact Hdev.
    + lia.
    + intros j Hj.
      replace (S (millis_calls w) + j)%nat with (millis_calls w + S j)%nat by lia.
      apply Hbefore. lia.
    + replace (S (millis_calls w) + k)%nat with (millis_calls w + S k)%nat by lia.
      exact Hafter.
    + lia.
Qed.

(** The difference of two readings of the 32-bit clock is the time between
    them, wherever the counter wraps. *)
Lemma u32_difference t0 d :
  0 <= d < 2 ^ 32 -> u32 (u32 (t0 + d) - u32 t0) = d.
Proof.
  intros Hd. unfold u32, wrap.
  rewrite Zminus_mod_idemp_l, Zminus_mod_idemp_r.
  replace (t0 + d - t0) with d by lia. now apply Z.mod_small.
Qed.

End Liveness.

Section Returns.

(** Whatever the sensor does, readData returns once a reading of the clock
    shows the timeout exceeded. *)
Lemma readData_returns s w a k fuel :
  i2c_dev s = Some a ->
  (forall j, (j < k)%nat -> elapsed w j <= MPRLS_READ_TIMEOUT) ->
  elapsed w k > MPRLS_READ_TIMEOUT ->
  (k < fuel)%nat ->
  exists r s' w',
    readData fuel s w = Done r s' w' /\
    (millis_calls w' <= millis_calls w + k + 2)%nat.
Proof.
  intros Hdev Hbefore Hafter Hfuel. unfold elapsed in *.
  run. rewrite Hdev. run.
  destruct (negb (_eoc s =? -1)).
  - match goal with
    | |- context [wait_eoc ?f ?t ?s0 ?w0] =>
        destruct (wait_eoc_returns k f t s0 w0) as (b & w' & Hrun & Hc);
          [exact Hfuel | | | rewrite Hrun]
    end; run.
    + exact Hbefore.
    + exact Hafter.
    + destruct b; cbn [negb]; run.
      * rewrite Hdev. run. do 3 eexists. split; [reflexivity|]. run. lia.
      * do 3 eexists. split; [reflexivity|]. lia.
  - match goal with
    | |- context [wait_status ?f ?t ?s0 ?w0] =>
        destruct (wait_status_returns k f t s0 w0 a)
          as (b & s' & w' & Hrun & Hc);
          [exact Hdev | exact Hfuel | | | ]
    end; run.
    + exact Hbefore.
    + exact Hafter.
    + pose proof (wait_status_inv _ _ _ _ _ _ _ Hrun) as (_ & _ & Hs & _).
      rewrite Hrun. destruct b; cbn [negb]; run.
      * rewrite Hs. run. rewrite Hdev. run.
        do 3 eexists. split; [reflexivity|]. run. lia.
      * do 3 eexists. split; [reflexivity|]. lia.
Qed.

(** readPressure returns whenever readData does, with the conversion of
    its count. *)
Lemma readPressure_of_readData P fuel s w r s' w' :
  readData fuel s w = Done r s' w' ->
  readPressure P fuel s w = Done (pressure_of_raw P s r) s' w'.
Proof.
  intros H. unfold readPressure, bind, this, ret. rewrite H.
  rewrite (readData_object _ _ _ _ _ _ H), pressure_of_raw_lastStatus.
  rewrite <- (readData_object _ _ _ _ _ _ H). reflexivity.
Qed.

(** With a finite scale factor the conversion gives NaN for the sentinel
    and for a curve of two equal counts, and for nothing else. *)
Lemma pressure_of_raw_nan_iff P s r :
  well_formed s -> is_finite (_K s) = true ->
  is_nan (pressure_of_raw P s r) = true <->
  r = 0xFFFFFFFF \/ _OUTPUT_max s = _OUTPUT_min s.
Proof.
  intros Hwf HK. split.
  - intros Hnan.
    destruct (Z.eq_dec r 0xFFFFFFFF) as [E|E]; [left; exact E|].
    destruct (Z.eq_dec (_OUTPUT_max s) (_OUTPUT_min s)) as [E'|E'];
      [right; exact E'|].
    rewrite (pressure_of_raw_not_nan P s r Hwf E E' HK) in Hnan.
    discriminate.
  - intros [E | E]; unfold pressure_of_raw.
    + rewrite E. reflexivity.
    + rewrite E, Z.eqb_refl, orb_true_r. reflexivity.
Qed.

End Returns.

(** * Floating-point facts, continued *)

(** ** The accuracy of the conversion *)

Section MoreRounding.

Variables prec emax : Z.
Hypothesis Hprec : 0 < prec.

Local Abbreviation emin := (SpecFloat.emin prec emax).

(** Conversion of a number whose mantissa has [prec] digits or more. *)
Lemma binary_round_rounded_to M E :
  let d := Zdigits2 (Zpos M) in
  prec <= d ->
  emin <= d + E - prec ->
  d + E + 1 <= emax ->
  rounded_to prec (d + E - prec) (binary_round prec emax false M E)
    (inject_Z (Zpos M) * 2 ^ E).
Proof.
  intros d Hd Hlo Hhi. unfold binary_round.
  change (Zpos (digits2_pos M)) with d.
  rewrite (fexp_normal prec emax (d + E)) by lia.
  destruct (shl_align_spec M E (d + E - prec)) as [-> _].
  rewrite Z.min_l by lia. rewrite Z.sub_diag, Z.mul_1_r. cbn [Z.to_pos].
  destruct (round_aux_rounded_to prec emax Hprec (Zpos M) E loc_Exact
              (inject_Z (Zpos M) * 2 ^ E) ltac:(lia))
    as [Hrt _]; fold d; try lia.
  - apply Qle_refl.
  - pose proof (pow2_pos E). rewrite inject_Z_plus.
    change (inject_Z 1) with 1%Q. nra.
  - exact Hrt.
Qed.

(** Product of two positive normal numbers. *)
Lemma SFmul_rounded_to a1 b1 a2 b2 x y :
  normal_pos prec a1 b1 x ->
  normal_pos prec a2 b2 y ->
  emin <= a1 + a2 - 1 - prec ->
  b1 + b2 + 1 <= emax ->
  exists g,
    a1 + a2 - 1 - prec <= g <= b1 + b2 - prec /\
    rounded_to prec g (SFmul prec emax x y) (SF2Q x * SF2Q y).
Proof.
  intros (m1 & e1 & -> & Hd1 & Hr1) (m2 & e2 & -> & Hd2 & Hr2) Hlo Hhi.
  cbn [SFmul xorb]. rewrite Pos2Z.inj_mul.
  pose proof (Zdigits2_bounds (Zpos m1) ltac:(lia)) as [L1 U1].
  pose proof (Zdigits2_bounds (Zpos m2) ltac:(lia)) as [L2 U2].
  rewrite Hd1 in L1, U1. rewrite Hd2 in L2, U2.
  assert (Hp1 : 0 < 2 ^ (prec - 1)) by (apply Z.pow_pos_nonneg; lia).
  set (mx := Zpos m1 * Zpos m2).
  assert (Hmx : 0 < mx) by (unfold mx; lia).
  assert (Hb : 2 ^ (2 * prec - 1 - 1) <= mx < 2 ^ (2 * prec - 1 + 1)).
  { replace (2 * prec - 1 - 1) with ((prec - 1) + (prec - 1)) by lia.
    replace (2 * prec - 1 + 1) with (prec + prec) by lia.
    rewrite !Z.pow_add_r by lia. unfold mx. split; nia. }
  assert (Hv : (SF2Q (S754_finite false m1 e1) * SF2Q (S754_finite false m2 e2)
                == inject_Z mx * 2 ^ (e1 + e2))%Q).
  { rewrite !SF2Q_pos. unfold mx. rewrite inject_Z_mult, pow2_add. ring. }
  exists (Zdigits2 mx + (e1 + e2) - prec).
  destruct (digits_between mx (2 * prec - 1) ltac:(lia) Hb) as [Hdx|Hdx].
  - destruct (round_aux_rounded_to prec emax Hprec mx (e1 + e2) loc_Exact
                (inject_Z mx * 2 ^ (e1 + e2)) Hmx)
      as [Hrt _]; rewrite ?Hdx; try lia.
    + apply Qle_refl.
    + pose proof (pow2_pos (e1 + e2)). rewrite inject_Z_plus.
      change (inject_Z 1) with 1%Q. nra.
    + rewrite Hdx in Hrt. split; [lia|].
      destruct Hrt as (m & e & k & mm & H1 & H2 & H3 & H4 & H5 & H6 & H7 & H8).
      exists m, e, k, mm. rewrite Hv. repeat split; assumption.
  - destruct (round_aux_rounded_to prec emax Hprec mx (e1 + e2) loc_Exact
                (inject_Z mx * 2 ^ (e1 + e2)) Hmx)
      as [Hrt _]; rewrite ?Hdx; try lia.
    + apply Qle_refl.
    + pose proof (pow2_pos (e1 + e2)). rewrite inject_Z_plus.
      change (inject_Z 1) with 1%Q. nra.
    + rewrite Hdx in Hrt. split; [lia|].
      destruct Hrt as (m & e & k & mm & H1 & H2 & H3 & H4 & H5 & H6 & H7 & H8).
      exists m, e, k, mm. rewrite Hv. repeat split; assumption.
Qed.

End MoreRounding.

Section ErrorBounds.

Local Open Scope Q_scope.

(** A number rounded to 24 digits is within 2^-23 of the exact one,
    relatively. *)
Lemma rounded_to_24_rel g x v :
  rounded_to 24 g x v ->
  0 < v /\ (8388607 # 8388608) * v <= SF2Q x /\ SF2Q x <= (8388609 # 8388608) * v.
Proof.
  intros H. destruct (rounded_to_bounds _ _ _ _ H) as (H1 & H2 & H3).
  change (inject_Z (2 ^ (24 - 1))) with 8388608 in H3.
  pose proof (pow2_pos g). repeat split; lra.
Qed.

Lemma quotient_error X Y R vx vy :
  0 < vx -> 0 < vy ->
  (8388607 # 8388608) * vx <= X -> X <= (8388609 # 8388608) * vx ->
  (8388607 # 8388608) * vy <= Y -> Y <= (8388609 # 8388608) * vy ->
  (8388607 # 8388608) * (X / Y) <= R -> R <= (8388609 # 8388608) * (X / Y) ->
  (2097151 # 2097152) * (vx / vy) <= R /\ R <= (2097153 # 2097152) * (vx / vy).
Proof.
  intros Hvx Hvy HX1 HX2 HY1 HY2 HR1 HR2.
  assert (HY : 0 < Y) by lra.
  assert (HW : vx / vy * vy == vx) by (field; lra).
  assert (HQ : X / Y * Y == X) by (field; lra).
  set (W := vx / vy) in *. set (q := X / Y) in *.
  assert (HW0 : 0 < W).
  { unfold W. apply Qlt_shift_div_l; lra. }
  assert (Hq1 : (4194303 # 4194304) * W <= q).
  { destruct (Qlt_le_dec q ((4194303 # 4194304) * W)) as [Hc|]; [|assumption].
    exfalso.
    assert (M1 : 0 < ((4194303 # 4194304) * W - q) * Y)
      by (apply Qmult_lt_0_compat; lra).
    assert (M2 : 0 <= W * ((8388609 # 8388608) * vy - Y))
      by (apply Qmult_le_0_compat; lra).
    nra. }
  assert (Hq2 : q <= (16777221 # 16777216) * W).
  { destruct (Qlt_le_dec ((16777221 # 16777216) * W) q) as [Hc|]; [|assumption].
    exfalso.
    assert (M1 : 0 < (q - (16777221 # 16777216) * W) * Y)
      by (apply Qmult_lt_0_compat; lra).
    assert (M2 : 0 <= W * (Y - (8388607 # 8388608) * vy))
      by (apply Qmult_le_0_compat; lra).
    nra. }
  split; nra.
Qed.

Lemma sum_error X1 W Pv R :
  0 <= W -> 0 <= Pv ->
  (2097151 # 2097152) * W <= X1 -> X1 <= (2097153 # 2097152) * W ->
  (8388607 # 8388608) * (X1 + Pv) <= R -> R <= (8388609 # 8388608) * (X1 + Pv) ->
  (4194301 # 4194304) * (W + Pv) <= R /\ R <= (4194307 # 4194304) * (W + Pv).
Proof. intros. split; nra. Qed.

Lemma product_error X2 S Kv R :
  0 <= S -> 0 < Kv ->
  (4194301 # 4194304) * S <= X2 -> X2 <= (4194307 # 4194304) * S ->
  (8388607 # 8388608) * (X2 * Kv) <= R -> R <= (8388609 # 8388608) * (X2 * Kv) ->
  (1048575 # 1048576) * (S * Kv) <= R /\ R <= (1048577 # 1048576) * (S * Kv).
Proof.
  intros HS HK H1 H2 H3 H4.
  assert (A1 : (4194301 # 4194304) * (S * Kv) <= X2 * Kv) by nra.
  assert (A2 : X2 * Kv <= (4194307 # 4194304) * (S * Kv)) by nra.
  assert (A0 : 0 <= S * Kv) by nra.
  set (T := S * Kv) in *. set (Z := X2 * Kv) in *. split; lra.
Qed.

End ErrorBounds.

Section Accuracy.

Local Open Scope Q_scope.

(** The conversion of a positive integer of 32 bits to [float]. *)
Lemma of_Z_binary32_error z :
  (0 < z < 2 ^ 32)%Z ->
  normal_pos 24 1 33 (of_Z binary32 z) /\
  (8388607 # 8388608) * inject_Z z <= SF2Q (of_Z binary32 z) /\
  SF2Q (of_Z binary32 z) <= (8388609 # 8388608) * inject_Z z.
Proof.
  intros Hz. destruct z as [|M|M]; try lia.
  pose proof (Zdigits2_below (Zpos M) 32 Hz) as Hd.
  assert (H0 : 0 < inject_Z (Zpos M)) by (rewrite <- (Zlt_Qlt 0); lia).
  unfold of_Z, of_scaled. cbn [fprec femax binary32 binary_normalize].
  destruct (Z_le_gt_dec (Zdigits2 (Zpos M)) 24) as [Hs|Hl].
  - destruct (binary_round_exact 24 128 ltac:(lia) M 0) as [Hn Hv];
      try (unfold SpecFloat.emin; lia).
    split.
    + apply (normal_pos_weaken 24 _ _ _ _ _ Hn); lia.
    + rewrite Hv. change (2 ^ 0) with 1. split; lra.
  - pose proof (binary_round_rounded_to 24 128 ltac:(lia) M 0) as Hr.
    cbv zeta in Hr. specialize (Hr ltac:(lia)).
    specialize (Hr ltac:(unfold SpecFloat.emin; lia) ltac:(lia)).
    split.
    + apply (rounded_to_normal 24 _ _ _ _ _ Hr); lia.
    + destruct (rounded_to_24_rel _ _ _ Hr) as (_ & H1 & H2).
      change (2 ^ 0) with 1 in H1, H2. split; lra.
Qed.

(** The conversion of a positive integer of 16 bits to [float] is exact. *)
Lemma of_Z_binary32_exact z :
  (0 < z < 2 ^ 16)%Z ->
  normal_pos 24 1 17 (of_Z binary32 z) /\
  SF2Q (of_Z binary32 z) == inject_Z z.
Proof.
  intros Hz. destruct z as [|M|M]; try lia.
  pose proof (Zdigits2_below (Zpos M) 16 Hz) as Hd.
  unfold of_Z, of_scaled. cbn [fprec femax binary32 binary_normalize].
  destruct (binary_round_exact 24 128 ltac:(lia) M 0) as [Hn Hv];
    try (unfold SpecFloat.emin; lia).
  split.
  - apply (normal_pos_weaken 24 _ _ _ _ _ Hn); lia.
  - rewrite Hv. change (2 ^ 0) with 1. ring.
Qed.

(** The arithmetic of readPressure on a numerator [n], a denominator [d],
    an offset [p] and a scale factor [K]. *)
Lemma psi_accuracy (n d p : Z) (K : spec_float) :
  (0 <= n < 2 ^ 32)%Z -> (0 < d < 2 ^ 32)%Z -> (0 <= p < 2 ^ 16)%Z ->
  normal_pos 24 (-90) 90 K ->
  let x := fmul binary32
             (fadd binary32 (fdiv binary32 (of_Z binary32 n) (of_Z binary32 d))
                   (of_Z binary32 p)) K in
  let v := (inject_Z n / inject_Z d + inject_Z p) * SF2Q K in
  is_finite x = true /\
  (1048575 # 1048576) * v <= SF2Q x /\ SF2Q x <= (1048577 # 1048576) * v.
Proof.
  intros Hn Hd Hp HK x v.
  assert (HKv : 0 < SF2Q K).
  { destruct HK as (m & e & -> & _). rewrite SF2Q_pos.
    pose proof (pow2_pos e).
    assert (0 < inject_Z (Zpos m)) by (rewrite <- (Zlt_Qlt 0); lia). nra. }
  assert (Hd0 : 0 < inject_Z d) by (rewrite <- (Zlt_Qlt 0); lia).
  destruct (of_Z_binary32_error d Hd) as (Nd & Vd1 & Vd2).
  (* the sum before the product: zero, or a normal number near [n/d + p] *)
  set (y := fadd binary32 (fdiv binary32 (of_Z binary32 n) (of_Z binary32 d))
                 (of_Z binary32 p)) in *.
  set (S := inject_Z n / inject_Z d + inject_Z p) in *.
  assert (Hy : (y = S754_zero false /\ S == 0) \/
               (normal_pos 24 (-32) 36 y /\ 0 <= S /\
                (4194301 # 4194304) * S <= SF2Q y /\
                SF2Q y <= (4194307 # 4194304) * S)).
  { destruct (Z.eq_dec n 0) as [En|En]; destruct (Z.eq_dec p 0) as [Ep|Ep].
    - left. unfold y, S. rewrite En, Ep.
      destruct Nd as (md & ed & -> & _). split; [reflexivity|].
      change (inject_Z 0) with 0. field. lra.
    - right. destruct (of_Z_binary32_exact p ltac:(lia)) as (Np & Vp).
      assert (Ey : y = of_Z binary32 p).
      { unfold y. rewrite En. destruct Nd as (md & ed & -> & _).
        destruct Np as (mp & ep & -> & _). reflexivity. }
      assert (ES : S == inject_Z p).
      { unfold S. rewrite En. change (inject_Z 0) with 0. field. lra. }
      assert (Hp0 : 0 < inject_Z p) by (rewrite <- (Zlt_Qlt 0); lia).
      rewrite Ey, Vp, ES. split.
      + apply (normal_pos_weaken 24 _ _ _ _ _ Np); lia.
      + repeat split; lra.
    - right. destruct (of_Z_binary32_error n ltac:(lia)) as (Nn & Vn1 & Vn2).
      assert (Hn0 : 0 < inject_Z n) by (rewrite <- (Zlt_Qlt 0); lia).
      destruct (SFdiv_rounded_to 24 128 ltac:(lia) 1 33 1 33 _ _ Nn Nd)
        as (g & Hg & Rq); try (unfold SpecFloat.emin; lia).
      pose proof (rounded_to_normal 24 g _ _ (-32) 36 Rq ltac:(lia) ltac:(lia))
        as Nq.
      destruct (rounded_to_24_rel _ _ _ Rq) as (_ & Q1 & Q2).
      destruct (quotient_error _ _ _ (inject_Z n) (inject_Z d)
                  Hn0 Hd0 Vn1 Vn2 Vd1 Vd2 Q1 Q2) as [W1 W2].
      assert (Ey : y = fdiv binary32 (of_Z binary32 n) (of_Z binary32 d)).
      { unfold y. rewrite Ep. unfold fdiv. cbn [fprec femax binary32].
        destruct Nq as (mq & eq & -> & _). reflexivity. }
      assert (ES : S == inject_Z n / inject_Z d).
      { unfold S. rewrite Ep. change (inject_Z 0) with 0. ring. }
      assert (HW0 : 0 < inject_Z n / inject_Z d)
        by (apply Qlt_shift_div_l; lra).
      rewrite Ey, ES. unfold fdiv. cbn [fprec femax binary32].
      split; [exact Nq|]. repeat split; lra.
    - right. destruct (of_Z_binary32_error n ltac:(lia)) as (Nn & Vn1 & Vn2).
      assert (Hn0 : 0 < inject_Z n) by (rewrite <- (Zlt_Qlt 0); lia).
      destruct (SFdiv_rounded_to 24 128 ltac:(lia) 1 33 1 33 _ _ Nn Nd)
        as (g & Hg & Rq); try (unfold SpecFloat.emin; lia).
      pose proof (rounded_to_normal 24 g _ _ (-32) 34 Rq ltac:(lia) ltac:(lia))
        as Nq.
      destruct (rounded_to_24_rel _ _ _ Rq) as (_ & Q1 & Q2).
      destruct (quotient_error _ _ _ (inject_Z n) (inject_Z d)
                  Hn0 Hd0 Vn1 Vn2 Vd1 Vd2 Q1 Q2) as [W1 W2].
      destruct (of_Z_binary32_exact p ltac:(lia)) as (Np & Vp).
      assert (Hp0 : 0 < inject_Z p) by (rewrite <- (Zlt_Qlt 0); lia).
      assert (HW0 : 0 < inject_Z n / inject_Z d)
        by (apply Qlt_shift_div_l; lra).
      destruct (SFadd_rounded_to 24 128 ltac:(lia) (-32) 34 1 17 _ _ Nq Np)
        as (g' & Hg' & Rs); try (unfold SpecFloat.emin; lia).
      destruct (rounded_to_24_rel _ _ _ Rs) as (_ & S1 & S2).
      rewrite Vp in S1, S2.
      destruct (sum_error _ (inject_Z n / inject_Z d) (inject_Z p) _
                  ltac:(lra) ltac:(lra) W1 W2 S1 S2) as [T1 T2].
      split.
      + apply (rounded_to_normal 24 g' _ _ (-32) 36 Rs); lia.
      + unfold S. repeat split; try lra; assumption. }
  destruct Hy as [[Ey ES] | (Ny & HS0 & Y1 & Y2)].
  - assert (Ex : x = S754_zero false).
    { unfold x. rewrite Ey. destruct HK as (m & e & -> & _). reflexivity. }
    rewrite Ex. unfold v. rewrite ES. cbn [SF2Q is_finite].
    split; [reflexivity|]. split; lra.
  - destruct (SFmul_rounded_to 24 128 ltac:(lia) (-32) 36 (-90) 90 _ _ Ny HK)
      as (g & Hg & Rx); try (unfold SpecFloat.emin; lia).
    destruct (rounded_to_24_rel _ _ _ Rx) as (_ & X1 & X2).
    destruct (product_error _ S (SF2Q K) _ HS0 HKv Y1 Y2 X1 X2) as [Z1 Z2].
    split; [|split; assumption].
    apply (normal_pos_finite 24 (-200) 200).
    apply (rounded_to_normal 24 g _ _ _ _ Rx); lia.
Qed.

End Accuracy.

Section Range.

Local Open Scope Q_scope.

Lemma normal_pos_value prec lo hi x : normal_pos prec lo hi x -> 0 < SF2Q x.
Proof.
  intros (m & e & -> & _). rewrite SF2Q_pos. pose proof (pow2_pos e).
  assert (0 < inject_Z (Zpos m)) by (rewrite <- (Zlt_Qlt 0); lia). nra.
Qed.

(** Within the curve the interpolation lies between the two ends of the
    range. *)
Lemma interpolation_between s raw_psi :
  (_OUTPUT_min s <= raw_psi <= _OUTPUT_max s)%Z ->
  (_OUTPUT_min s < _OUTPUT_max s)%Z ->
  (_PSI_min s <= _PSI_max s)%Z ->
  0 < SF2Q (_K s) ->
  inject_Z (_PSI_min s) * SF2Q (_K s) <= interpolation s raw_psi /\
  interpolation s raw_psi <= inject_Z (_PSI_max s) * SF2Q (_K s).
Proof.
  intros Hraw Hcurve Hpsi HK. unfold interpolation.
  set (r := inject_Z (raw_psi - _OUTPUT_min s)).
  set (d := inject_Z (_OUTPUT_max s - _OUTPUT_min s)).
  assert (Hsp : inject_Z (_PSI_max s - _PSI_min s)
                == inject_Z (_PSI_max s) - inject_Z (_PSI_min s)).
  { unfold Z.sub. rewrite inject_Z_plus, inject_Z_opp. ring. }
  rewrite Hsp.
  assert (Hp : inject_Z (_PSI_min s) <= inject_Z (_PSI_max s))
    by (rewrite <- Zle_Qle; exact Hpsi).
  set (p := inject_Z (_PSI_min s)) in *. set (q := inject_Z (_PSI_max s)) in *.
  assert (Hr0 : 0 <= r) by (unfold r; rewrite <- (Zle_Qle 0); lia).
  assert (Hd0 : 0 < d) by (unfold d; rewrite <- (Zlt_Qlt 0); lia).
  assert (Hrd : r <= d) by (unfold r, d; rewrite <- Zle_Qle; lia).
  assert (E : r * (q - p) / d == (r / d) * (q - p)) by (field; lra).
  rewrite E.
  assert (H0 : 0 <= r / d) by (apply Qle_shift_div_l; lra).
  assert (H1 : r / d <= 1) by (apply Qle_shift_div_r; lra).
  set (f := r / d) in *.
  assert (A0 : 0 <= f * (q - p)) by (apply Qmult_le_0_compat; lra).
  assert (A1 : f * (q - p) <= q - p) by nra.
  set (A := f * (q - p)) in *.
  split; nra.
Qed.

End Range.

Section Span.

(** The span of the range is its width on every platform, when the range
    is in order. *)
Lemma psi_span_ordered P s :
  is_u16 (_PSI_min s) -> is_u16 (_PSI_max s) -> (_PSI_min s <= _PSI_max s)%Z ->
  psi_span P s = (_PSI_max s - _PSI_min s)%Z.
Proof.
  unfold is_u16. change (2 ^ 16)%Z with 65536%Z. intros Hmin Hmax Hle.
  unfold psi_span.
  destruct (int_bits P); unfold u32, u16, wrap;
    rewrite !(Z.mod_small (_PSI_max s - _PSI_min s))
      by (change (2 ^ 16)%Z with 65536%Z; change (2 ^ 32)%Z with 4294967296%Z; lia);
    reflexivity.
Qed.

End Span.

(** ** Rounding to nearest

    Rounding to nearest is monotone, and so is every operation of the
    conversion of readPressure; a value that the format holds is its own
    rounding. *)

Section Located.

Local Open Scope Q_scope.

Lemma located_floor m l q : located m l q -> inject_Z m <= q /\ q < inject_Z m + 1.
Proof.
  destruct l as [|c]; cbn [located].
  - intros ->. split; lra.
  - intros (H1 & H2 & _). split; lra.
Qed.

Lemma located_ext m l q q' : q == q' -> located m l q -> located m l q'.
Proof.
  intros E. destruct l as [|[| |]]; cbn [located]; intros H;
    repeat split; lra.
Qed.

Lemma located_of_loc m l q :
  located m l q ->
  located (shr_m (shr_record_of_loc m l))
          (loc_of_shr_record (shr_record_of_loc m l)) q.
Proof. destruct l as [|[| |]]; exact (fun H => H). Qed.

(** One step of the shift: the position in the interval of twice the
    width. *)
Lemma shr_1_located mrs q :
  (0 <= shr_m mrs)%Z ->
  located (shr_m mrs) (loc_of_shr_record mrs) q ->
  located (shr_m (shr_1 mrs)) (loc_of_shr_record (shr_1 mrs)) (q / 2).
Proof.
  destruct mrs as [m r s]. cbn [shr_m]. intros Hm.
  assert (Hq : q / 2 == q * (1 # 2)) by (field).
  destruct m as [|[p|p|]|p]; try lia;
    destruct r, s; cbn [shr_1 loc_of_shr_record shr_m orb located];
    try rewrite (Pos2Z.inj_xI p); try rewrite (Pos2Z.inj_xO p);
    rewrite ?inject_Z_plus, ?inject_Z_mult, Hq;
    change (inject_Z 2) with 2; change (inject_Z 1) with 1;
    change (inject_Z 0) with 0;
    intros H; repeat split; lra.
Qed.

Lemma iter_shr_1_located n : forall mrs q,
  (0 <= shr_m mrs)%Z ->
  located (shr_m mrs) (loc_of_shr_record mrs) q ->
  located (shr_m (Nat.iter n shr_1 mrs))
          (loc_of_shr_record (Nat.iter n shr_1 mrs))
          (q / inject_Z (2 ^ Z.of_nat n)).
Proof.
  induction n as [|n IH]; intros mrs q Hm H.
  - cbn [Nat.iter]. change (inject_Z (2 ^ Z.of_nat 0)) with 1.
    apply (located_ext _ _ q); [field | exact H].
  - rewrite Nat.iter_succ_r.
    assert (Hp : (0 < 2 ^ Z.of_nat n)%Z) by (apply Z.pow_pos_nonneg; lia).
    assert (E : q / inject_Z (2 ^ Z.of_nat (S n))
                == q / 2 / inject_Z (2 ^ Z.of_nat n)).
    { rewrite Nat2Z.inj_succ, Z.pow_succ_r, inject_Z_mult by lia.
      change (inject_Z 2) with 2.
      assert (0 < inject_Z (2 ^ Z.of_nat n)) by (rewrite <- (Zlt_Qlt 0); lia).
      field. lra. }
    assert (Hm' : (0 <= shr_m (shr_1 mrs))%Z)
      by (rewrite shr_1_m by exact Hm; apply Z.div_pos; lia).
    pose proof (IH (shr_1 mrs) (q / 2) Hm' (shr_1_located mrs q Hm H)) as IH'.
    apply (located_ext _ _ _ _ (Qeq_sym _ _ E)). exact IH'.
Qed.

End Located.

Section Nearest.

Variables prec emax : Z.
Hypothesis Hprec : 0 < prec.

Local Abbreviation emin := (SpecFloat.emin prec emax).
Local Abbreviation fexp := (SpecFloat.fexp prec emax).

Lemma shr_located m l e n q :
  0 <= m -> 0 <= n ->
  located m l q ->
  located (shr_m (fst (shr (shr_record_of_loc m l) e n)))
          (loc_of_shr_record (fst (shr (shr_record_of_loc m l) e n)))
          (q / inject_Z (2 ^ n))%Q.
Proof.
  intros Hm Hn H. apply located_of_loc in H.
  destruct n as [|p|p]; try lia; cbn [shr fst].
  - change (inject_Z (2 ^ 0)) with 1%Q.
    apply (located_ext _ _ q); [field | exact H].
  - rewrite iter_pos_nat.
    replace (Zpos p) with (Z.of_nat (Pos.to_nat p)) by apply positive_nat_Z.
    apply iter_shr_1_located; [|exact H].
    rewrite shr_record_of_loc_m. exact Hm.
Qed.

(** Rounding in the normal range gives the nearest number of [prec]
    digits, the even one at a tie: [q] is the exact value in units of
    [2^ex], at the position [lx] after [mx]. *)
Lemma binary_round_aux_nearest mx ex lx (q : Q) :
  0 < mx ->
  let g := Zdigits2 mx + ex - prec in
  ex <= g ->
  emin <= g ->
  g + prec + 1 <= emax ->
  located mx lx q ->
  rounded_nearest prec g (binary_round_aux prec emax false mx ex lx)
    (q * 2 ^ ex)%Q.
Proof.
  intros Hm g Halign Hlo Hhi Hq. unfold binary_round_aux.
  set (V := Zdigits2 mx + ex) in *.
  assert (HgV : g = V - prec) by reflexivity.
  set (n := g - ex).
  assert (Hn : 0 <= n) by (unfold n; lia).
  assert (Hfexp : fexp V - ex = n).
  { rewrite (fexp_normal prec emax V) by lia. unfold n. lia. }
  pose proof (shr_located mx lx ex n q ltac:(lia) Hn Hq) as Hloc.
  pose proof (shr_fexp_spec prec emax mx ex lx ltac:(lia)) as [H1 E1].
  unfold shr_fexp in *.
  change (Zdigits2 mx + ex) with V in H1, E1 |- *.
  rewrite Hfexp in H1, E1 |- *.
  rewrite Z.max_l in H1, E1 by lia.
  destruct (shr (shr_record_of_loc mx lx) ex n) as [mrs' e'].
  cbn [fst snd] in H1, E1, Hloc.
  set (m1 := shr_m mrs') in *. set (l1 := loc_of_shr_record mrs') in *.
  assert (Hd1 : Zdigits2 m1 = prec).
  { rewrite H1, Zdigits2_div_pow2; unfold n, g, V in *; lia. }
  assert (Hm1 : 0 < m1).
  { assert (0 <= m1)
      by (rewrite H1; apply Z.div_pos; [lia | apply Z.pow_pos_nonneg; lia]).
    destruct (Z.eq_dec m1 0) as [E|E]; [|lia].
    rewrite E in Hd1. cbn in Hd1. lia. }
  pose proof (Zdigits2_bounds m1 Hm1) as Hb1. rewrite Hd1 in Hb1.
  assert (He' : e' = g) by (unfold n in E1; lia). clear E1.
  set (m2 := round_nearest_even m1 l1).
  assert (Hm2 : m2 = m1 \/ m2 = m1 + 1) by apply round_nearest_even_cases.
  assert (Hcases : Zdigits2 m2 = prec \/
                   (m2 = 2 ^ prec /\ Zdigits2 m2 = prec + 1)).
  { destruct Hm2 as [E | E]; rewrite E; [left; exact Hd1|].
    destruct (Zdigits2_succ m1 Hm1) as [E' | [E1 E2]].
    - left. lia.
    - right. rewrite Hd1 in E1, E2. split; assumption. }
  assert (Hm2pos : 0 < m2) by lia.
  assert (Hval : forall m e, Zpos m * 2 ^ (e - g) = m2 -> g <= e ->
            (SF2Q (S754_finite false m e) == inject_Z m2 * 2 ^ g)%Q).
  { intros m e Hk He. rewrite SF2Q_pos, <- Hk, inject_Z_mult.
    replace e with ((e - g) + g) at 1 by lia.
    rewrite pow2_add, (pow2_Z (e - g)) by lia. ring. }
  assert (Hspec : located m1 l1 (q * 2 ^ ex / 2 ^ g)%Q).
  { apply (located_ext _ _ (q / inject_Z (2 ^ n))%Q); [|exact Hloc].
    rewrite <- pow2_Z by exact Hn.
    replace g with (n + ex) by (unfold n; lia).
    rewrite pow2_add. pose proof (pow2_pos n). pose proof (pow2_pos ex).
    field. split; lra. }
  pose proof (shr_fexp_spec prec emax m2 e' loc_Exact ltac:(lia)) as [H3 E3].
  unfold shr_fexp in H3, E3.
  destruct (shr (shr_record_of_loc m2 loc_Exact) e'
              (fexp (Zdigits2 m2 + e') - e')) as [mrs'' e''].
  cbn [fst snd] in H3, E3.
  destruct Hcases as [Hd2 | [Hpow Hd2]].
  - rewrite Hd2, He' in H3, E3.
    replace (prec + g) with V in H3, E3 by lia.
    rewrite (fexp_normal prec emax V) in H3, E3 by lia.
    rewrite Z.max_r in H3, E3 by lia.
    rewrite Z.div_1_r in H3.
    rewrite H3. destruct m2 as [|p|p] eqn:Ep; try lia.
    replace (e'' <=? emax - prec) with true
      by (symmetry; apply Z.leb_le; lia).
    exists m1, l1. split; [lia|]. split; [exact Hspec|].
    fold m2. rewrite Ep. apply Hval; [|lia].
    replace (e'' - g) with 0 by lia. lia.
  - rewrite Hd2, He' in H3, E3.
    replace (prec + 1 + g) with (V + 1) in H3, E3 by lia.
    rewrite (fexp_normal prec emax (V + 1)) in H3, E3 by lia.
    replace (V + 1 - prec - g) with 1 in H3, E3 by lia.
    rewrite Z.max_l in H3, E3 by lia.
    assert (Hpp : 2 ^ prec = 2 * 2 ^ (prec - 1)).
    { replace prec with (Z.succ (prec - 1)) at 1 by lia.
      apply Z.pow_succ_r. lia. }
    assert (Hm3 : shr_m mrs'' = 2 ^ (prec - 1)).
    { rewrite H3, Hpow, Hpp. change (2 ^ 1) with 2.
      rewrite Z.mul_comm, Z.div_mul by lia. reflexivity. }
    assert (Hpos3 : 0 < 2 ^ (prec - 1)) by (apply Z.pow_pos_nonneg; lia).
    rewrite Hm3. destruct (2 ^ (prec - 1)) as [|p|p] eqn:Ep; try lia.
    replace (e'' <=? emax - prec) with true
      by (symmetry; apply Z.leb_le; lia).
    exists m1, l1. split; [lia|]. split; [exact Hspec|].
    fold m2. apply Hval; [|lia].
    replace (e'' - g) with 1 by lia. change (2 ^ 1) with 2. lia.
Qed.

End Nearest.

Section Monotone.

Local Open Scope Q_scope.

(** The choice of [round_nearest_even] is monotone in the position. *)
Lemma round_nearest_even_mono m l q m' l' q' :
  located m l q -> located m' l' q' -> q <= q' ->
  (round_nearest_even m l <= round_nearest_even m' l')%Z.
Proof.
  intros H H' Hle.
  destruct (located_floor _ _ _ H) as [F1 F2].
  destruct (located_floor _ _ _ H') as [F1' F2'].
  assert (Hmm : (m <= m')%Z).
  { assert (Hlt : (m < m' + 1)%Z); [|lia].
    rewrite Zlt_Qlt, inject_Z_plus. change (inject_Z 1) with 1. lra. }
  destruct (round_nearest_even_cases m l) as [E|E];
    destruct (round_nearest_even_cases m' l') as [E'|E']; rewrite E, E';
    try lia.
  destruct (Z.eq_dec m m') as [<-|Hne]; [|lia].
  exfalso.
  destruct l as [|[| |]]; destruct l' as [|[| |]];
    cbn [round_nearest_even located] in *;
    try (destruct (Z.even m)); try lia;
    try (destruct H as (? & ? & ?)); try (destruct H' as (? & ? & ?)); lra.
Qed.

Lemma rounded_nearest_mono prec g g' x x' v v' :
  (0 < prec)%Z ->
  rounded_nearest prec g x v -> rounded_nearest prec g' x' v' -> v <= v' ->
  SF2Q x <= SF2Q x'.
Proof.
  intros Hprec (m & l & Hm & Hl & ->) (m' & l' & Hm' & Hl' & ->) Hle.
  destruct (located_floor _ _ _ Hl) as [F1 F2].
  destruct (located_floor _ _ _ Hl') as [F1' F2'].
  pose proof (pow2_pos g) as Pg. pose proof (pow2_pos g') as Pg'.
  assert (V1 : inject_Z m * 2 ^ g <= v).
  { apply (Qmult_le_r _ _ (2 ^ g) Pg) in F1.
    assert (E : v / 2 ^ g * 2 ^ g == v) by (field; lra). lra. }
  assert (V2 : v < (inject_Z m + 1) * 2 ^ g).
  { apply (Qmult_lt_r _ _ (2 ^ g) Pg) in F2.
    assert (E : v / 2 ^ g * 2 ^ g == v) by (field; lra). lra. }
  assert (V1' : inject_Z m' * 2 ^ g' <= v').
  { apply (Qmult_le_r _ _ (2 ^ g') Pg') in F1'.
    assert (E : v' / 2 ^ g' * 2 ^ g' == v') by (field; lra). lra. }
  assert (V2' : v' < (inject_Z m' + 1) * 2 ^ g').
  { apply (Qmult_lt_r _ _ (2 ^ g') Pg') in F2'.
    assert (E : v' / 2 ^ g' * 2 ^ g' == v') by (field; lra). lra. }
  assert (Hlo : inject_Z (2 ^ (prec - 1)) <= inject_Z m)
    by (rewrite <- Zle_Qle; lia).
  assert (Hhi : inject_Z m + 1 <= inject_Z (2 ^ prec)).
  { change 1 with (inject_Z 1). rewrite <- inject_Z_plus, <- Zle_Qle. lia. }
  assert (Hlo' : inject_Z (2 ^ (prec - 1)) <= inject_Z m')
    by (rewrite <- Zle_Qle; lia).
  assert (Hhi' : inject_Z m' + 1 <= inject_Z (2 ^ prec)).
  { change 1 with (inject_Z 1). rewrite <- inject_Z_plus, <- Zle_Qle. lia. }
  rewrite <- !pow2_Z in Hlo, Hhi, Hlo', Hhi' by lia.
  pose proof (pow2_pos (prec - 1)) as Pp.
  assert (B1 : 2 ^ (prec - 1 + g) <= v) by (rewrite pow2_add; nra).
  assert (B2 : v < 2 ^ (prec + g)) by (rewrite pow2_add; nra).
  assert (B1' : 2 ^ (prec - 1 + g') <= v') by (rewrite pow2_add; nra).
  assert (B2' : v' < 2 ^ (prec + g')) by (rewrite pow2_add; nra).
  assert (Hgg : (g <= g')%Z).
  { assert (Hlt : 2 ^ (prec - 1 + g) < 2 ^ (prec + g')) by lra.
    apply pow2_lt_inv in Hlt. lia. }
  assert (K : inject_Z (round_nearest_even m l) <= inject_Z m + 1).
  { change 1 with (inject_Z 1). rewrite <- inject_Z_plus, <- Zle_Qle.
    destruct (round_nearest_even_cases m l); lia. }
  assert (K' : inject_Z m' <= inject_Z (round_nearest_even m' l')).
  { rewrite <- Zle_Qle. destruct (round_nearest_even_cases m' l'); lia. }
  destruct (Z.eq_dec g g') as [<-|Hne].
  - assert (Hq : v / 2 ^ g <= v' / 2 ^ g).
    { apply Qle_shift_div_l; [exact Pg|].
      assert (E : v / 2 ^ g * 2 ^ g == v) by (field; lra). lra. }
    pose proof (round_nearest_even_mono _ _ _ _ _ _ Hl Hl' Hq) as Hk.
    rewrite Zle_Qle in Hk. nra.
  - assert (Hstep : 2 ^ (prec + g) <= 2 ^ (prec - 1 + g'))
      by (apply pow2_le; lia).
    rewrite !pow2_add in Hstep.
    assert (U : inject_Z (round_nearest_even m l) * 2 ^ g <= 2 ^ prec * 2 ^ g)
      by nra.
    assert (L : 2 ^ (prec - 1) * 2 ^ g'
                <= inject_Z (round_nearest_even m' l') * 2 ^ g') by nra.
    lra.
Qed.

(** The position of a quotient [q + r / d] with remainder [r]. *)
Lemma new_location_located d q r :
  (0 < d)%Z -> (0 <= r < d)%Z ->
  located q (new_location d r) (inject_Z q + inject_Z r / inject_Z d).
Proof.
  intros Hd Hr.
  assert (Hd' : 0 < inject_Z d) by (rewrite <- (Zlt_Qlt 0); lia).
  unfold new_location, new_location_even, new_location_odd.
  destruct (Z.eq_dec r 0) as [->|Hr0].
  - assert (E : inject_Z q + inject_Z 0 / inject_Z d == inject_Z q)
      by (change (inject_Z 0) with 0; field; lra).
    destruct (Z.even d); cbn [located Z.eqb]; exact E.
  - assert (Hz : (r =? 0)%Z = false) by (apply Z.eqb_neq; exact Hr0).
    assert (Hr' : 0 < inject_Z r) by (rewrite <- (Zlt_Qlt 0); lia).
    assert (Hr'' : inject_Z r < inject_Z d) by (rewrite <- Zlt_Qlt; lia).
    set (f := inject_Z r / inject_Z d).
    assert (Hf : f * inject_Z d == inject_Z r) by (unfold f; field; lra).
    assert (Hf0 : 0 < f) by (unfold f; apply Qlt_shift_div_l; lra).
    assert (Hf1 : f < 1) by (unfold f; apply Qlt_shift_div_r; lra).
    assert (Hcmp : forall c, (2 * r ?= d)%Z = c ->
              match c with
              | Lt => 2 * f < 1
              | Eq => 2 * f == 1
              | Gt => 1 < 2 * f
              end).
    { intros c Hc. destruct c.
      - apply Z.compare_eq in Hc.
        assert (E : 2 * inject_Z r == inject_Z d).
        { rewrite <- Hc, inject_Z_mult. reflexivity. }
        nra.
      - rewrite Z.compare_lt_iff in Hc.
        rewrite Zlt_Qlt, inject_Z_mult in Hc. change (inject_Z 2) with 2 in Hc.
        nra.
      - rewrite Z.compare_gt_iff in Hc.
        rewrite Zlt_Qlt, inject_Z_mult in Hc. change (inject_Z 2) with 2 in Hc.
        nra. }
    destruct (Z.even d) eqn:Ev; rewrite Hz; cbn [located].
    + pose proof (Hcmp _ eq_refl) as Hc.
      destruct (2 * r ?= d)%Z; repeat split; lra.
    + assert (Hodd : (2 * r <> d)%Z).
      { intros E. rewrite <- E, Z.even_mul in Ev. discriminate. }
      pose proof (Hcmp _ eq_refl) as Hc.
      destruct (2 * r + 1 ?= d)%Z eqn:Hc1.
      * apply Z.compare_eq in Hc1.
        assert (Hlt : (2 * r ?= d)%Z = Lt) by (apply Z.compare_lt_iff; lia).
        rewrite Hlt in Hc. repeat split; lra.
      * rewrite Z.compare_lt_iff in Hc1.
        assert (Hlt : (2 * r ?= d)%Z = Lt) by (apply Z.compare_lt_iff; lia).
        rewrite Hlt in Hc. repeat split; lra.
      * rewrite Z.compare_gt_iff in Hc1.
        assert (Hgt : (2 * r ?= d)%Z = Gt) by (apply Z.compare_gt_iff; lia).
        rewrite Hgt in Hc. repeat split; lra.
Qed.

End Monotone.

Section NearestOperations.

Variables prec emax : Z.
Hypothesis Hprec : 0 < prec.

Local Abbreviation emin := (SpecFloat.emin prec emax).

Lemma located_exact z : located z loc_Exact (inject_Z z).
Proof. cbn [located]. reflexivity. Qed.

(** Conversion of [M * 2^E]. *)
Lemma binary_round_nearest M E :
  let d := Zdigits2 (Zpos M) in
  emin <= d + E - prec ->
  d + E + 1 <= emax ->
  rounded_nearest prec (d + E - prec) (binary_round prec emax false M E)
    (inject_Z (Zpos M) * 2 ^ E).
Proof.
  intros d Hlo Hhi. unfold binary_round.
  change (Zpos (digits2_pos M)) with d.
  rewrite (fexp_normal prec emax (d + E)) by lia.
  destruct (shl_align_spec M E (d + E - prec)) as [-> Hpos].
  set (ez := Z.min E (d + E - prec)) in *.
  set (mz := (Zpos M * 2 ^ (E - ez))%Z) in *.
  rewrite Z2Pos.id by exact Hpos.
  assert (Hdz : (Zdigits2 mz + ez = d + E)%Z).
  { unfold mz. rewrite Zdigits2_mul_pow2 by (unfold ez; lia). fold d. lia. }
  pose proof (binary_round_aux_nearest prec emax Hprec mz ez loc_Exact
                (inject_Z mz) Hpos) as H.
  cbv zeta in H. rewrite Hdz in H.
  specialize (H ltac:(unfold ez; lia) Hlo ltac:(lia) (located_exact mz)).
  destruct H as (m1 & l & Hm & Hl & Hv).
  assert (E1 : (inject_Z mz * 2 ^ ez == inject_Z (Zpos M) * 2 ^ E)%Q).
  { unfold mz. rewrite inject_Z_mult.
    replace E with ((E - ez) + ez) at 2 by lia.
    rewrite pow2_add, (pow2_Z (E - ez)) by (unfold ez; lia). ring. }
  exists m1, l. split; [exact Hm|]. split; [|exact Hv].
  apply (located_ext _ _ _ _ (Qdiv_comp _ _ E1 _ _ (Qeq_refl _))). exact Hl.
Qed.

(** Product of two positive normal numbers. *)
Lemma SFmul_nearest a1 b1 a2 b2 x y :
  normal_pos prec a1 b1 x ->
  normal_pos prec a2 b2 y ->
  emin <= a1 + a2 - 1 - prec ->
  b1 + b2 + 1 <= emax ->
  exists g, rounded_nearest prec g (SFmul prec emax x y) (SF2Q x * SF2Q y).
Proof.
  intros (m1 & e1 & -> & Hd1 & Hr1) (m2 & e2 & -> & Hd2 & Hr2) Hlo Hhi.
  cbn [SFmul xorb]. rewrite Pos2Z.inj_mul.
  pose proof (Zdigits2_bounds (Zpos m1) ltac:(lia)) as [L1 U1].
  pose proof (Zdigits2_bounds (Zpos m2) ltac:(lia)) as [L2 U2].
  rewrite Hd1 in L1, U1. rewrite Hd2 in L2, U2.
  assert (Hp1 : 0 < 2 ^ (prec - 1)) by (apply Z.pow_pos_nonneg; lia).
  set (mx := Zpos m1 * Zpos m2).
  assert (Hmx : 0 < mx) by (unfold mx; lia).
  assert (Hb : 2 ^ (2 * prec - 1 - 1) <= mx < 2 ^ (2 * prec - 1 + 1)).
  { replace (2 * prec - 1 - 1) with ((prec - 1) + (prec - 1)) by lia.
    replace (2 * prec - 1 + 1) with (prec + prec) by lia.
    rewrite !Z.pow_add_r by lia. unfold mx. split; nia. }
  assert (Hv : (inject_Z mx * 2 ^ (e1 + e2)
                == SF2Q (S754_finite false m1 e1) * SF2Q (S754_finite false m2 e2))%Q).
  { rewrite !SF2Q_pos. unfold mx. rewrite inject_Z_mult, pow2_add. ring. }
  exists (Zdigits2 mx + (e1 + e2) - prec).
  pose proof (binary_round_aux_nearest prec emax Hprec mx (e1 + e2) loc_Exact
                (inject_Z mx) Hmx) as H.
  cbv zeta in H.
  assert (Hdx : Zdigits2 mx = 2 * prec - 1 \/ Zdigits2 mx = 2 * prec - 1 + 1)
    by (apply digits_between; [lia | exact Hb]).
  specialize (H ltac:(lia) ltac:(lia) ltac:(lia) (located_exact mx)).
  destruct H as (k & l & Hk & Hl & Hval).
  exists k, l. split; [exact Hk|]. split; [|exact Hval].
  apply (located_ext _ _ _ _ (Qdiv_comp _ _ Hv _ _ (Qeq_refl _))). exact Hl.
Qed.

(** Sum of two positive normal numbers. *)
Lemma SFadd_nearest a1 b1 a2 b2 x y :
  normal_pos prec a1 b1 x ->
  normal_pos prec a2 b2 y ->
  emin <= Z.max a1 a2 - prec ->
  Z.max b1 b2 + 3 <= emax ->
  exists g, rounded_nearest prec g (SFadd prec emax x y) (SF2Q x + SF2Q y).
Proof.
  intros (m1 & e1 & -> & Hd1 & Hr1) (m2 & e2 & -> & Hd2 & Hr2) Hlo Hhi.
  set (v := (SF2Q (S754_finite false m1 e1) + SF2Q (S754_finite false m2 e2))%Q).
  cbn [SFadd cond_Zopp].
  set (ez := Z.min e1 e2).
  destruct (shl_align_spec m1 e1 ez) as [E1 P1].
  destruct (shl_align_spec m2 e2 ez) as [E2 P2].
  rewrite E1, E2. cbn [fst]. rewrite !Z2Pos.id by assumption.
  replace (Z.min e1 ez) with ez in * by (unfold ez; lia).
  replace (Z.min e2 ez) with ez in * by (unfold ez; lia).
  set (A := Zpos m1 * 2 ^ (e1 - ez)) in *.
  set (B := Zpos m2 * 2 ^ (e2 - ez)) in *.
  assert (HdA : Zdigits2 A = prec + (e1 - ez))
    by (unfold A; rewrite Zdigits2_mul_pow2; unfold ez; lia).
  assert (HdB : Zdigits2 B = prec + (e2 - ez))
    by (unfold B; rewrite Zdigits2_mul_pow2; unfold ez; lia).
  pose proof (Zdigits2_bounds A P1) as [LA UA].
  pose proof (Zdigits2_bounds B P2) as [LB UB].
  rewrite HdA in LA, UA. rewrite HdB in LB, UB.
  set (D := prec + (Z.max e1 e2 - ez)).
  assert (HD : 0 < D) by (unfold D, ez; lia).
  assert (HS : 2 ^ (D - 1) <= A + B < 2 ^ (D + 1)).
  { assert (MA : 2 ^ (prec + (e1 - ez)) <= 2 ^ D)
      by (apply Z.pow_le_mono_r; unfold D, ez; lia).
    assert (MB : 2 ^ (prec + (e2 - ez)) <= 2 ^ D)
      by (apply Z.pow_le_mono_r; unfold D, ez; lia).
    replace (D + 1) with (Z.succ D) by lia.
    rewrite Z.pow_succ_r by lia.
    split; [|lia].
    destruct (Z.max_spec e1 e2) as [[_ Em]|[_ Em]]; unfold D; rewrite Em.
    - replace (prec + (e2 - ez) - 1) with (prec + (e2 - ez - 1)) in * by lia.
      replace (prec + (e2 - ez) - 1) with (prec + (e2 - ez - 1)) by lia. lia.
    - replace (prec + (e1 - ez) - 1) with (prec + (e1 - ez - 1)) in * by lia.
      replace (prec + (e1 - ez) - 1) with (prec + (e1 - ez - 1)) by lia. lia. }
  assert (Hv : (inject_Z (A + B) * 2 ^ ez == v)%Q).
  { unfold v, A, B. rewrite !SF2Q_pos, inject_Z_plus, !inject_Z_mult.
    rewrite <- !pow2_Z by (unfold ez; lia).
    replace e1 with ((e1 - ez) + ez) at 2 by lia.
    replace e2 with ((e2 - ez) + ez) at 2 by lia.
    rewrite !pow2_add. ring. }
  destruct (A + B) as [|p|p] eqn:ES; try lia.
  cbn [binary_normalize].
  destruct (digits_between (Zpos p) D HD HS) as [Hdp|Hdp].
  - exists (Zdigits2 (Zpos p) + ez - prec).
    pose proof (binary_round_nearest p ez) as H. cbv zeta in H.
    specialize (H ltac:(unfold D, ez in *; lia) ltac:(unfold D, ez in *; lia)).
    destruct H as (k & l & Hk & Hl & Hval).
    exists k, l. split; [exact Hk|]. split; [|exact Hval].
    apply (located_ext _ _ _ _ (Qdiv_comp _ _ Hv _ _ (Qeq_refl _))). exact Hl.
  - exists (Zdigits2 (Zpos p) + ez - prec).
    pose proof (binary_round_nearest p ez) as H. cbv zeta in H.
    specialize (H ltac:(unfold D, ez in *; lia) ltac:(unfold D, ez in *; lia)).
    destruct H as (k & l & Hk & Hl & Hval).
    exists k, l. split; [exact Hk|]. split; [|exact Hval].
    apply (located_ext _ _ _ _ (Qdiv_comp _ _ Hv _ _ (Qeq_refl _))). exact Hl.
Qed.

End NearestOperations.

Section NearestQuotient.

Variables prec emax : Z.
Hypothesis Hprec : 0 < prec.

Local Abbreviation emin := (SpecFloat.emin prec emax).

Lemma rounded_nearest_ext g x v v' :
  (v == v')%Q -> rounded_nearest prec g x v -> rounded_nearest prec g x v'.
Proof.
  intros E (k & l & Hk & Hl & Hval). exists k, l.
  split; [exact Hk|]. split; [|exact Hval].
  apply (located_ext _ _ _ _ (Qdiv_comp _ _ E _ _ (Qeq_refl _))). exact Hl.
Qed.

(** Quotient of two positive normal numbers. *)
Lemma SFdiv_nearest a1 b1 a2 b2 x y :
  normal_pos prec a1 b1 x ->
  normal_pos prec a2 b2 y ->
  emin <= a1 - b2 - prec ->
  b1 - a2 + 3 <= emax ->
  exists g, rounded_nearest prec g (SFdiv prec emax x y) (SF2Q x / SF2Q y).
Proof.
  intros (m1 & e1 & -> & Hd1 & Hr1) (m2 & e2 & -> & Hd2 & Hr2) Hlo Hhi.
  set (v := (SF2Q (S754_finite false m1 e1) / SF2Q (S754_finite false m2 e2))%Q).
  cbn [SFdiv xorb]. unfold SFdiv_core_binary.
  rewrite Hd1, Hd2.
  replace (prec + e1 - (prec + e2)) with (e1 - e2) by lia.
  rewrite (fexp_normal prec emax (e1 - e2)) by lia.
  rewrite Z.min_l by lia.
  replace (e1 - e2 - (e1 - e2 - prec)) with prec by lia.
  assert (Hs : match prec with
               | Zpos _ => Z.shiftl (Zpos m1) prec
               | 0 => Zpos m1
               | Zneg _ => 0
               end = Zpos m1 * 2 ^ prec).
  { clear -Hprec. destruct prec; try lia. apply Z.shiftl_mul_pow2. lia. }
  rewrite Hs. clear Hs.
  pose proof (Zdigits2_bounds (Zpos m1) ltac:(lia)) as [L1 U1].
  pose proof (Zdigits2_bounds (Zpos m2) ltac:(lia)) as [L2 U2].
  rewrite Hd1 in L1, U1. rewrite Hd2 in L2, U2.
  assert (Hp1 : 0 < 2 ^ (prec - 1)) by (apply Z.pow_pos_nonneg; lia).
  assert (Hp : 2 ^ prec = 2 * 2 ^ (prec - 1)).
  { replace prec with (Z.succ (prec - 1)) at 1 by lia.
    apply Z.pow_succ_r. lia. }
  pose proof (Z.div_eucl_eq (Zpos m1 * 2 ^ prec) (Zpos m2) ltac:(lia)) as Hq.
  pose proof (Z.mod_pos_bound (Zpos m1 * 2 ^ prec) (Zpos m2) ltac:(lia)) as Hrem.
  unfold Z.modulo in Hrem.
  destruct (Z.div_eucl (Zpos m1 * 2 ^ prec) (Zpos m2)) as [q r].
  assert (Hqlo : 2 ^ (prec - 1) <= q) by nia.
  assert (Hqhi : q < 2 ^ (prec + 1)).
  { replace (prec + 1) with (Z.succ prec) by lia.
    rewrite Z.pow_succ_r by lia. nia. }
  set (ex := e1 - e2 - prec).
  assert (Hv : ((inject_Z q + inject_Z r / inject_Z (Zpos m2)) * 2 ^ ex == v)%Q).
  { pose proof (pow2_pos e2) as P2. pose proof (pow2_pos prec) as Pp.
    assert (Hm2 : (0 < inject_Z (Zpos m2))%Q)
      by (rewrite <- (Zlt_Qlt 0); lia).
    assert (Hqq : (inject_Z (Zpos m1) * inject_Z (2 ^ prec)
                   == inject_Z (Zpos m2) * inject_Z q + inject_Z r)%Q)
      by (rewrite <- !inject_Z_mult, <- inject_Z_plus, Hq; reflexivity).
    rewrite <- pow2_Z in Hqq by lia.
    assert (Hm1 : (inject_Z (Zpos m1)
                   == (inject_Z (Zpos m2) * inject_Z q + inject_Z r) / 2 ^ prec)%Q).
    { rewrite <- Hqq. field. lra. }
    unfold v. rewrite !SF2Q_pos, Hm1. unfold ex.
    replace e1 with ((e1 - e2 - prec) + e2 + prec) at 2 by lia.
    rewrite !pow2_add. field. repeat split; lra. }
  assert (Hloc : located q (new_location (Zpos m2) r)
                   (inject_Z q + inject_Z r / inject_Z (Zpos m2)))
    by (apply new_location_located; lia).
  exists (Zdigits2 q + ex - prec).
  apply (rounded_nearest_ext _ _ _ _ Hv).
  destruct (digits_between q prec Hprec (conj Hqlo Hqhi)) as [Hdq|Hdq];
    apply (binary_round_aux_nearest prec emax Hprec q ex _ _ ltac:(lia));
    rewrite ?Hdq; unfold ex; try lia; exact Hloc.
Qed.

End NearestQuotient.

Section MonotoneConversion.

Local Open Scope Q_scope.

Lemma normal_pos_nearest_self prec lo hi x :
  (0 < prec)%Z -> normal_pos prec lo hi x ->
  exists g, rounded_nearest prec g x (SF2Q x).
Proof.
  intros Hprec (m & e & -> & Hd & _).
  pose proof (Zdigits2_bounds (Zpos m) ltac:(lia)) as Hb. rewrite Hd in Hb.
  exists e, (Zpos m), loc_Exact. split; [exact Hb|].
  cbn [located round_nearest_even]. rewrite SF2Q_pos.
  pose proof (pow2_pos e). split; [field; lra | reflexivity].
Qed.

Lemma of_Z_zero_or_normal z :
  (0 <= z < 2 ^ 32)%Z -> zero_or_normal 1 33 (of_Z binary32 z).
Proof.
  intros Hz. destruct (of_Z_binary32 z 32 Hz ltac:(lia)) as [[_ E]|[_ N]].
  - left. exact E.
  - right. exact N.
Qed.

Lemma of_Z_nearest z :
  (0 < z < 2 ^ 32)%Z ->
  exists g, rounded_nearest 24 g (of_Z binary32 z) (inject_Z z).
Proof.
  intros Hz. destruct z as [|M|M]; try lia.
  pose proof (Zdigits2_below (Zpos M) 32 Hz) as Hd.
  unfold of_Z, of_scaled. cbn [fprec femax binary32 binary_normalize].
  exists (Zdigits2 (Zpos M) + 0 - 24)%Z.
  apply (rounded_nearest_ext 24 _ _ (inject_Z (Zpos M) * 2 ^ 0)).
  - change (2 ^ 0) with 1. ring.
  - apply (binary_round_nearest 24 128 ltac:(lia) M 0);
      unfold SpecFloat.emin; lia.
Qed.

Lemma of_Z_monotone z z' :
  (0 <= z <= z')%Z -> (z' < 2 ^ 32)%Z ->
  SF2Q (of_Z binary32 z) <= SF2Q (of_Z binary32 z').
Proof.
  intros Hz Hz'.
  destruct (Z.eq_dec z 0) as [->|Hnz].
  - change (SF2Q (of_Z binary32 0)) with 0.
    destruct (of_Z_zero_or_normal z' ltac:(lia)) as [-> | N].
    + apply Qle_refl.
    + apply Qlt_le_weak. apply (normal_pos_value _ _ _ _ N).
  - destruct (of_Z_nearest z ltac:(lia)) as (g & R).
    destruct (of_Z_nearest z' ltac:(lia)) as (g' & R').
    apply (rounded_nearest_mono 24 g g' _ _ _ _ ltac:(lia) R R').
    rewrite <- Zle_Qle. lia.
Qed.

Lemma fdiv_monotone x x' y :
  zero_or_normal 1 33 x -> zero_or_normal 1 33 x' -> normal_pos 24 1 33 y ->
  SF2Q x <= SF2Q x' ->
  zero_or_normal (-32) 34 (fdiv binary32 x y) /\
  zero_or_normal (-32) 34 (fdiv binary32 x' y) /\
  SF2Q (fdiv binary32 x y) <= SF2Q (fdiv binary32 x' y).
Proof.
  intros Hx Hx' Ny Hle. unfold fdiv. cbn [fprec femax binary32].
  pose proof (normal_pos_value _ _ _ _ Ny) as HY.
  assert (Hn : forall z, normal_pos 24 1 33 z ->
            normal_pos 24 (-32) 34 (SFdiv 24 128 z y) /\
            exists g, rounded_nearest 24 g (SFdiv 24 128 z y) (SF2Q z / SF2Q y)).
  { intros z Nz. split.
    - apply (SFdiv_normal 24 128 ltac:(lia) 1 33 1 33); auto;
        unfold SpecFloat.emin; lia.
    - apply (SFdiv_nearest 24 128 ltac:(lia) 1 33 1 33); auto;
        unfold SpecFloat.emin; lia. }
  assert (Hz : SFdiv 24 128 (S754_zero false) y = S754_zero false).
  { destruct Ny as (m & e & -> & _). reflexivity. }
  destruct Hx as [-> | Nx]; destruct Hx' as [-> | Nx'].
  - rewrite Hz. repeat split; try (left; reflexivity). apply Qle_refl.
  - rewrite Hz. destruct (Hn x' Nx') as [N' _].
    split; [left; reflexivity|]. split; [right; exact N'|].
    apply Qlt_le_weak. apply (normal_pos_value _ _ _ _ N').
  - exfalso. pose proof (normal_pos_value _ _ _ _ Nx).
    change (SF2Q (S754_zero false)) with 0 in Hle. lra.
  - destruct (Hn x Nx) as [N (g & R)]. destruct (Hn x' Nx') as [N' (g' & R')].
    split; [right; exact N|]. split; [right; exact N'|].
    apply (rounded_nearest_mono 24 g g' _ _ _ _ ltac:(lia) R R').
    apply Qle_shift_div_l; [exact HY|].
    assert (E : SF2Q x / SF2Q y * SF2Q y == SF2Q x) by (field; lra). lra.
Qed.

Lemma fadd_monotone x x' p :
  zero_or_normal (-32) 34 x -> zero_or_normal (-32) 34 x' ->
  zero_or_normal 1 17 p ->
  SF2Q x <= SF2Q x' ->
  zero_or_normal (-32) 36 (fadd binary32 x p) /\
  zero_or_normal (-32) 36 (fadd binary32 x' p) /\
  SF2Q (fadd binary32 x p) <= SF2Q (fadd binary32 x' p).
Proof.
  intros Hx Hx' Hp Hle. unfold fadd. cbn [fprec femax binary32].
  assert (Hn : forall z, normal_pos 24 (-32) 34 z -> normal_pos 24 1 17 p ->
            normal_pos 24 (-32) 36 (SFadd 24 128 z p) /\
            exists g, rounded_nearest 24 g (SFadd 24 128 z p) (SF2Q z + SF2Q p)).
  { intros z Nz Np. split.
    - apply (normal_pos_weaken 24 (Z.max (-32) 1) (Z.max 34 17 + 2)); try lia.
      apply (SFadd_normal 24 128 ltac:(lia)); auto; unfold SpecFloat.emin; lia.
    - apply (SFadd_nearest 24 128 ltac:(lia) (-32) 34 1 17); auto;
        unfold SpecFloat.emin; lia. }
  assert (Hz0 : forall z, normal_pos 24 (-32) 34 z ->
            SFadd 24 128 z (S754_zero false) = z).
  { intros z (m & e & -> & _). reflexivity. }
  assert (H0z : forall z, normal_pos 24 1 17 z ->
            SFadd 24 128 (S754_zero false) z = z).
  { intros z (m & e & -> & _). reflexivity. }
  destruct Hp as [-> | Np].
  - (* the offset is zero *)
    destruct Hx as [-> | Nx]; destruct Hx' as [-> | Nx'];
      try rewrite (Hz0 x) by assumption; try rewrite (Hz0 x') by assumption;
      change (SFadd 24 128 (S754_zero false) (S754_zero false))
        with (S754_zero false).
    + repeat split; try (left; reflexivity). apply Qle_refl.
    + split; [left; reflexivity|].
      split; [right; apply (normal_pos_weaken 24 _ _ _ _ _ Nx'); lia|].
      exact Hle.
    + split; [right; apply (normal_pos_weaken 24 _ _ _ _ _ Nx); lia|].
      split; [left; reflexivity|]. exact Hle.
    + split; [right; apply (normal_pos_weaken 24 _ _ _ _ _ Nx); lia|].
      split; [right; apply (normal_pos_weaken 24 _ _ _ _ _ Nx'); lia|].
      exact Hle.
  - pose proof (normal_pos_value _ _ _ _ Np) as HP.
    destruct (normal_pos_nearest_self 24 _ _ _ ltac:(lia) Np) as (gp & Rp).
    assert (Np' : normal_pos 24 (-32) 36 p)
      by (apply (normal_pos_weaken 24 _ _ _ _ _ Np); lia).
    destruct Hx as [-> | Nx]; destruct Hx' as [-> | Nx'];
      rewrite ?(H0z p) by assumption.
    + repeat split; try (right; exact Np'). apply Qle_refl.
    + destruct (Hn x' Nx' Np) as [N' (g' & R')].
      split; [right; exact Np'|]. split; [right; exact N'|].
      apply (rounded_nearest_mono 24 gp g' _ _ _ _ ltac:(lia) Rp R').
      pose proof (normal_pos_value _ _ _ _ Nx'). lra.
    + exfalso. pose proof (normal_pos_value _ _ _ _ Nx).
      change (SF2Q (S754_zero false)) with 0 in Hle. lra.
    + destruct (Hn x Nx Np) as [N (g & R)].
      destruct (Hn x' Nx' Np) as [N' (g' & R')].
      split; [right; exact N|]. split; [right; exact N'|].
      apply (rounded_nearest_mono 24 g g' _ _ _ _ ltac:(lia) R R'). lra.
Qed.

Lemma fmul_monotone x x' K :
  zero_or_normal (-32) 36 x -> zero_or_normal (-32) 36 x' ->
  normal_pos 24 (-90) 90 K ->
  SF2Q x <= SF2Q x' ->
  SF2Q (fmul binary32 x K) <= SF2Q (fmul binary32 x' K).
Proof.
  intros Hx Hx' NK Hle. unfold fmul. cbn [fprec femax binary32].
  pose proof (normal_pos_value _ _ _ _ NK) as HK.
  assert (Hn : forall z, normal_pos 24 (-32) 36 z ->
            exists g, rounded_nearest 24 g (SFmul 24 128 z K) (SF2Q z * SF2Q K)).
  { intros z Nz.
    apply (SFmul_nearest 24 128 ltac:(lia) (-32) 36 (-90) 90); auto;
      unfold SpecFloat.emin; lia. }
  assert (Hpos : forall z, normal_pos 24 (-32) 36 z ->
            0 < SF2Q (SFmul 24 128 z K)).
  { intros z Nz.
    destruct (SFmul_rounded_to 24 128 ltac:(lia) (-32) 36 (-90) 90 _ _ Nz NK)
      as (g & Hg & R); try (unfold SpecFloat.emin; lia).
    apply (normal_pos_value 24 (-200) 200).
    apply (rounded_to_normal 24 g _ _ _ _ R); lia. }
  assert (Hz : SFmul 24 128 (S754_zero false) K = S754_zero false).
  { destruct NK as (m & e & -> & _). reflexivity. }
  destruct Hx as [-> | Nx]; destruct Hx' as [-> | Nx'].
  - apply Qle_refl.
  - rewrite Hz. apply Qlt_le_weak. apply (Hpos x' Nx').
  - exfalso. pose proof (normal_pos_value _ _ _ _ Nx).
    change (SF2Q (S754_zero false)) with 0 in Hle. lra.
  - destruct (Hn x Nx) as (g & R). destruct (Hn x' Nx') as (g' & R').
    apply (rounded_nearest_mono 24 g g' _ _ _ _ ltac:(lia) R R'). nra.
Qed.

(** The arithmetic of readPressure is monotone in its numerator. *)
Lemma psi_monotone (n n' d p : Z) (K : spec_float) :
  (0 <= n <= n')%Z -> (n' < 2 ^ 32)%Z -> (0 < d < 2 ^ 32)%Z ->
  (0 <= p < 2 ^ 16)%Z ->
  normal_pos 24 (-90) 90 K ->
  SF2Q (fmul binary32
          (fadd binary32 (fdiv binary32 (of_Z binary32 n) (of_Z binary32 d))
                (of_Z binary32 p)) K)
  <= SF2Q (fmul binary32
             (fadd binary32 (fdiv binary32 (of_Z binary32 n') (of_Z binary32 d))
                   (of_Z binary32 p)) K).
Proof.
  intros Hn Hn' Hd Hp NK.
  pose proof (of_Z_zero_or_normal n ltac:(lia)) as Z0.
  pose proof (of_Z_zero_or_normal n' ltac:(lia)) as Z0'.
  pose proof (of_Z_monotone n n' Hn Hn') as M0.
  destruct (of_Z_binary32 d 32 ltac:(lia) ltac:(lia)) as [[E _]|[_ Nd]]; [lia|].
  assert (Zp : zero_or_normal 1 17 (of_Z binary32 p)).
  { destruct (of_Z_binary32 p 16 Hp ltac:(lia)) as [[_ E]|[_ N]];
      [left; exact E | right; exact N]. }
  destruct (fdiv_monotone _ _ _ Z0 Z0' Nd M0) as (Z1 & Z1' & M1).
  destruct (fadd_monotone _ _ _ Z1 Z1' Zp M1) as (Z2 & Z2' & M2).
  apply (fmul_monotone _ _ _ Z2 Z2' NK M2).
Qed.

End MonotoneConversion.

Section Endpoints.

Local Open Scope Q_scope.

(** A positive normal number is determined by its value. *)
Lemma normal_pos_unique prec lo hi lo' hi' x y :
  normal_pos prec lo hi x -> normal_pos prec lo' hi' y ->
  SF2Q x == SF2Q y -> x = y.
Proof.
  intros (m & e & -> & Hd & _) (m' & e' & -> & Hd' & _) E.
  rewrite !SF2Q_pos in E.
  pose proof (Zdigits2_bounds (Zpos m) ltac:(lia)) as B. rewrite Hd in B.
  pose proof (Zdigits2_bounds (Zpos m') ltac:(lia)) as B'. rewrite Hd' in B'.
  assert (Hprec : (0 <= prec - 1)%Z).
  { rewrite <- Hd. pose proof (Zdigits2_below (Zpos m) (Zdigits2 (Zpos m))).
    destruct (Z_le_gt_dec 1 (Zdigits2 (Zpos m))); [lia|].
    destruct m; cbn in *; lia. }
  assert (L : forall a ea b eb,
             (2 ^ (prec - 1) <= a < 2 ^ prec)%Z ->
             (2 ^ (prec - 1) <= b < 2 ^ prec)%Z ->
             inject_Z a * 2 ^ ea == inject_Z b * 2 ^ eb -> (ea <= eb)%Z).
  { intros a ea b eb [A1 A2] [B1 B2] Eab.
    destruct (Z_le_gt_dec ea eb) as [|Hgt]; [assumption|exfalso].
    pose proof (pow2_pos ea). pose proof (pow2_pos eb).
    assert (P1 : 2 ^ ea == 2 ^ (ea - eb) * 2 ^ eb)
      by (rewrite <- pow2_add; apply Qpower_comp; [reflexivity | lia]).
    assert (P2 : 2 <= 2 ^ (ea - eb)).
    { change 2 with (2 ^ 1) at 1. apply pow2_le. lia. }
    rewrite Zle_Qle in A1, B1. rewrite Zlt_Qlt in A2, B2.
    assert (P3 : 2 ^ prec == 2 * 2 ^ (prec - 1)).
    { change 2 with (2 ^ 1) at 2. rewrite <- pow2_add.
      apply Qpower_comp; [reflexivity | lia]. }
    rewrite <- !pow2_Z in * by lia.
    pose proof (pow2_pos (prec - 1)).
    assert (inject_Z b * 2 ^ eb < 2 * 2 ^ (prec - 1) * 2 ^ eb) by nra.
    assert (2 ^ (prec - 1) * (2 * 2 ^ eb) <= inject_Z a * 2 ^ ea).
    { rewrite P1. 
      assert (2 ^ (prec - 1) * (2 * 2 ^ eb) <= inject_Z a * (2 * 2 ^ eb)) by nra.
      assert (inject_Z a * (2 * 2 ^ eb) <= inject_Z a * (2 ^ (ea - eb) * 2 ^ eb)).
      { assert (0 < inject_Z a) by lra.
        assert (2 * 2 ^ eb <= 2 ^ (ea - eb) * 2 ^ eb) by nra.
        apply Qmult_le_l; assumption. }
      lra. }
    lra. }
  assert (Ee : e = e').
  { apply Z.le_antisymm; [apply (L _ _ _ _ B B' E)|].
    apply (L _ _ _ _ B' B). symmetry. exact E. }
  subst e'. pose proof (pow2_pos e).
  assert (Em : inject_Z (Zpos m) == inject_Z (Zpos m')) by nra.
  rewrite inject_Z_injective in Em. injection Em as ->. reflexivity.
Qed.

(** Two roundings of one value agree. *)
Lemma rounded_nearest_unique prec g g' x y v v' :
  (0 < prec)%Z ->
  rounded_nearest prec g x v -> rounded_nearest prec g' y v' -> v == v' ->
  SF2Q x == SF2Q y.
Proof.
  intros Hprec Rx Ry E. apply Qle_antisym.
  - apply (rounded_nearest_mono prec g g' _ _ _ _ Hprec Rx Ry). lra.
  - apply (rounded_nearest_mono prec g' g _ _ _ _ Hprec Ry Rx). lra.
Qed.

(** A rounding of the value of a normal number is that number. *)
Lemma rounded_nearest_exact g lo hi lo' hi' x y v :
  rounded_nearest 24 g x v -> normal_pos 24 lo hi x ->
  normal_pos 24 lo' hi' y -> v == SF2Q y -> x = y.
Proof.
  intros Rx Nx Ny E.
  destruct (normal_pos_nearest_self 24 _ _ _ ltac:(lia) Ny) as (gy & Ry).
  apply (normal_pos_unique 24 _ _ _ _ _ _ Nx Ny).
  apply (rounded_nearest_unique 24 g gy _ _ _ _ ltac:(lia) Rx Ry E).
Qed.

(** The conversion to [float] of an integer that [float] holds. *)
Lemma of_Z_float_integer z :
  (0 < z < 2 ^ 32)%Z -> float_integer z ->
  SF2Q (of_Z binary32 z) == inject_Z z.
Proof.
  intros Hz (m & t & Hm & Ht & ->).
  destruct m as [|M|M]; try lia.
  assert (Ht32 : (t < 32)%Z).
  { destruct (Z_lt_le_dec t 32) as [|Hge]; [assumption|exfalso].
    pose proof (Z.pow_le_mono_r 2 32 t ltac:(lia) Hge). nia. }
  pose proof (Zdigits2_below (Zpos M) 24 ltac:(lia)) as Hd.
  destruct (binary_round_exact 24 128 ltac:(lia) M t) as [Ny Hv];
    try (unfold SpecFloat.emin; lia).
  destruct (of_Z_binary32_error (Zpos M * 2 ^ t) Hz) as [Nx _].
  destruct (of_Z_nearest (Zpos M * 2 ^ t) Hz) as (g & Rx).
  assert (Ev : inject_Z (Zpos M * 2 ^ t)
               == SF2Q (binary_round 24 128 false M t)).
  { rewrite Hv, inject_Z_mult, pow2_Z by lia. reflexivity. }
  rewrite (rounded_nearest_exact g _ _ _ _ _ _ _ Rx Nx Ny Ev).
  symmetry. exact Ev.
Qed.

(** The arithmetic of readPressure at the upper end of the curve: the
    quotient of [d * sp] by [d], and the sum with the offset, are exact
    when [float] holds the product and the divisor. *)
Lemma psi_endpoint_exact (d sp p : Z) :
  (0 < d < 2 ^ 32)%Z -> (0 <= sp)%Z -> (0 <= p)%Z -> (p + sp < 2 ^ 16)%Z ->
  (d * sp < 2 ^ 32)%Z ->
  float_integer d -> float_integer (d * sp) ->
  fadd binary32 (fdiv binary32 (of_Z binary32 (d * sp)) (of_Z binary32 d))
       (of_Z binary32 p)
  = of_Z binary32 (p + sp).
Proof.
  intros Hd Hsp Hp Hsum Hprod Fd Fn.
  destruct (of_Z_binary32_error d Hd) as [Nd _].
  pose proof (of_Z_float_integer d Hd Fd) as Vd.
  assert (Hz : SFdiv 24 128 (S754_zero false) (of_Z binary32 d) = S754_zero false).
  { destruct Nd as (m & e & -> & _). reflexivity. }
  assert (Hq : fdiv binary32 (of_Z binary32 (d * sp)) (of_Z binary32 d)
               = of_Z binary32 sp).
  { destruct (Z.eq_dec sp 0) as [->|Hnz].
    - rewrite Z.mul_0_r. exact Hz.
    - assert (Hn : (0 < d * sp < 2 ^ 32)%Z) by nia.
      destruct (of_Z_binary32_error (d * sp) Hn) as [Nn _].
      pose proof (of_Z_float_integer (d * sp) Hn Fn) as Vn.
      destruct (of_Z_binary32_exact sp ltac:(lia)) as [Ns Vs].
      unfold fdiv. cbn [fprec femax binary32].
      destruct (SFdiv_nearest 24 128 ltac:(lia) 1 33 1 33 _ _ Nn Nd) as (g & R);
        try (unfold SpecFloat.emin; lia).
      pose proof (SFdiv_normal 24 128 ltac:(lia) 1 33 1 33 _ _ Nn Nd) as Nq.
      specialize (Nq ltac:(unfold SpecFloat.emin; lia) ltac:(lia)).
      apply (rounded_nearest_exact g _ _ _ _ _ _ _ R Nq Ns).
      rewrite Vn, Vd, Vs, inject_Z_mult.
      assert (0 < inject_Z d) by (rewrite <- (Zlt_Qlt 0); lia).
      field. lra. }
  rewrite Hq.
  destruct (Z.eq_dec sp 0) as [->|Hnz].
  - rewrite Z.add_0_r. unfold fadd. cbn [fprec femax binary32].
    change (of_Z binary32 0) with (S754_zero false).
    destruct (of_Z_binary32 p 16 ltac:(lia) ltac:(lia))
      as [[_ ->]|[_ (m & e & -> & _)]]; reflexivity.
  - destruct (of_Z_binary32_exact sp ltac:(lia)) as [Ns Vs].
    destruct (of_Z_binary32_exact (p + sp) ltac:(lia)) as [Nt Vt].
    destruct (Z.eq_dec p 0) as [->|Hpz].
    + rewrite Z.add_0_l. unfold fadd. cbn [fprec femax binary32].
      change (of_Z binary32 0) with (S754_zero false).
      destruct Ns as (m & e & -> & _). reflexivity.
    + destruct (of_Z_binary32_exact p ltac:(lia)) as [Np Vp].
      unfold fadd. cbn [fprec femax binary32].
      destruct (SFadd_nearest 24 128 ltac:(lia) 1 17 1 17 _ _ Ns Np) as (g & R);
        try (unfold SpecFloat.emin; lia).
      pose proof (SFadd_normal 24 128 ltac:(lia) 1 17 1 17 _ _ Ns Np) as Na.
      specialize (Na ltac:(unfold SpecFloat.emin; lia) ltac:(lia)).
      apply (rounded_nearest_exact g _ _ _ _ _ _ _ R Na Nt).
      rewrite Vs, Vp, Vt, inject_Z_plus. ring.
Qed.

End Endpoints.

(** * The claims *)

(** C1, as amended.  For a scale factor [_K] that is a finite number.
    A call of readPressure that returns has the count of readData, and
    its result is NaN if and only if that count is the sentinel 0xFFFFFFFF
    or [_OUTPUT_max] equals [_OUTPUT_min].  And the call does return:
    whatever the sensor does, once a reading of the clock shows more than
    MPRLS_READ_TIMEOUT elapsed (and the loop has the fuel to get there),
    readData and readPressure both return, with the same object and world
    and the same equivalence; when the sensor was not ready at any poll
    until then, the count is the sentinel and the result is NaN, after
    [k + 2] readings of the clock. *)
Theorem readPressure_nan_iff P fuel s w :
  well_formed s ->
  is_finite (_K s) = true ->
  (forall x s' w',
     readPressure P fuel s w = Done x s' w' ->
     exists raw_psi,
       readData fuel s w = Done raw_psi s' w' /\
       (is_nan x = true <->
        raw_psi = 0xFFFFFFFF \/ _OUTPUT_max s = _OUTPUT_min s)) /\
  (forall a k,
     i2c_dev s = Some a ->
     (forall j, (j < k)%nat -> elapsed w j <= MPRLS_READ_TIMEOUT) ->
     elapsed w k > MPRLS_READ_TIMEOUT ->
     (k < fuel)%nat ->
     exists x raw_psi s' w',
       readPressure P fuel s w = Done x s' w' /\
       readData fuel s w = Done raw_psi s' w' /\
       (is_nan x = true <->
        raw_psi = 0xFFFFFFFF \/ _OUTPUT_max s = _OUTPUT_min s) /\
       ((forall j, (j <= k)%nat -> not_ready s w j = true) ->
        raw_psi = 0xFFFFFFFF /\ x = NAN /\
        millis_calls w' = (millis_calls w + k + 2)%nat)).
Proof.
  intros Hwf HK. split.
  - intros x s' w' Hrun.
    destruct (readPressure_inv _ _ _ _ _ _ _ Hrun) as (raw & Hdata & Hx).
    exists raw. split; [exact Hdata|].
    rewrite (readPressure_of_readData P _ _ _ _ _ _ Hdata) in Hrun.
    injection Hrun as <-. now apply pressure_of_raw_nan_iff.
  - intros a k Hdev Hbefore Hafter Hfuel.
    destruct (readData_returns s w a k fuel Hdev Hbefore Hafter Hfuel)
      as (r & s' & w' & Hdata & _).
    exists (pressure_of_raw P s r), r, s', w'.
    split; [now apply readPressure_of_readData|].
    split; [exact Hdata|].
    split; [now apply pressure_of_raw_nan_iff|].
    intros Hnot.
    assert (Hgive : exists s2 w2,
               readData fuel s w = Done 0xFFFFFFFF s2 w2 /\
               millis_calls w2 = (millis_calls w + k + 2)%nat).
    { clear Hdata. unfold elapsed in *.
      run. rewrite Hdev. run. unfold not_ready in Hnot.
      destruct (Z.eqb_spec (_eoc s) (-1)) as [E|E]; cbn [negb].
      - edestruct (wait_status_timeout k fuel
                     (u32 (millis_tape w (millis_calls w))) s)
          as (s2 & w2 & Hrun & Hc);
          [exact Hdev | exact Hfuel | | | | rewrite Hrun; cbn [negb];
            exists s2, w2; split; [reflexivity|]]; run.
        + intros j Hj. specialize (Hnot j Hj).
          apply negb_true_iff, Z.eqb_neq in Hnot. exact Hnot.
        + intros j Hj. apply Hbefore; exact Hj.
        + exact Hafter.
        + rewrite Hc. lia.
      - edestruct (wait_eoc_timeout k fuel
                     (u32 (millis_tape w (millis_calls w))) s)
          as (w2 & Hrun & Hc);
          [exact Hfuel | | | | rewrite Hrun; cbn [negb];
            exists s, w2; split; [reflexivity|]]; run.
        + intros j Hj. specialize (Hnot j Hj).
          apply negb_true_iff in Hnot. exact Hnot.
        + intros j Hj. apply Hbefore; exact Hj.
        + exact Hafter.
        + rewrite Hc. lia. }
    destruct Hgive as (s2 & w2 & Hrun2 & Hc2).
    rewrite Hrun2 in Hdata. injection Hdata as <- <- <-.
    split; [reflexivity|]. split; [reflexivity | exact Hc2].
Qed.

(** A sensor that stays busy: the call returns NaN at the fourth reading
    of the clock.  A sensor that is ready at the third poll: the call
    returns, with the equivalence. *)
Lemma readPressure_nan_iff_witness :
  (exists s' w',
     readPressure (ilp32 Samples.no_undef) 3 Samples.sensor_polled
                  Samples.stuck_busy = Done NAN s' w' /\
     readData 3 Samples.sensor_polled Samples.stuck_busy
       = Done 0xFFFFFFFF s' w' /\
     millis_calls w' = 4%nat) /\
  (exists x raw_psi s' w',
     readPressure (ilp32 Samples.no_undef) 3 Samples.sensor_polled
                  Samples.busy_twice = Done x s' w' /\
     readData 3 Samples.sensor_polled Samples.busy_twice
       = Done raw_psi s' w' /\
     (is_nan x = true <->
      raw_psi = 0xFFFFFFFF \/
      _OUTPUT_max Samples.sensor_polled = _OUTPUT_min Samples.sensor_polled)).
Proof.
  assert (Hbefore : forall w, millis_tape w = Samples.clock_7ms ->
            millis_calls w = 0%nat ->
            forall j, (j < 2)%nat -> elapsed w j <= MPRLS_READ_TIMEOUT).
  { intros w Ht Hc j Hj. unfold elapsed. rewrite Ht, Hc.
    destruct j as [|[|j]]; [vm_compute; discriminate..|lia]. }
  split.
  - destruct (readPressure_nan_iff (ilp32 Samples.no_undef) 3
                Samples.sensor_polled Samples.stuck_busy
                sensor_polled_well_formed eq_refl) as [_ Hret].
    destruct (Hret MPRLS_DEFAULT_ADDR 2%nat eq_refl
                (Hbefore Samples.stuck_busy eq_refl eq_refl)
                eq_refl ltac:(lia))
      as (x & raw & s' & w' & Hp & Hd & _ & Hto).
    destruct Hto as (-> & -> & Hc).
    { intros j Hj. destruct j as [|[|[|j]]]; [reflexivity..|lia]. }
    exists s', w'. split; [exact Hp|]. split; [exact Hd | exact Hc].
  - destruct (readPressure_nan_iff (ilp32 Samples.no_undef) 3
                Samples.sensor_polled Samples.busy_twice
                sensor_polled_well_formed eq_refl) as [_ Hret].
    destruct (Hret MPRLS_DEFAULT_ADDR 2%nat eq_refl
                (Hbefore Samples.busy_twice eq_refl eq_refl)
                eq_refl ltac:(lia))
      as (x & raw & s' & w' & Hp & Hd & Hiff & _).
    exists x, raw, s', w'. split; [exact Hp|]. split; [exact Hd | exact Hiff].
Defined.

(** C1 as stated fails: with a scale factor that is not a number,
    readPressure returns NaN although readData returned a count (0x800000)
    and the two counts of the curve differ. *)
Lemma readPressure_nan_without_error :
  exists x s' w' raw_psi,
    readPressure (ilp32 Samples.no_undef) 3 Samples.nan_scale
                 Samples.busy_twice = Done x s' w' /\
    readData 3 Samples.nan_scale Samples.busy_twice
      = Done raw_psi s' w' /\
    is_nan x = true /\
    raw_psi <> 0xFFFFFFFF /\
    _OUTPUT_max Samples.nan_scale <> _OUTPUT_min Samples.nan_scale.
Proof.
  do 4 eexists. split; [vm_compute; reflexivity|].
  split; [vm_compute; reflexivity|].
  split; [reflexivity|].
  split; vm_compute; discriminate.
Qed.

(** C2.  One count below [_OUTPUT_min], on the default configuration:
    the difference [raw_psi - _OUTPUT_min] wraps to 0xFFFFFFFF, and
    readPressure returns 11296371 * 2^-9 (22063.2 hPa) where the
    interpolation gives a small negative pressure.  With a range of 1000 PSI
    the product overflows at the upper end of the curve: 2757.9 hPa instead
    of 68947.6. *)
Theorem readPressure_wraps_below_min :
  let s := Adafruit_MPRLS_default (ilp32 Samples.no_undef) 0 in
  _OUTPUT_min s = 1677722 /\
  pressure_of_raw (ilp32 Samples.no_undef) s 1677721
    = S754_finite false 11296371 (-9) /\
  (22063 < SF2Q (pressure_of_raw (ilp32 Samples.no_undef) s 1677721))%Q /\
  (interpolation s 1677721 < 0)%Q /\
  pressure_of_raw (avr8 Samples.no_undef)
                  (Adafruit_MPRLS_default (avr8 Samples.no_undef) 0) 1677721
    = S754_finite false 11296371 (-9) /\
  (SF2Q (pressure_of_raw (ilp32 Samples.no_undef) Samples.range_1000
                         (_OUTPUT_max Samples.range_1000)) < 2758)%Q /\
  (68947 < interpolation Samples.range_1000
                         (_OUTPUT_max Samples.range_1000))%Q.
Proof.
  cbv zeta. repeat split; vm_compute; reflexivity.
Qed.

(** C3, as amended.  When the two counts of the curve differ, a raw count
    equal to [_OUTPUT_min] gives [_PSI_min * _K].  A raw count equal to
    [_OUTPUT_max] gives [_PSI_max * _K] up to rounding, on every
    configuration with [_OUTPUT_min < _OUTPUT_max], [_PSI_min <= _PSI_max]
    and a product of the two widths that fits 32 bits: for a scale factor
    that is a positive normal [float] between 2^-91 and 2^90 the result is
    finite and within 2^-20, relatively, of the exact product; and it is
    the [float] product [_PSI_max * _K] itself, whatever the scale factor,
    when [float] holds the width of the curve and its product with the
    width of the range.  It is that product too on the default range and
    curve (0 to 25 PSI, counts 1677722 and 15099494). *)
Theorem readPressure_endpoints P s :
  well_formed s ->
  _OUTPUT_max s <> _OUTPUT_min s ->
  _OUTPUT_min s <> 0xFFFFFFFF ->
  pressure_of_raw P s (_OUTPUT_min s)
    = fmul binary32 (of_Z binary32 (_PSI_min s)) (_K s) /\
  (_OUTPUT_min s < _OUTPUT_max s ->
   _OUTPUT_max s <> 0xFFFFFFFF ->
   _PSI_min s <= _PSI_max s ->
   (_OUTPUT_max s - _OUTPUT_min s) * (_PSI_max s - _PSI_min s) < 2 ^ 32 ->
   let x := pressure_of_raw P s (_OUTPUT_max s) in
   (normal_pos 24 (-90) 90 (_K s) ->
    is_finite x = true /\
    ((1048575 # 1048576) * (inject_Z (_PSI_max s) * SF2Q (_K s)) <= SF2Q x)%Q /\
    (SF2Q x <= (1048577 # 1048576) * (inject_Z (_PSI_max s) * SF2Q (_K s)))%Q) /\
   (float_integer (_OUTPUT_max s - _OUTPUT_min s) ->
    float_integer ((_OUTPUT_max s - _OUTPUT_min s) * (_PSI_max s - _PSI_min s)) ->
    x = fmul binary32 (of_Z binary32 (_PSI_max s)) (_K s))) /\
  (_PSI_min s = 0 -> _PSI_max s = 25 ->
   _OUTPUT_min s = 1677722 -> _OUTPUT_max s = 15099494 ->
   pressure_of_raw P s (_OUTPUT_max s)
     = fmul binary32 (of_Z binary32 (_PSI_max s)) (_K s)).
Proof.
  intros (_ & _ & _ & Hpmin & Hpmax & Homin & Homax) Hcurve Hsent.
  split; [|split].
  - unfold pressure_of_raw.
    destruct (Z.eqb_spec (_OUTPUT_min s) 0xFFFFFFFF) as [E|_]; [contradiction|].
    destruct (Z.eqb_spec (_OUTPUT_min s) (_OUTPUT_max s)) as [E|_];
      [congruence|].
    cbn [orb]. rewrite Z.sub_diag.
    change (u32 (u32 0 * psi_span P s)) with 0.
    change (of_Z binary32 0) with (S754_zero false).
    assert (Hd : is_u32 (u32 (_OUTPUT_max s - _OUTPUT_min s)))
      by apply u32_range.
    assert (Hd0 : u32 (_OUTPUT_max s - _OUTPUT_min s) <> 0).
    { unfold is_u32, u32, wrap in *. change (2 ^ 32) with 4294967296 in *.
      intros E.
      pose proof (Z.div_mod (_OUTPUT_max s - _OUTPUT_min s) 4294967296
                    ltac:(lia)) as Hdm.
      rewrite E in Hdm. lia. }
    destruct (of_Z_binary32 _ 32 Hd ltac:(lia)) as [[E _]|[_ Nd]]; [lia|].
    destruct Nd as (m & e & -> & _). cbn [fdiv SFdiv xorb].
    destruct (of_Z_binary32 (_PSI_min s) 16 Hpmin ltac:(lia))
      as [[_ ->]|[_ (m' & e' & -> & _)]]; reflexivity.
  - intros Hlt Hmax Hpsi Hprod.
    pose proof (psi_span_ordered P s Hpmin Hpmax Hpsi) as Espan.
    unfold is_u16, is_u32 in *. change (2 ^ 16) with 65536 in *.
    change (2 ^ 32) with 4294967296 in *.
    cbv zeta. unfold pressure_of_raw.
    destruct (Z.eqb_spec (_OUTPUT_max s) 0xFFFFFFFF) as [E|_]; [contradiction|].
    destruct (Z.eqb_spec (_OUTPUT_min s) (_OUTPUT_max s)) as [E|_]; [lia|].
    cbn [orb]. rewrite Espan.
    set (sp := _PSI_max s - _PSI_min s) in *.
    set (d := _OUTPUT_max s - _OUTPUT_min s) in *.
    assert (Hd : 0 < d < 4294967296) by (unfold d; lia).
    assert (Hsp : 0 <= sp < 65536) by (unfold sp; lia).
    rewrite (u32_small d) by (unfold is_u32; change (2 ^ 32) with 4294967296; lia).
    rewrite (u32_small (d * sp))
      by (unfold is_u32; change (2 ^ 32) with 4294967296; nia).
    split.
    + intros HK.
      pose proof (psi_accuracy (d * sp) d (_PSI_min s) (_K s)) as H.
      cbv zeta in H.
      destruct H as (Hfin & H1 & H2); try assumption;
        try (change (2 ^ 32)%Z with 4294967296; change (2 ^ 16)%Z with 65536;
             nia).
      assert (Ev : ((inject_Z (d * sp) / inject_Z d + inject_Z (_PSI_min s))
                    * SF2Q (_K s) == inject_Z (_PSI_max s) * SF2Q (_K s))%Q).
      { replace (_PSI_max s) with (sp + _PSI_min s) by (unfold sp; lia).
        rewrite inject_Z_mult, inject_Z_plus.
        assert (0 < inject_Z d)%Q by (rewrite <- (Zlt_Qlt 0); lia).
        field. lra. }
      rewrite Ev in H1, H2. auto.
    + intros Fd Fn.
      rewrite (psi_endpoint_exact d sp (_PSI_min s));
        try assumption;
        try (change (2 ^ 32)%Z with 4294967296; change (2 ^ 16)%Z with 65536;
             unfold sp in *; lia).
      replace (_PSI_min s + sp) with (_PSI_max s) by (unfold sp; lia).
      reflexivity.
  - intros E1 E2 E3 E4. unfold pressure_of_raw, psi_span.
    rewrite E1, E2, E3, E4.
    destruct (int_bits P); vm_compute; reflexivity.
Qed.

(** The default object, and a sensor of 0 to 5 PSI on the default curve:
    13421772 = 3355443 * 2^2 and 13421772 * 5 = 16777215 * 2^2. *)
Lemma readPressure_endpoints_witness :
  let P := ilp32 Samples.no_undef in
  let s := Samples.sensor_polled in
  let x := pressure_of_raw P s (_OUTPUT_max s) in
  pressure_of_raw P s (_OUTPUT_min s)
    = fmul binary32 (of_Z binary32 (_PSI_min s)) (_K s) /\
  x = fmul binary32 (of_Z binary32 (_PSI_max s)) (_K s) /\
  ((1048575 # 1048576) * (inject_Z (_PSI_max s) * SF2Q (_K s)) <= SF2Q x)%Q /\
  (SF2Q x <= (1048577 # 1048576) * (inject_Z (_PSI_max s) * SF2Q (_K s)))%Q /\
  pressure_of_raw P Scenes.range_5 (_OUTPUT_max Scenes.range_5)
    = fmul binary32 (of_Z binary32 (_PSI_max Scenes.range_5)) (_K Scenes.range_5).
Proof.
  cbv zeta.
  destruct (readPressure_endpoints (ilp32 Samples.no_undef)
              Samples.sensor_polled sensor_polled_well_formed
              ltac:(vm_compute; discriminate) ltac:(vm_compute; discriminate))
    as (Hmin & Hmax & Hdefault).
  specialize (Hmax eq_refl ltac:(vm_compute; discriminate)
                ltac:(vm_compute; discriminate) eq_refl).
  cbv zeta in Hmax. destruct Hmax as [Happrox _].
  assert (HK : normal_pos 24 (-90) 90 (_K Samples.sensor_polled)).
  { exists 9037096%positive, (-17). repeat split; try reflexivity; lia. }
  destruct (Happrox HK) as (_ & Hlo & Hhi).
  split; [exact Hmin|]. split; [apply Hdefault; reflexivity|].
  split; [exact Hlo|]. split; [exact Hhi|].
  assert (Hwf : well_formed Scenes.range_5)
    by (apply Adafruit_MPRLS_new_well_formed; unfold is_u16; lia).
  destruct (readPressure_endpoints (ilp32 Samples.no_undef) Scenes.range_5 Hwf
              ltac:(vm_compute; discriminate) ltac:(vm_compute; discriminate))
    as (_ & Hmax5 & _).
  specialize (Hmax5 eq_refl ltac:(vm_compute; discriminate)
                ltac:(vm_compute; discriminate) eq_refl).
  cbv zeta in Hmax5. destruct Hmax5 as [_ Hexact].
  apply Hexact.
  - exists 3355443, 2. repeat split; try reflexivity; vm_compute; discriminate.
  - exists 16777215, 2. repeat split; try reflexivity; vm_compute; discriminate.
Defined.

(** C3 as stated fails: the percentages 10 and 10 + 2^-20 differ but give
    the same count, and readPressure returns NaN at that count; and for a
    range of 0 to 7 PSI on the default curve the value at [_OUTPUT_max] is
    one unit in the last place below [7 * _K]. *)
Lemma readPressure_endpoints_fail :
  SFeqb (of_Z binary32 10) Samples.above_10 = false /\
  pressure_of_raw (ilp32 Samples.no_undef) Samples.thin_curve
                  (_OUTPUT_min Samples.thin_curve) = NAN /\
  fmul binary32 (of_Z binary32 (_PSI_min Samples.thin_curve))
       (_K Samples.thin_curve) = S754_zero false /\
  pressure_of_raw (ilp32 Samples.no_undef) Samples.range_7
                  (_OUTPUT_max Samples.range_7)
    = S754_finite false 15814917 (-15) /\
  fmul binary32 (of_Z binary32 (_PSI_max Samples.range_7))
       (_K Samples.range_7) = S754_finite false 15814918 (-15).
Proof.
  repeat split; vm_compute; reflexivity.
Qed.

(** C4. If the sensor is not ready at any poll, readData returns the
    sentinel 0xFFFFFFFF at the first reading of the clock that shows more
    than MPRLS_READ_TIMEOUT = 20 elapsed since the command was sent: not
    before (every earlier reading showed at most 20), and within one
    iteration of the polling loop after the last such reading (the call
    reads the clock [k + 2] times in all: once for the stamp and once in
    each of the [k + 1] iterations). *)
Theorem readData_timeout s w a k fuel :
  i2c_dev s = Some a ->
  (forall j, (j <= k)%nat -> not_ready s w j = true) ->
  (forall j, (j < k)%nat -> elapsed w j <= MPRLS_READ_TIMEOUT) ->
  elapsed w k > MPRLS_READ_TIMEOUT ->
  (k < fuel)%nat ->
  exists s' w',
    readData fuel s w = Done 0xFFFFFFFF s' w' /\
    millis_calls w' = (millis_calls w + k + 2)%nat.
Proof.
  intros Hdev Hnot Hbefore Hafter Hfuel. unfold elapsed in *.
  run. rewrite Hdev. run. unfold not_ready in Hnot.
  destruct (Z.eqb_spec (_eoc s) (-1)) as [E|E]; cbn [negb].
  - edestruct (wait_status_timeout k fuel
                 (u32 (millis_tape w (millis_calls w))) s) as (s' & w' & Hrun & Hc);
      [exact Hdev | exact Hfuel | | | | rewrite Hrun; cbn [negb];
        exists s', w'; split; [reflexivity|]]; run.
    + intros j Hj. specialize (Hnot j Hj).
      apply negb_true_iff, Z.eqb_neq in Hnot. exact Hnot.
    + intros j Hj. apply Hbefore; exact Hj.
    + exact Hafter.
    + rewrite Hc. lia.
  - edestruct (wait_eoc_timeout k fuel
                 (u32 (millis_tape w (millis_calls w))) s) as (w' & Hrun & Hc);
      [exact Hfuel | | | | rewrite Hrun; cbn [negb];
        exists s, w'; split; [reflexivity|]]; run.
    + intros j Hj. specialize (Hnot j Hj).
      apply negb_true_iff in Hnot. exact Hnot.
    + intros j Hj. apply Hbefore; exact Hj.
    + exact Hafter.
    + rewrite Hc. lia.
Qed.

Lemma readData_timeout_witness :
  (exists s' w',
     readData 3 Samples.sensor_polled Samples.stuck_busy = Done 0xFFFFFFFF s' w' /\
     millis_calls w' = 4%nat) /\
  (exists s' w',
     readData 3 Samples.sensor_wired Samples.stuck_busy = Done 0xFFFFFFFF s' w' /\
     millis_calls w' = 4%nat).
Proof.
  split.
  - apply (readData_timeout Samples.sensor_polled Samples.stuck_busy
             MPRLS_DEFAULT_ADDR 2 3).
    + reflexivity.
    + intros j Hj. destruct j as [|[|[|j]]]; [reflexivity..|lia].
    + intros j Hj. destruct j as [|[|j]]; [vm_compute; discriminate..|lia].
    + vm_compute. reflexivity.
    + lia.
  - apply (readData_timeout Samples.sensor_wired Samples.stuck_busy
             MPRLS_DEFAULT_ADDR 2 3).
    + reflexivity.
    + intros j Hj. destruct j as [|[|[|j]]]; [reflexivity..|lia].
    + intros j Hj. destruct j as [|[|j]]; [vm_compute; discriminate..|lia].
    + vm_compute. reflexivity.
    + lia.
Defined.

(** C5. Whenever readData has read its frame of four bytes and the status
    byte of the frame has bit 0 (math saturation) or bit 2 (integrity
    failed) set, readData returns the sentinel 0xFFFFFFFF, whatever the
    three data bytes are. *)
Theorem readData_fault_sentinel fuel s w r s' w' st b1 b2 b3 tr :
  readData fuel s w = Done r s' w' ->
  trace w' = EvI2CRead [st; b1; b2; b3] :: tr ->
  Z.testbit st 0 = true \/ Z.testbit st 2 = true ->
  r = 0xFFFFFFFF.
Proof.
  intros Hrun Htrace Hfault.
  apply readData_inv in Hrun.
  destruct Hrun as [[Hr _] | (k & tr' & Htr & Hr)]; [exact Hr|].
  assert (Hframe : rx_frame w k 4 = [st; b1; b2; b3]) by congruence.
  rewrite Hr, Hframe. now apply decode_fault.
Qed.

Lemma readData_fault_sentinel_witness :
  exists r s' w' tr,
    readData 3 Samples.sensor_polled Samples.failed_frame = Done r s' w' /\
    trace w' = EvI2CRead [0x44; 0x12; 0x34; 0x56] :: tr /\
    r = 0xFFFFFFFF.
Proof.
  assert (E : exists r s' w' tr,
             readData 3 Samples.sensor_polled Samples.failed_frame = Done r s' w' /\
             trace w' = EvI2CRead [0x44; 0x12; 0x34; 0x56] :: tr)
    by (do 4 eexists; split; vm_compute; reflexivity).
  destruct E as (r & s' & w' & tr & Hrun & Htrace).
  exists r, s', w', tr. split; [exact Hrun|]. split; [exact Htrace|].
  apply (readData_fault_sentinel 3 Samples.sensor_polled Samples.failed_frame
           r s' w' 0x44 0x12 0x34 0x56 tr Hrun Htrace).
  right. reflexivity.
Defined.

(** C6. When the device acknowledges its address, begin returns [true] if
    and only if the status byte [stat] it reads satisfies
    [stat & 0b01100101 = 0b01000000]. *)
Theorem begin_ready_iff i2c_addr s w :
  ack_tape w (opens w) = true ->
  let stat := u8 (rx_tape w (rx_reads w) 0) in
  exists b s' w',
    begin i2c_addr s w = Done b s' w' /\
    (b = true <-> Z.land stat 0x65 = 0x40).
Proof.
  intros Hack stat. unfold begin. run. rewrite Hack. cbn [negb]. run.
  destruct (negb (_reset s =? -1)); destruct (negb (_eoc s =? -1)); run;
    do 3 eexists; (split; [reflexivity|]);
    cbn [nth app rx_frame map seq skipn];
    apply Z.eqb_eq.
Qed.

Lemma begin_ready_iff_witness :
  exists b s' w',
    begin MPRLS_DEFAULT_ADDR (Adafruit_MPRLS_default (ilp32 Samples.no_undef) 0)
          Samples.powered = Done b s' w' /\
    (b = true <-> Z.land (u8 0x40) 0x65 = 0x40).
Proof.
  apply (begin_ready_iff MPRLS_DEFAULT_ADDR
           (Adafruit_MPRLS_default (ilp32 Samples.no_undef) 0) Samples.powered).
  reflexivity.
Defined.

(** C7. The wait of readData, when it returns: without an end-of-conversion
    pin it has read the status at least once and [lastStatus] is the byte of
    the last of these reads; with a pin it has read no status and
    [lastStatus] is what it was. *)
Theorem wait_ready_lastStatus fuel t s w b s' w' :
  wait_ready fuel t s w = Done b s' w' ->
  (_eoc s = -1 ->
     (rx_reads w < rx_reads w')%nat /\
     lastStatus s' = u8 (rx_tape w (pred (rx_reads w')) 0)) /\
  (_eoc s <> -1 ->
     rx_reads w' = rx_reads w /\ lastStatus s' = lastStatus s).
Proof.
  intros H. apply wait_ready_inv in H.
  destruct H as (_ & _ & _ & Hpin & Hpoll). split.
  - intros E. destruct (Hpoll E) as [Hlt ->]. split; [exact Hlt|reflexivity].
  - intros E. destruct (Hpin E) as [-> Hrx]. split; [exact Hrx|reflexivity].
Qed.

Lemma wait_ready_lastStatus_witness :
  (exists b s' w',
     wait_ready 3 1000 Samples.sensor_polled Samples.busy_twice = Done b s' w' /\
     rx_reads w' = 3%nat /\
     lastStatus s' = u8 (rx_tape Samples.busy_twice (pred (rx_reads w')) 0)) /\
  (exists b s' w',
     wait_ready 5 1000 Samples.sensor_wired Samples.stuck_busy = Done b s' w' /\
     rx_reads w' = rx_reads Samples.stuck_busy /\
     lastStatus s' = lastStatus Samples.sensor_wired).
Proof.
  split.
  - assert (E : exists b s' w',
               wait_ready 3 1000 Samples.sensor_polled Samples.busy_twice
               = Done b s' w' /\ rx_reads w' = 3%nat)
      by (do 3 eexists; split; vm_compute; reflexivity).
    destruct E as (b & s' & w' & Hrun & Hreads).
    exists b, s', w'. split; [exact Hrun|]. split; [exact Hreads|].
    apply (wait_ready_lastStatus 3 1000 Samples.sensor_polled
             Samples.busy_twice b s' w' Hrun).
    reflexivity.
  - assert (E : exists b s' w',
               wait_ready 5 1000 Samples.sensor_wired Samples.stuck_busy
               = Done b s' w')
      by (do 3 eexists; vm_compute; reflexivity).
    destruct E as (b & s' & w' & Hrun).
    exists b, s', w'. split; [exact Hrun|].
    apply (wait_ready_lastStatus 5 1000 Samples.sensor_wired
             Samples.stuck_busy b s' w' Hrun).
    vm_compute. discriminate.
Defined.

(** C8.  [lastStatus] is 0 before each of these calls.  readStatus returns
    0x40 and leaves [lastStatus] at 0.  begin reads the status 0x44, fails,
    and leaves [lastStatus] at 0.  readData polls the status 0x40, then
    reads the frame 44 12 34 56, returns the sentinel for its fault bit, and
    leaves [lastStatus] at 0x40, the byte of the poll. *)
Theorem lastStatus_stale_after_reads :
  lastStatus Samples.sensor_polled = 0 /\
  (exists w',
     readStatus Samples.sensor_polled Samples.powered
     = Done 0x40 Samples.sensor_polled w') /\
  (exists s' w',
     begin MPRLS_DEFAULT_ADDR (Adafruit_MPRLS_default (ilp32 Samples.no_undef) 0)
           Samples.integrity_failed = Done false s' w' /\
     hd (EvDelay 0) (trace w') = EvI2CRead [0x44] /\
     lastStatus s' = 0) /\
  (exists s' w' tr,
     readData 3 Samples.sensor_polled Samples.failed_frame
     = Done 0xFFFFFFFF s' w' /\
     trace w' = EvI2CRead [0x44; 0x12; 0x34; 0x56] :: tr /\
     lastStatus s' = 0x40).
Proof.
  split; [reflexivity|]. split; [|split].
  - eexists. vm_compute. reflexivity.
  - do 2 eexists. split; [vm_compute; reflexivity|]. split; reflexivity.
  - do 3 eexists. split; [vm_compute; reflexivity|]. split; reflexivity.
Qed.

(** C9, as amended.  The constructor computes each count as
    [(uint32_t)(2^24 * (percent / 100.0) + 0.5)] in [double].  With the
    default percentages 10 and 90 the counts are 1677722 and 15099494, for
    both formats of [double].  Where [double] is binary64, the count is
    [round (2^24 * percent / 100)] for every [float] percentage from 0 to
    100.  Where [double] is binary32, the count is that or one more, for
    every whole percentage from 0 to 100.  The constructor is a total
    function of its arguments and does not touch the world. *)
Theorem output_counts_round undef :
  (forall junk,
     _OUTPUT_min (Adafruit_MPRLS_default (ilp32 undef) junk) = 1677722 /\
     _OUTPUT_max (Adafruit_MPRLS_default (ilp32 undef) junk) = 15099494 /\
     _OUTPUT_min (Adafruit_MPRLS_default (avr8 undef) junk) = 1677722 /\
     _OUTPUT_max (Adafruit_MPRLS_default (avr8 undef) junk) = 15099494) /\
  (forall pct,
     is_finite pct = true ->
     valid_binary 24 128 pct = true ->
     (0 <= SF2Q pct <= 100)%Q ->
     output_counts (ilp32 undef) pct = round_counts (SF2Q pct)) /\
  (forall p, 0 <= p <= 100 ->
     output_counts (avr8 undef) (of_Z binary32 p)
     = round_counts (SF2Q (of_Z binary32 p)) \/
     output_counts (avr8 undef) (of_Z binary32 p)
     = round_counts (SF2Q (of_Z binary32 p)) + 1).
Proof.
  split; [|split].
  - intros junk. repeat split; vm_compute; reflexivity.
  - apply output_counts_binary64.
  - intros p Hp.
    assert (H : (output_counts (avr8 undef) (of_Z binary32 p)
                 =? round_counts (SF2Q (of_Z binary32 p)))
                || (output_counts (avr8 undef) (of_Z binary32 p)
                    =? round_counts (SF2Q (of_Z binary32 p)) + 1) = true).
    { apply (whole_percentages_all
               (fun p => (output_counts (avr8 undef) (of_Z binary32 p)
                          =? round_counts (SF2Q (of_Z binary32 p)))
                         || (output_counts (avr8 undef) (of_Z binary32 p)
                             =? round_counts (SF2Q (of_Z binary32 p)) + 1)));
        [|exact Hp].
      vm_compute. reflexivity. }
    apply orb_true_iff in H. destruct H as [H|H]; apply Z.eqb_eq in H; auto.
Qed.

Lemma output_counts_round_witness :
  output_counts (ilp32 Samples.no_undef) (of_Z binary32 55)
  = round_counts (SF2Q (of_Z binary32 55)).
Proof.
  apply (proj1 (proj2 (output_counts_round Samples.no_undef))
           (of_Z binary32 55)).
  - reflexivity.
  - reflexivity.
  - split; vm_compute; discriminate.
Defined.

(** C9 as stated fails where [double] is binary32: for 55 % the sum
    9227469 + 0.5 is a tie and rounds to the even 9227470, whereas
    [round (2^24 * 0.55)] is 9227469. *)
Lemma output_counts_not_round :
  output_counts (avr8 Samples.no_undef) (of_Z binary32 55) = 9227470 /\
  round_counts (SF2Q (of_Z binary32 55)) = 9227469.
Proof.
  split; vm_compute; reflexivity.
Qed.

(** C10. Whenever readData has read its frame of four bytes and neither
    fault bit of the status byte is set, the value returned is
    [(b1 << 16) | (b2 << 8) | b3]; it is below 2^24 and hence differs from
    the sentinel 0xFFFFFFFF. *)
Theorem readData_success_range fuel s w r s' w' st b1 b2 b3 tr :
  readData fuel s w = Done r s' w' ->
  trace w' = EvI2CRead [st; b1; b2; b3] :: tr ->
  Z.testbit st 0 = false ->
  Z.testbit st 2 = false ->
  r = Z.lor (Z.lor (Z.shiftl b1 16) (Z.shiftl b2 8)) b3 /\
  0 <= r < 2 ^ 24 /\
  r <> 0xFFFFFFFF.
Proof.
  intros Hrun Htrace H0 H2.
  apply readData_inv in Hrun.
  destruct Hrun as [[_ (now & tr' & Htr)] | (k & tr' & Htr & Hr)].
  - rewrite Htr in Htrace. discriminate.
  - assert (Hframe : rx_frame w k 4 = [st; b1; b2; b3]) by congruence.
    assert (Hb : is_u8 b1 /\ is_u8 b2 /\ is_u8 b3).
    { unfold rx_frame in Hframe. cbn [map seq] in Hframe.
      injection Hframe as _ <- <- <-. repeat split; apply u8_range. }
    destruct Hb as (Hb1 & Hb2 & Hb3).
    rewrite Hframe in Hr.
    destruct (decode_data st b1 b2 b3 H0 H2 Hb1 Hb2 Hb3) as [Hval Hrange].
    rewrite <- Hr in Hval, Hrange.
    split; [exact Hval|]. split; [exact Hrange|].
    change (2 ^ 24) with 16777216 in Hrange. lia.
Qed.

Lemma readData_success_range_witness :
  exists r s' w' tr,
    readData 3 Samples.sensor_polled Samples.busy_twice = Done r s' w' /\
    trace w' = EvI2CRead [0x40; 0x80; 0x00; 0x00] :: tr /\
    r = Z.lor (Z.lor (Z.shiftl 0x80 16) (Z.shiftl 0x00 8)) 0x00 /\
    0 <= r < 2 ^ 24 /\
    r <> 0xFFFFFFFF.
Proof.
  assert (E : exists r s' w' tr,
             readData 3 Samples.sensor_polled Samples.busy_twice = Done r s' w' /\
             trace w' = EvI2CRead [0x40; 0x80; 0x00; 0x00] :: tr)
    by (do 4 eexists; split; vm_compute; reflexivity).
  destruct E as (r & s' & w' & tr & Hrun & Htrace).
  exists r, s', w', tr. split; [exact Hrun|]. split; [exact Htrace|].
  apply (readData_success_range 3 Samples.sensor_polled Samples.busy_twice
           r s' w' 0x40 0x80 0x00 0x00 tr Hrun Htrace); reflexivity.
Defined.

(** * More of the driver

    Properties of the methods beyond the claims above: the device pointer,
    what begin does to the hardware, the wait and the reading of readData,
    the accuracy of the conversion of readPressure, the counts of the
    constructor, and the example sketch. *)

(** ** The device pointer *)

Section Pointer.

Lemma readData_null fuel s w : i2c_dev s = None -> readData fuel s w = NullDeref.
Proof. intros H. run. rewrite H. reflexivity. Qed.

Lemma wait_eoc_not_null fuel : forall t s w, wait_eoc fuel t s w <> NullDeref.
Proof.
  induction fuel as [|fuel IH]; intros t s w; [discriminate|].
  cbn [wait_eoc]. run.
  destruct (pin_tape w (_eoc s) (pin_reads w)); [discriminate|].
  run. destruct (_ >? _); [discriminate | apply IH].
Qed.

Lemma wait_status_not_null fuel : forall t s w a,
  i2c_dev s = Some a -> wait_status fuel t s w <> NullDeref.
Proof.
  induction fuel as [|fuel IH]; intros t s w a Hdev; [discriminate|].
  cbn [wait_status]. run. rewrite Hdev. cbn [nth app rx_frame map seq skipn]. run.
  destruct (_ =? 0); [discriminate|]. run.
  destruct (_ >? _); [discriminate|]. apply (IH _ _ _ a). exact Hdev.
Qed.

Lemma wait_ready_not_null fuel t s w a :
  i2c_dev s = Some a -> wait_ready fuel t s w <> NullDeref.
Proof.
  intros Hdev. unfold wait_ready, bind, this.
  destruct (negb (_eoc s =? -1)).
  - apply wait_eoc_not_null.
  - now apply (wait_status_not_null fuel t s w a).
Qed.

Lemma readData_not_null fuel s w a :
  i2c_dev s = Some a -> readData fuel s w <> NullDeref.
Proof.
  intros Hdev. unfold readData, bind, i2c_write, i2c_read, millis, lift, ret.
  rewrite Hdev. cbn [hw_millis].
  match goal with
  | |- context [wait_ready ?f ?t ?s0 ?w0] =>
      pose proof (wait_ready_not_null f t s0 w0 a Hdev) as Hn;
      pose proof (wait_ready_inv f t s0 w0) as Hinv;
      destruct (wait_ready f t s0 w0) as [ready s1 w1| |]
  end; try congruence.
  destruct (Hinv ready s1 w1 eq_refl) as (_ & Hdev1 & _).
  destruct ready; cbn [negb]; [|discriminate].
  rewrite Hdev1, Hdev. cbn [hw_i2c_read]. discriminate.
Qed.

(** What begin returns and what it leaves of the object. *)
Lemma begin_result a s w :
  exists w',
    begin a s w
    = Done (ack_tape w (opens w)
            && (Z.land (u8 (rx_tape w (rx_reads w) 0)) MPRLS_STATUS_MASK
                =? MPRLS_STATUS_POWERED))
           (set_i2c_dev (Some a) s) w'.
Proof.
  unfold begin. run. destruct (ack_tape w (opens w)); cbn [negb andb]; run.
  - destruct (negb (_reset s =? -1)); destruct (negb (_eoc s =? -1)); run;
      eexists; reflexivity.
  - eexists; reflexivity.
Qed.

End Pointer.

(** X1.  On an object whose [i2c_dev] is the null pointer, as the
    constructor leaves it, readStatus, readData and readPressure
    dereference the null pointer, at their first bus transaction and
    whatever the world is. *)
Theorem reads_before_begin P fuel s w :
  i2c_dev s = None ->
  readStatus s w = NullDeref /\
  readData fuel s w = NullDeref /\
  readPressure P fuel s w = NullDeref.
Proof.
  intros H. split; [|split].
  - run. rewrite H. reflexivity.
  - now apply readData_null.
  - unfold readPressure, bind. rewrite readData_null by exact H. reflexivity.
Qed.

Lemma reads_before_begin_witness :
  let s := Adafruit_MPRLS_default (ilp32 Samples.no_undef) 0 in
  readStatus s Samples.powered = NullDeref /\
  readData 3 s Samples.powered = NullDeref /\
  readPressure (ilp32 Samples.no_undef) 3 s Samples.powered = NullDeref.
Proof.
  apply (reads_before_begin (ilp32 Samples.no_undef) 3
           (Adafruit_MPRLS_default (ilp32 Samples.no_undef) 0) Samples.powered).
  reflexivity.
Defined.

(** X2.  begin always returns, whatever the object and the world are.  It
    changes nothing of the object but [i2c_dev], which it binds to the
    address, also when it returns [false]; after it readStatus returns
    and readPressure does not dereference the null pointer. *)
Theorem begin_binds_device a s w :
  exists b w',
    begin a s w = Done b (set_i2c_dev (Some a) s) w' /\
    (forall w2, exists st w3,
        readStatus (set_i2c_dev (Some a) s) w2
        = Done st (set_i2c_dev (Some a) s) w3) /\
    (forall P fuel w2,
        readPressure P fuel (set_i2c_dev (Some a) s) w2 <> NullDeref).
Proof.
  destruct (begin_result a s w) as (w' & Hrun).
  do 2 eexists. split; [exact Hrun|]. split.
  - intros w2. run. do 2 eexists. reflexivity.
  - intros P fuel w2. unfold readPressure, bind.
    pose proof (readData_not_null fuel (set_i2c_dev (Some a) s) w2 a eq_refl) as Hn.
    destruct (readData fuel (set_i2c_dev (Some a) s) w2) as [r s1 w1| |];
      try discriminate. congruence.
Qed.

(** ** What begin does to the hardware *)

(** X3.  When the device does not acknowledge its address, begin returns
    [false] after the probe of the bus alone: it touches no pin, waits for
    nothing and reads no status. *)
Theorem begin_without_ack a s w :
  ack_tape w (opens w) = false ->
  exists w',
    begin a s w = Done false (set_i2c_dev (Some a) s) w' /\
    trace w' = EvI2CBegin a false :: trace w /\
    rx_reads w' = rx_reads w /\ pin_reads w' = pin_reads w /\
    millis_calls w' = millis_calls w.
Proof.
  intros Hack. unfold begin. run. rewrite Hack. cbn [negb]. run.
  eexists. split; [reflexivity|]. run. repeat split; reflexivity.
Qed.

Lemma begin_without_ack_witness :
  exists w',
    begin MPRLS_DEFAULT_ADDR Scenes.fully_wired Scenes.absent
    = Done false (set_i2c_dev (Some MPRLS_DEFAULT_ADDR) Scenes.fully_wired) w' /\
    trace w' = EvI2CBegin MPRLS_DEFAULT_ADDR false :: trace Scenes.absent /\
    rx_reads w' = rx_reads Scenes.absent /\
    pin_reads w' = pin_reads Scenes.absent /\
    millis_calls w' = millis_calls Scenes.absent.
Proof.
  apply (begin_without_ack MPRLS_DEFAULT_ADDR Scenes.fully_wired Scenes.absent).
  reflexivity.
Defined.

(** X4.  When the device acknowledges, the calls of begin are, in order:
    the probe; with a reset pin, the pulse (output mode, high, low, 10 ms,
    high); with an end-of-conversion pin, its input mode; 10 ms of delay;
    one read of one status byte.  begin writes nothing to the bus and
    reads neither a pin nor the clock. *)
Theorem begin_sequence a s w :
  ack_tape w (opens w) = true ->
  exists b w',
    begin a s w = Done b (set_i2c_dev (Some a) s) w' /\
    rev (trace w') =
      rev (trace w) ++ EvI2CBegin a true :: begin_pins s ++
      [EvDelay 10; EvI2CRead [u8 (rx_tape w (rx_reads w) 0)]] /\
    rx_reads w' = S (rx_reads w) /\ millis_calls w' = millis_calls w /\
    pin_reads w' = pin_reads w.
Proof.
  intros Hack. unfold begin, begin_pins, reset_pulse. run.
  rewrite Hack. cbn [negb]. run.
  destruct (_reset s =? -1); destruct (_eoc s =? -1); cbn [negb]; run;
    do 2 eexists; (split; [reflexivity|]); run;
    cbn [rev rx_frame map seq app]; rewrite <- ?app_assoc; cbn [app];
    repeat split; reflexivity.
Qed.

Lemma begin_sequence_witness :
  exists b w',
    begin MPRLS_DEFAULT_ADDR Scenes.fully_wired Samples.powered
    = Done b (set_i2c_dev (Some MPRLS_DEFAULT_ADDR) Scenes.fully_wired) w' /\
    rev (trace w') =
      [EvI2CBegin MPRLS_DEFAULT_ADDR true;
       EvPinMode 4 OUTPUT; EvDigitalWrite 4 HIGH; EvDigitalWrite 4 LOW;
       EvDelay 10; EvDigitalWrite 4 HIGH; EvPinMode 5 INPUT;
       EvDelay 10; EvI2CRead [0x40]].
Proof.
  destruct (begin_sequence MPRLS_DEFAULT_ADDR Scenes.fully_wired Samples.powered
              eq_refl) as (b & w' & Hrun & Htrace & _).
  exists b, w'. split; [exact Hrun | exact Htrace].
Defined.

(** ** The wait of readData *)

Section WaitTrace.

(** What a wait adds to the trace are readings only. *)
Lemma wait_eoc_polls fuel : forall t s w b s' w',
  wait_eoc fuel t s w = Done b s' w' ->
  exists polls, trace w' = polls ++ trace w /\ forallb is_poll polls = true.
Proof.
  induction fuel as [|fuel IH]; intros t s w b s' w' H.
  - discriminate.
  - cbn [wait_eoc] in H. run. case_if H.
    + injection H as <- <- <-. run.
      exists [EvDigitalRead (_eoc s) true]. split; reflexivity.
    + case_if H.
      * injection H as <- <- <-. run.
        eexists [EvMillis _; EvDigitalRead (_eoc s) false]. split; reflexivity.
      * apply IH in H. run. destruct H as (polls & -> & Hp).
        eexists (polls ++ [EvMillis _; EvDigitalRead (_eoc s) false]).
        rewrite <- app_assoc. split; [reflexivity|].
        rewrite forallb_app, Hp. reflexivity.
Qed.

Lemma wait_status_polls fuel : forall t s w b s' w',
  wait_status fuel t s w = Done b s' w' ->
  exists polls, trace w' = polls ++ trace w /\ forallb is_poll polls = true.
Proof.
  induction fuel as [|fuel IH]; intros t s w b s' w' H.
  - discriminate.
  - cbn [wait_status] in H. run.
    destruct (i2c_dev s) eqn:Hdev; [|discriminate].
    cbn [nth app rx_frame map seq skipn] in H. case_if H.
    + injection H as <- <- <-. run.
      eexists [EvI2CRead _]. split; reflexivity.
    + case_if H.
      * injection H as <- <- <-. run.
        eexists [EvMillis _; EvI2CRead _]. split; reflexivity.
      * apply IH in H. run. destruct H as (polls & -> & Hp).
        eexists (polls ++ [EvMillis _; EvI2CRead _]).
        rewrite <- app_assoc. split; [reflexivity|].
        rewrite forallb_app, Hp. reflexivity.
Qed.

Lemma wait_ready_polls fuel t s w b s' w' :
  wait_ready fuel t s w = Done b s' w' ->
  exists polls, trace w' = polls ++ trace w /\ forallb is_poll polls = true.
Proof.
  intros H. run. destruct (negb (_eoc s =? -1)).
  - now apply wait_eoc_polls in H.
  - now apply wait_status_polls in H.
Qed.

End WaitTrace.

(** X5.  A call of readData that returns has sent one command, the three
    bytes AA 00 00, has read the clock right after it, and from then on has
    only read: the pin, the clock and the bus.  It writes nothing else to
    the bus, drives no pin and never calls delay.  With an
    end-of-conversion pin it reads the bus at most once, for the frame. *)
Theorem readData_one_command fuel s w r s' w' :
  readData fuel s w = Done r s' w' ->
  exists polls t,
    trace w' = polls ++ EvMillis t :: EvI2CWrite [0xAA; 0; 0] :: trace w /\
    forallb is_poll polls = true /\
    (_eoc s <> -1 -> (rx_reads w' <= S (rx_reads w))%nat).
Proof.
  intros H. run. destruct (i2c_dev s) eqn:Hdev; [|discriminate].
  match type of H with
  | match ?m with _ => _ end = _ => destruct m as [ready s1 w1| |] eqn:Hwait
  end; try discriminate.
  pose proof (wait_ready_inv _ _ _ _ _ _ _ Hwait) as (_ & Hdev1 & _ & Hpin & _).
  apply wait_ready_polls in Hwait. run.
  destruct Hwait as (polls & Htr & Hp).
  destruct ready; cbn [negb] in H.
  - rewrite Hdev1, Hdev in H. run. injection H as <- <- <-. run.
    eexists (EvI2CRead _ :: polls), _. rewrite Htr. cbn [firstn].
    split; [reflexivity|]. split; [cbn [forallb is_poll]; exact Hp|].
    intros Heoc. destruct (Hpin Heoc) as [_ ->]. lia.
  - injection H as <- <- <-. exists polls. eexists. rewrite Htr. cbn [firstn].
    split; [reflexivity|]. split; [exact Hp|].
    intros Heoc. destruct (Hpin Heoc) as [_ ->]. lia.
Qed.

Lemma readData_one_command_witness :
  exists r s' w' polls t,
    readData 3 Samples.sensor_polled Samples.busy_twice = Done r s' w' /\
    trace w' = polls ++ EvMillis t :: EvI2CWrite [0xAA; 0; 0]
                     :: trace Samples.busy_twice /\
    forallb is_poll polls = true.
Proof.
  assert (E : exists r s' w',
             readData 3 Samples.sensor_polled Samples.busy_twice = Done r s' w')
    by (do 3 eexists; vm_compute; reflexivity).
  destruct E as (r & s' & w' & Hrun).
  destruct (readData_one_command 3 Samples.sensor_polled Samples.busy_twice
              r s' w' Hrun) as (polls & t & Htrace & Hpolls & _).
  exists r, s', w', polls, t. auto.
Defined.

(** X6.  readData returns whatever the sensor does, once the clock shows
    the timeout exceeded.  [d j] is the time between the reading of the
    clock taken after the command and the [j]-th reading taken in the wait:
    if it is at most 20 for [j < k] and more than 20 (and less than 2^32)
    for [j = k], the call returns after at most [k + 2] readings of the
    clock, wherever the 32-bit counter wraps in between. *)
Theorem readData_returns_in_time s w a (d : nat -> Z) k fuel :
  i2c_dev s = Some a ->
  (forall j, (j <= k)%nat ->
     millis_tape w (S (millis_calls w) + j)
     = millis_tape w (millis_calls w) + d j) ->
  (forall j, (j < k)%nat -> 0 <= d j <= MPRLS_READ_TIMEOUT) ->
  MPRLS_READ_TIMEOUT < d k < 2 ^ 32 ->
  (k < fuel)%nat ->
  exists r s' w',
    readData fuel s w = Done r s' w' /\
    (millis_calls w' <= millis_calls w + k + 2)%nat.
Proof.
  intros Hdev Htape Hbefore Hafter Hfuel.
  assert (Hel : forall j, (j <= k)%nat ->
            u32 (u32 (millis_tape w (S (millis_calls w) + j))
                 - u32 (millis_tape w (millis_calls w))) = d j).
  { intros j Hj. rewrite (Htape j Hj). apply u32_difference.
    unfold MPRLS_READ_TIMEOUT in *. change (2 ^ 32) with 4294967296 in *.
    destruct (Nat.eq_dec j k) as [->|Hne]; [lia|].
    pose proof (Hbefore j ltac:(lia)). lia. }
  run. rewrite Hdev. run.
  destruct (negb (_eoc s =? -1)).
  - match goal with
    | |- context [wait_eoc ?f ?t ?s0 ?w0] =>
        destruct (wait_eoc_returns k f t s0 w0) as (b & w' & Hrun & Hc);
          [exact Hfuel | | | rewrite Hrun]
    end; run.
    + intros j Hj. rewrite (Hel j ltac:(lia)). apply Hbefore. exact Hj.
    + rewrite (Hel k ltac:(lia)). lia.
    + destruct b; cbn [negb]; run.
      * rewrite Hdev. run. do 3 eexists. split; [reflexivity|]. run. lia.
      * do 3 eexists. split; [reflexivity|]. lia.
  - match goal with
    | |- context [wait_status ?f ?t ?s0 ?w0] =>
        destruct (wait_status_returns k f t s0 w0 a) as (b & s' & w' & Hrun & Hc);
          [exact Hdev | exact Hfuel | | | ]
    end; run.
    + intros j Hj. rewrite (Hel j ltac:(lia)). apply Hbefore. exact Hj.
    + rewrite (Hel k ltac:(lia)). lia.
    + pose proof (wait_status_inv _ _ _ _ _ _ _ Hrun) as (_ & _ & Hs & _).
      rewrite Hrun. destruct b; cbn [negb]; run.
      * rewrite Hs. run. rewrite Hdev. run.
        do 3 eexists. split; [reflexivity|]. run. lia.
      * do 3 eexists. split; [reflexivity|]. lia.
Qed.

Lemma readData_returns_in_time_witness :
  exists r s' w',
    readData 3 Samples.sensor_polled Scenes.about_to_wrap = Done r s' w' /\
    (millis_calls w' <= millis_calls Scenes.about_to_wrap + 2 + 2)%nat.
Proof.
  apply (readData_returns_in_time Samples.sensor_polled Scenes.about_to_wrap
           MPRLS_DEFAULT_ADDR (fun j => 7 * Z.of_nat (S j)) 2 3).
  - reflexivity.
  - intros j Hj. cbn [Scenes.about_to_wrap millis_tape millis_calls].
    unfold Scenes.clock_wrapping. lia.
  - intros j Hj. unfold MPRLS_READ_TIMEOUT. lia.
  - unfold MPRLS_READ_TIMEOUT. change (2 ^ 32) with 4294967296. lia.
  - lia.
Defined.

Section Ready.

(** The pin reads low at the first [k] polls and high at the next, and no
    reading of the clock before that shows the timeout exceeded. *)
Lemma wait_eoc_ready k : forall fuel t s w,
  (k < fuel)%nat ->
  (forall j, (j < k)%nat -> pin_tape w (_eoc s) (pin_reads w + j) = false) ->
  pin_tape w (_eoc s) (pin_reads w + k) = true ->
  (forall j, (j < k)%nat ->
     u32 (u32 (millis_tape w (millis_calls w + j)) - t) <= MPRLS_READ_TIMEOUT) ->
  exists w', wait_eoc fuel t s w = Done true s w' /\
             millis_calls w' = (millis_calls w + k)%nat /\
             rx_reads w' = rx_reads w /\ rx_tape w' = rx_tape w.
Proof.
  induction k as [|k IH]; intros fuel t s w Hfuel Hlow Hhigh Hbefore;
    (destruct fuel as [|fuel]; [lia|]); cbn [wait_eoc]; run.
  - rewrite Nat.add_0_r in Hhigh. rewrite Hhigh.
    eexists; split; [reflexivity|]. run. repeat split; lia.
  - pose proof (Hlow O ltac:(lia)) as Hp0. rewrite Nat.add_0_r in Hp0.
    rewrite Hp0. run.
    pose proof (Hbefore O ltac:(lia)) as Hb0. rewrite Nat.add_0_r in Hb0.
    rewrite (gtb_false_of_le _ _ Hb0).
    match goal with
    | |- context [wait_eoc ?f ?t0 ?s0 ?w0] =>
        destruct (IH f t0 s0 w0) as (w' & Hrun & Hc & Hrx & Htape)
    end; run.
    + lia.
    + intros j Hj.
      replace (S (pin_reads w) + j)%nat with (pin_reads w + S j)%nat by lia.
      apply Hlow. lia.
    + replace (S (pin_reads w) + k)%nat with (pin_reads w + S k)%nat by lia.
      exact Hhigh.
    + intros j Hj.
      replace (S (millis_calls w) + j)%nat with (millis_calls w + S j)%nat by lia.
      apply Hbefore. lia.
    + exists w'. repeat split; auto. lia.
Qed.

Lemma wait_status_ready k : forall fuel t s w a,
  i2c_dev s = Some a ->
  (k < fuel)%nat ->
  (forall j, (j < k)%nat ->
     Z.land (u8 (rx_tape w (rx_reads w + j) 0)) MPRLS_STATUS_BUSY <> 0) ->
  Z.land (u8 (rx_tape w (rx_reads w + k) 0)) MPRLS_STATUS_BUSY = 0 ->
  (forall j, (j < k)%nat ->
     u32 (u32 (millis_tape w (millis_calls w + j)) - t) <= MPRLS_READ_TIMEOUT) ->
  exists w', wait_status fuel t s w
             = Done true (set_lastStatus (u8 (rx_tape w (rx_reads w + k) 0)) s) w' /\
             millis_calls w' = (millis_calls w + k)%nat /\
             rx_reads w' = (rx_reads w + k + 1)%nat /\ rx_tape w' = rx_tape w.
Proof.
  induction k as [|k IH]; intros fuel t s w a Hdev Hfuel Hbusy Hidle Hbefore;
    (destruct fuel as [|fuel]; [lia|]); cbn [wait_status]; run;
    rewrite Hdev; cbn [nth app rx_frame map seq skipn]; run.
  - rewrite Nat.add_0_r in *. rewrite Hidle. cbn [Z.eqb].
    eexists; split; [reflexivity|]. run. repeat split; lia.
  - pose proof (Hbusy O ltac:(lia)) as Hb. rewrite Nat.add_0_r in Hb.
    apply Z.eqb_neq in Hb. rewrite Hb. run.
    pose proof (Hbefore O ltac:(lia)) as Hb0. rewrite Nat.add_0_r in Hb0.
    rewrite (gtb_false_of_le _ _ Hb0).
    match goal with
    | |- context [wait_status ?f ?t0 ?s0 ?w0] =>
        destruct (IH f t0 s0 w0 a) as (w' & Hrun & Hc & Hrx & Htape)
    end; run.
    + exact Hdev.
    + lia.
    + intros j Hj.
      replace (S (rx_reads w) + j)%nat with (rx_reads w + S j)%nat by lia.
      apply Hbusy. lia.
    + replace (S (rx_reads w) + k)%nat with (rx_reads w + S k)%nat by lia.
      exact Hidle.
    + intros j Hj.
      replace (S (millis_calls w) + j)%nat with (millis_calls w + S j)%nat by lia.
      apply Hbefore. lia.
    + exists w'. rewrite Hrun.
      replace (S (rx_reads w) + k)%nat with (rx_reads w + S k)%nat by lia.
      repeat split; auto; lia.
Qed.

End Ready.

(** X7.  The sensor is not ready at the first [k] polls of the wait and
    ready at the next, and no reading of the clock before that shows more
    than 20 elapsed.  Then readData returns what the frame read right after
    the wait decodes to, and readPressure the conversion of that.  The
    clock has been read [k + 1] times; [lastStatus] is the byte of the last
    status poll, or what it was when the pin is polled. *)
Theorem readData_when_ready P s w a k fuel :
  i2c_dev s = Some a ->
  (forall j, (j < k)%nat -> not_ready s w j = true) ->
  not_ready s w k = false ->
  (forall j, (j < k)%nat -> elapsed w j <= MPRLS_READ_TIMEOUT) ->
  (k < fuel)%nat ->
  let frame := rx_frame w (rx_reads w + polls_until s k) 4 in
  let s' := if _eoc s =? -1
            then set_lastStatus (u8 (rx_tape w (rx_reads w + k) 0)) s
            else s in
  exists w',
    readData fuel s w = Done (decode frame) s' w' /\
    readPressure P fuel s w
    = Done (pressure_of_raw P s (decode frame)) s' w' /\
    millis_calls w' = (millis_calls w + k + 1)%nat /\
    rx_reads w' = (rx_reads w + polls_until s k + 1)%nat.
Proof.
  intros Hdev Hnot Hready Hbefore Hfuel frame s'.
  assert (Hdata : exists w',
             readData fuel s w = Done (decode frame) s' w' /\
             millis_calls w' = (millis_calls w + k + 1)%nat /\
             rx_reads w' = (rx_reads w + polls_until s k + 1)%nat).
  { unfold frame, s', elapsed, polls_until in *.
    run. rewrite Hdev. run. unfold not_ready in Hnot, Hready.
    destruct (Z.eqb_spec (_eoc s) (-1)) as [E|E]; cbn [negb].
    - match goal with
      | |- context [wait_status ?f ?t0 ?s0 ?w0] =>
          destruct (wait_status_ready k f t0 s0 w0 a)
            as (w' & Hrun & Hc & Hrx & Htape)
      end; run; try assumption.
      + intros j Hj. specialize (Hnot j Hj).
        apply negb_true_iff, Z.eqb_neq in Hnot. exact Hnot.
      + apply negb_false_iff, Z.eqb_eq in Hready. exact Hready.
      + rewrite Hrun. cbn [negb]. run. rewrite Hdev. run.
        eexists. split.
        * unfold rx_frame. rewrite Htape, Hrx.
          replace (rx_reads w + S k)%nat with (rx_reads w + k + 1)%nat by lia.
          reflexivity.
        * run. split; lia.
    - match goal with
      | |- context [wait_eoc ?f ?t0 ?s0 ?w0] =>
          destruct (wait_eoc_ready k f t0 s0 w0)
            as (w' & Hrun & Hc & Hrx & Htape)
      end; run; try assumption.
      + intros j Hj. specialize (Hnot j Hj).
        apply negb_true_iff in Hnot. exact Hnot.
      + apply negb_false_iff in Hready. exact Hready.
      + rewrite Hrun. cbn [negb]. run. rewrite Hdev. run.
        eexists. split.
        * unfold rx_frame. rewrite Htape, Hrx, Nat.add_0_r. reflexivity.
        * run. split; lia. }
  destruct Hdata as (w' & Hrun & Hc & Hrx).
  exists w'. split; [exact Hrun|]. split; [|split; assumption].
  unfold readPressure, bind, this, ret. rewrite Hrun.
  replace (pressure_of_raw P s' (decode frame))
    with (pressure_of_raw P s (decode frame)); [reflexivity|].
  unfold s'. destruct (_eoc s =? -1); reflexivity.
Qed.

Lemma readData_when_ready_witness :
  exists w',
    readData 3 Samples.sensor_polled Samples.busy_twice
    = Done 0x800000 (set_lastStatus 0x40 Samples.sensor_polled) w' /\
    readPressure (ilp32 Samples.no_undef) 3 Samples.sensor_polled
                 Samples.busy_twice
    = Done (pressure_of_raw (ilp32 Samples.no_undef) Samples.sensor_polled
                            0x800000)
           (set_lastStatus 0x40 Samples.sensor_polled) w' /\
    millis_calls w' = 3%nat /\
    rx_reads w' = 4%nat.
Proof.
  apply (readData_when_ready (ilp32 Samples.no_undef) Samples.sensor_polled
           Samples.busy_twice MPRLS_DEFAULT_ADDR 2 3).
  - reflexivity.
  - intros j Hj. destruct j as [|[|j]]; [reflexivity..|lia].
  - reflexivity.
  - intros j Hj. destruct j as [|[|j]]; [vm_compute; discriminate..|lia].
  - lia.
Defined.

Section StatusLoop.

(** The status loop is left at its condition exactly when the byte it
    stored last has the busy bit clear. *)
Lemma wait_status_busy fuel : forall t s w b s' w',
  wait_status fuel t s w = Done b s' w' ->
  (Z.land (lastStatus s') MPRLS_STATUS_BUSY =? 0) = b.
Proof.
  induction fuel as [|fuel IH]; intros t s w b s' w' H.
  - discriminate.
  - cbn [wait_status] in H. run.
    destruct (i2c_dev s) eqn:Hdev; [|discriminate].
    cbn [nth app rx_frame map seq skipn] in H. case_if H.
    + injection H as <- <- <-. run. assumption.
    + case_if H.
      * injection H as <- <- <-. run. assumption.
      * apply IH in H. exact H.
Qed.

End StatusLoop.

(** X8.  Without an end-of-conversion pin, [lastStatus] tells a timeout
    from a reading: after a call of readData that returns, its busy bit is
    set exactly when the call gave up waiting (it then returns the
    sentinel, having read no frame), and clear exactly when the call read
    its frame and returns what the frame decodes to. *)
Theorem lastStatus_tells_timeout fuel s w r s' w' :
  readData fuel s w = Done r s' w' ->
  _eoc s = -1 ->
  (Z.land (lastStatus s') MPRLS_STATUS_BUSY <> 0 ->
     r = 0xFFFFFFFF /\ exists now tr, trace w' = EvMillis now :: tr) /\
  (Z.land (lastStatus s') MPRLS_STATUS_BUSY = 0 ->
     exists frame tr, trace w' = EvI2CRead frame :: tr /\ r = decode frame).
Proof.
  intros H Heoc. run. destruct (i2c_dev s) eqn:Hdev; [|discriminate].
  rewrite Heoc in H. cbn [Z.eqb negb] in H.
  match type of H with
  | match ?m with _ => _ end = _ => destruct m as [ready s1 w1| |] eqn:Hwait
  end; try discriminate.
  pose proof (wait_status_busy _ _ _ _ _ _ _ Hwait) as Hb.
  pose proof (wait_status_inv _ _ _ _ _ _ _ Hwait) as (_ & _ & Hs1 & Htr).
  destruct ready; cbn [negb] in H.
  - assert (Hd1 : i2c_dev s1 = Some z) by (rewrite Hs1; exact Hdev).
    rewrite Hd1 in H. run. injection H as <- <- <-. run.
    apply Z.eqb_eq in Hb. split; [intros Hn; contradiction|].
    intros _. do 2 eexists. split; reflexivity.
  - injection H as <- <- <-. apply Z.eqb_neq in Hb. split.
    + intros _. split; [reflexivity|]. now apply Htr.
    + intros Hz. contradiction.
Qed.

Lemma lastStatus_tells_timeout_witness :
  exists s' w' now tr,
    readData 3 Samples.sensor_polled Samples.stuck_busy
    = Done 0xFFFFFFFF s' w' /\
    lastStatus s' = 0x60 /\
    trace w' = EvMillis now :: tr.
Proof.
  assert (E : exists s' w',
             readData 3 Samples.sensor_polled Samples.stuck_busy
             = Done 0xFFFFFFFF s' w' /\ lastStatus s' = 0x60)
    by (do 2 eexists; split; vm_compute; reflexivity).
  destruct E as (s' & w' & Hrun & Hlast).
  destruct (lastStatus_tells_timeout 3 Samples.sensor_polled Samples.stuck_busy
              0xFFFFFFFF s' w' Hrun eq_refl) as [Hbusy _].
  destruct Hbusy as (_ & now & tr & Htrace).
  - rewrite Hlast. vm_compute. discriminate.
  - exists s', w', now, tr. auto.
Defined.

(** ** The reading *)

Section Bytes.

Lemma testbit_above b n i : 0 <= b < 2 ^ n -> n <= i -> Z.testbit b i = false.
Proof.
  intros Hb Hi. destruct (Z.eq_dec b 0) as [->|Hnz]; [apply Z.bits_0|].
  apply Z.bits_above_log2; [lia|].
  assert (Z.log2 b < n) by (apply Z.log2_lt_pow2; lia). lia.
Qed.

(** Joining a shifted value and a value that fits below the shift. *)
Lemma lor_shiftl_add a b n :
  0 <= n -> 0 <= b < 2 ^ n -> Z.lor (Z.shiftl a n) b = a * 2 ^ n + b.
Proof.
  intros Hn Hb.
  assert (Hland : Z.land (Z.shiftl a n) b = 0).
  { apply Z.bits_inj'. intros i Hi. rewrite Z.land_spec, Z.bits_0.
    destruct (Z_lt_le_dec i n) as [Hlt|Hge].
    - rewrite Z.shiftl_spec_low by exact Hlt. reflexivity.
    - rewrite (testbit_above b n i Hb Hge). apply andb_false_r. }
  rewrite <- Z.lxor_lor by exact Hland.
  rewrite <- Z.add_nocarry_lxor by exact Hland.
  rewrite Z.shiftl_mul_pow2 by exact Hn. reflexivity.
Qed.

End Bytes.

(** The value and the bytes of a healthy frame. *)
Lemma decode_bytes st b1 b2 b3 :
  Z.testbit st 0 = false -> Z.testbit st 2 = false ->
  is_u8 b1 -> is_u8 b2 -> is_u8 b3 ->
  let r := decode [st; b1; b2; b3] in
  r = b1 * 65536 + b2 * 256 + b3 /\
  Z.land (Z.shiftr r 16) 0xFF = b1 /\
  Z.land (Z.shiftr r 8) 0xFF = b2 /\
  Z.land r 0xFF = b3.
Proof.
  intros H0 H2 Hb1 Hb2 Hb3 r.
  destruct (decode_data st b1 b2 b3 H0 H2 Hb1 Hb2 Hb3) as [Hr _].
  unfold is_u8 in *. change (2 ^ 8) with 256 in *.
  assert (Hval : r = b1 * 65536 + b2 * 256 + b3).
  { unfold r. rewrite Hr.
    rewrite (Z.shiftl_mul_pow2 b1 16) by lia. change (2 ^ 16) with (256 * 2 ^ 8).
    rewrite Z.mul_assoc, <- (Z.shiftl_mul_pow2 (b1 * 256) 8) by lia.
    rewrite <- Z.shiftl_lor.
    rewrite (lor_shiftl_add _ b3 8) by (change (2 ^ 8) with 256; lia).
    change (2 ^ 8) with 256.
    replace (Z.lor (b1 * 256) b2) with (b1 * 256 + b2); [lia|].
    symmetry. change 256 with (2 ^ 8) at 1.
    rewrite <- (Z.shiftl_mul_pow2 b1 8) by lia.
    rewrite (lor_shiftl_add _ b2 8) by (change (2 ^ 8) with 256; lia).
    reflexivity. }
  split; [exact Hval|].
  change 0xFF with (Z.ones 8). rewrite !Z.land_ones, !Z.shiftr_div_pow2 by lia.
  change (2 ^ 16) with 65536. change (2 ^ 8) with 256.
  rewrite Hval. repeat split.
  - replace (b1 * 65536 + b2 * 256 + b3) with (b1 * 65536 + (b2 * 256 + b3)) by lia.
    rewrite Z.div_add_l by lia. rewrite (Z.div_small (b2 * 256 + b3)) by lia.
    rewrite Z.add_0_r. apply Z.mod_small. lia.
  - replace (b1 * 65536 + b2 * 256 + b3) with ((b1 * 256 + b2) * 256 + b3) by lia.
    rewrite Z.div_add_l by lia. rewrite (Z.div_small b3) by lia.
    rewrite Z.add_0_r, Z.add_comm, Z.mod_add by lia. apply Z.mod_small. lia.
  - replace (b1 * 65536 + b2 * 256 + b3) with (b3 + (b1 * 256 + b2) * 256) by lia.
    rewrite Z.mod_add by lia. apply Z.mod_small. lia.
Qed.

(** X9.  A reading can be taken apart again.  When readData has read a
    frame without a fault bit, the value it returns is
    [b1 * 65536 + b2 * 256 + b3], most significant byte first, and each of
    the three data bytes is recovered from it by a shift and a mask; so
    two frames with different data bytes give different readings. *)
Theorem readData_bytes fuel s w r s' w' st b1 b2 b3 tr :
  readData fuel s w = Done r s' w' ->
  trace w' = EvI2CRead [st; b1; b2; b3] :: tr ->
  Z.testbit st 0 = false ->
  Z.testbit st 2 = false ->
  r = b1 * 65536 + b2 * 256 + b3 /\
  Z.land (Z.shiftr r 16) 0xFF = b1 /\
  Z.land (Z.shiftr r 8) 0xFF = b2 /\
  Z.land r 0xFF = b3.
Proof.
  intros Hrun Htrace H0 H2.
  apply readData_inv in Hrun.
  destruct Hrun as [[_ (now & tr' & Htr)] | (k & tr' & Htr & Hr)].
  - rewrite Htr in Htrace. discriminate.
  - assert (Hframe : rx_frame w k 4 = [st; b1; b2; b3]) by congruence.
    assert (Hb : is_u8 b1 /\ is_u8 b2 /\ is_u8 b3).
    { unfold rx_frame in Hframe. cbn [map seq] in Hframe.
      injection Hframe as _ <- <- <-. repeat split; apply u8_range. }
    destruct Hb as (Hb1 & Hb2 & Hb3).
    rewrite Hframe in Hr. rewrite Hr.
    apply decode_bytes; assumption.
Qed.

Lemma readData_bytes_witness :
  exists r s' w' tr,
    readData 3 Samples.sensor_polled Samples.busy_twice = Done r s' w' /\
    trace w' = EvI2CRead [0x40; 0x80; 0x00; 0x00] :: tr /\
    r = 0x80 * 65536 + 0x00 * 256 + 0x00 /\
    Z.land (Z.shiftr r 16) 0xFF = 0x80 /\
    Z.land (Z.shiftr r 8) 0xFF = 0x00 /\
    Z.land r 0xFF = 0x00.
Proof.
  assert (E : exists r s' w' tr,
             readData 3 Samples.sensor_polled Samples.busy_twice = Done r s' w' /\
             trace w' = EvI2CRead [0x40; 0x80; 0x00; 0x00] :: tr)
    by (do 4 eexists; split; vm_compute; reflexivity).
  destruct E as (r & s' & w' & tr & Hrun & Htrace).
  exists r, s', w', tr. split; [exact Hrun|]. split; [exact Htrace|].
  apply (readData_bytes 3 Samples.sensor_polled Samples.busy_twice
           r s' w' 0x40 0x80 0x00 0x00 tr Hrun Htrace); reflexivity.
Defined.

(** X10.  readPressure keeps the calibration: a call that returns has
    changed nothing of the object but [lastStatus], and not even that when
    an end-of-conversion pin is configured; the conversion of a raw count
    is the same function after the call as before, on every platform. *)
Theorem readPressure_keeps_calibration P fuel s w x s' w' :
  readPressure P fuel s w = Done x s' w' ->
  s' = set_lastStatus (lastStatus s') s /\
  (_eoc s <> -1 -> s' = s) /\
  (forall P' raw_psi, pressure_of_raw P' s' raw_psi = pressure_of_raw P' s raw_psi).
Proof.
  intros H. destruct (readPressure_inv _ _ _ _ _ _ _ H) as (raw & Hdata & _).
  pose proof (readData_object _ _ _ _ _ _ Hdata) as Hobj.
  split; [exact Hobj|]. split.
  - intros Heoc. revert Hdata. run.
    destruct (i2c_dev s) eqn:Hdev; [|discriminate].
    match goal with
    | |- context [if ?c then wait_eoc ?f ?t else _] =>
        pose proof (wait_ready_inv f t s) as Hinv; run
    end.
    match goal with
    | |- match ?m with _ => _ end = _ -> _ =>
        destruct m as [ready s1 w1| |] eqn:Hwait
    end; try discriminate.
    destruct (Hinv _ _ _ _ Hwait) as (_ & Hd1 & _ & Hpin & _).
    destruct (Hpin Heoc) as [-> _].
    destruct ready; cbn [negb].
    + rewrite Hdev. run. intros E. injection E as _ <- _. reflexivity.
    + intros E. injection E as _ <- _. reflexivity.
  - intros P' raw_psi. rewrite Hobj. apply pressure_of_raw_lastStatus.
Qed.

Lemma readPressure_keeps_calibration_witness :
  exists x s' w',
    readPressure (ilp32 Samples.no_undef) 3 Samples.sensor_polled
                 Samples.busy_twice = Done x s' w' /\
    s' = set_lastStatus (lastStatus s') Samples.sensor_polled /\
    (forall P' raw_psi,
        pressure_of_raw P' s' raw_psi
        = pressure_of_raw P' Samples.sensor_polled raw_psi).
Proof.
  assert (E : exists x s' w',
             readPressure (ilp32 Samples.no_undef) 3 Samples.sensor_polled
                          Samples.busy_twice = Done x s' w')
    by (do 3 eexists; vm_compute; reflexivity).
  destruct E as (x & s' & w' & Hrun).
  destruct (readPressure_keeps_calibration (ilp32 Samples.no_undef) 3
              Samples.sensor_polled Samples.busy_twice x s' w' Hrun)
    as (Hobj & _ & Hconv).
  exists x, s', w'. auto.
Defined.

(** ** The accuracy of the conversion *)

(** X11.  Within the curve the conversion of readPressure is accurate to
    one part in 2^20.  For a raw count of 24 bits between [_OUTPUT_min]
    and [_OUTPUT_max], a range [_PSI_min <= _PSI_max] whose product with
    the width of the curve fits 32 bits, and a scale factor that is a
    positive normal [float] between 2^-91 and 2^90, the result is a finite
    number within 2^-20, relatively, of the interpolation
    [((raw - min) * (psiMax - psiMin) / (max - min) + psiMin) * K] of exact
    arithmetic, whatever the platform; so it lies between [psiMin * K]
    and [psiMax * K], up to that error. *)
Theorem readPressure_accuracy P s raw_psi :
  well_formed s ->
  _OUTPUT_min s <= raw_psi <= _OUTPUT_max s ->
  _OUTPUT_min s < _OUTPUT_max s ->
  raw_psi < 2 ^ 24 ->
  _PSI_min s <= _PSI_max s ->
  (_OUTPUT_max s - _OUTPUT_min s) * (_PSI_max s - _PSI_min s) < 2 ^ 32 ->
  normal_pos 24 (-90) 90 (_K s) ->
  let x := pressure_of_raw P s raw_psi in
  is_finite x = true /\
  ((1048575 # 1048576) * interpolation s raw_psi <= SF2Q x)%Q /\
  (SF2Q x <= (1048577 # 1048576) * interpolation s raw_psi)%Q /\
  ((1048575 # 1048576) * (inject_Z (_PSI_min s) * SF2Q (_K s)) <= SF2Q x)%Q /\
  (SF2Q x <= (1048577 # 1048576) * (inject_Z (_PSI_max s) * SF2Q (_K s)))%Q.
Proof.
  intros (_ & _ & _ & Hpmin & Hpmax & Homin & Homax) Hraw Hcurve H24 Hpsi Hprod HK.
  destruct (interpolation_between s raw_psi Hraw Hcurve Hpsi
              (normal_pos_value _ _ _ _ HK)) as [Hlo Hhi].
  unfold is_u16, is_u32 in *. change (2 ^ 16) with 65536 in *.
  change (2 ^ 32) with 4294967296 in *. change (2 ^ 24) with 16777216 in *.
  unfold pressure_of_raw.
  destruct (Z.eqb_spec raw_psi 0xFFFFFFFF) as [E|_]; [lia|].
  destruct (Z.eqb_spec (_OUTPUT_min s) (_OUTPUT_max s)) as [E|_]; [lia|].
  cbn [orb].
  set (sp := _PSI_max s - _PSI_min s) in *.
  set (d := _OUTPUT_max s - _OUTPUT_min s) in *.
  set (r := raw_psi - _OUTPUT_min s).
  assert (Hr : 0 <= r <= d) by (unfold r, d; lia).
  assert (Hsp : 0 <= sp < 65536) by (unfold sp; lia).
  assert (Hn : 0 <= r * sp < 4294967296) by nia.
  assert (Espan : psi_span P s = sp).
  { unfold psi_span. fold sp.
    destruct (int_bits P); unfold u32, u16, wrap;
      rewrite !(Z.mod_small sp)
        by (change (2 ^ 16) with 65536; change (2 ^ 32) with 4294967296; lia);
      reflexivity. }
  rewrite Espan.
  rewrite (u32_small r) by (unfold is_u32; change (2 ^ 32) with 4294967296; lia).
  rewrite (u32_small (r * sp))
    by (unfold is_u32; change (2 ^ 32) with 4294967296; lia).
  rewrite (u32_small d) by (unfold is_u32; change (2 ^ 32) with 4294967296; lia).
  pose proof (psi_accuracy (r * sp) d (_PSI_min s) (_K s)) as H.
  cbv zeta in H.
  destruct H as (Hfin & H1 & H2); try assumption;
    try (change (2 ^ 32)%Z with 4294967296; change (2 ^ 16)%Z with 65536; lia).
  assert (Ev : ((inject_Z (r * sp) / inject_Z d + inject_Z (_PSI_min s))
                * SF2Q (_K s) == interpolation s raw_psi)%Q).
  { unfold interpolation. fold r sp d. rewrite inject_Z_mult. reflexivity. }
  rewrite Ev in H1, H2.
  split; [exact Hfin|]. split; [exact H1|]. split; [exact H2|]. split; lra.
Qed.

Lemma readPressure_accuracy_witness :
  let s := Adafruit_MPRLS_default (ilp32 Samples.no_undef) 0 in
  let x := pressure_of_raw (ilp32 Samples.no_undef) s 0x800000 in
  is_finite x = true /\
  ((1048575 # 1048576) * interpolation s 0x800000 <= SF2Q x)%Q /\
  (SF2Q x <= (1048577 # 1048576) * interpolation s 0x800000)%Q /\
  ((1048575 # 1048576) * (inject_Z (_PSI_min s) * SF2Q (_K s)) <= SF2Q x)%Q /\
  (SF2Q x <= (1048577 # 1048576) * (inject_Z (_PSI_max s) * SF2Q (_K s)))%Q.
Proof.
  apply (readPressure_accuracy (ilp32 Samples.no_undef)
           (Adafruit_MPRLS_default (ilp32 Samples.no_undef) 0) 0x800000).
  - apply Adafruit_MPRLS_new_well_formed; unfold is_u16; lia.
  - vm_compute. split; discriminate.
  - reflexivity.
  - reflexivity.
  - vm_compute. discriminate.
  - reflexivity.
  - exists 9037096%positive, (-17). repeat split; try reflexivity; lia.
Defined.

(** ** The order of the counts *)

Section CountsOrder.

Local Open Scope Q_scope.

Lemma round_counts_floor q :
  0 <= q -> round_counts q = Qfloor (16777216 * (q / 100) + (1 # 2)).
Proof.
  intros Hq. unfold round_counts.
  change (inject_Z (2 ^ 24)) with 16777216. change (inject_Z 100) with 100.
  apply Qround_nonneg.
  apply Qmult_le_0_compat; [discriminate|].
  apply Qle_shift_div_l; [reflexivity|]. lra.
Qed.

End CountsOrder.

(** X12.  Where [double] is binary64 the constructor keeps the order of
    the percentages: for two [float] percentages [0 <= p1 <= p2 <= 100]
    the counts satisfy [0 <= count p1 <= count p2 <= 2^24], and when the
    percentages are at least 100 / 2^24 apart the counts differ, so that
    the curve is not the degenerate one that readPressure answers with
    NaN. *)
Theorem output_counts_order undef p1 p2 :
  is_finite p1 = true -> valid_binary 24 128 p1 = true ->
  is_finite p2 = true -> valid_binary 24 128 p2 = true ->
  (0 <= SF2Q p1)%Q -> (SF2Q p1 <= SF2Q p2)%Q -> (SF2Q p2 <= 100)%Q ->
  0 <= output_counts (ilp32 undef) p1 /\
  output_counts (ilp32 undef) p1 <= output_counts (ilp32 undef) p2 /\
  output_counts (ilp32 undef) p2 <= 2 ^ 24 /\
  (((100 # 16777216) <= SF2Q p2 - SF2Q p1)%Q ->
   output_counts (ilp32 undef) p1 < output_counts (ilp32 undef) p2).
Proof.
  intros F1 V1 F2 V2 H0 H12 H100.
  rewrite (output_counts_binary64 undef p1 F1 V1) by (split; lra).
  rewrite (output_counts_binary64 undef p2 F2 V2) by (split; lra).
  rewrite !round_counts_floor by lra.
  set (q1 := SF2Q p1) in *. set (q2 := SF2Q p2) in *.
  assert (D1 : (q1 / 100 == q1 * (1 # 100))%Q) by (field).
  assert (D2 : (q2 / 100 == q2 * (1 # 100))%Q) by (field).
  set (X1 := (16777216 * (q1 / 100) + (1 # 2))%Q).
  set (X2 := (16777216 * (q2 / 100) + (1 # 2))%Q).
  assert (E1 : (X1 == 16777216 * (q1 * (1 # 100)) + (1 # 2))%Q)
    by (unfold X1; rewrite D1; reflexivity).
  assert (E2 : (X2 == 16777216 * (q2 * (1 # 100)) + (1 # 2))%Q)
    by (unfold X2; rewrite D2; reflexivity).
  pose proof (Qfloor_le X1) as L1. pose proof (Qlt_floor X1) as U1.
  pose proof (Qfloor_le X2) as L2. pose proof (Qlt_floor X2) as U2.
  rewrite inject_Z_plus in U1, U2. change (inject_Z 1) with 1%Q in U1, U2.
  repeat split.
  - change 0 with (Qfloor 0). apply Qfloor_resp_le. lra.
  - apply Qfloor_resp_le. lra.
  - assert (H : (Qfloor X2 < 2 ^ 24 + 1)%Z); [|lia].
    rewrite Zlt_Qlt. change (inject_Z (2 ^ 24 + 1)) with 16777217%Q. lra.
  - intros Hgap. assert (H : (Qfloor X1 + 1 < Qfloor X2 + 1)%Z); [|lia].
    rewrite Zlt_Qlt, !inject_Z_plus. change (inject_Z 1) with 1%Q.
    assert (Hgap' : (X1 + 1 <= X2)%Q) by lra.
    lra.
Qed.

Lemma output_counts_order_witness :
  0 <= output_counts (ilp32 Samples.no_undef) (of_Z binary32 10) /\
  output_counts (ilp32 Samples.no_undef) (of_Z binary32 10)
  <= output_counts (ilp32 Samples.no_undef) (of_Z binary32 90) /\
  output_counts (ilp32 Samples.no_undef) (of_Z binary32 90) <= 2 ^ 24 /\
  output_counts (ilp32 Samples.no_undef) (of_Z binary32 10)
  < output_counts (ilp32 Samples.no_undef) (of_Z binary32 90).
Proof.
  destruct (output_counts_order Samples.no_undef
              (of_Z binary32 10) (of_Z binary32 90))
    as (H0 & H1 & H2 & H3);
    [vm_compute; reflexivity .. | vm_compute; discriminate
    | vm_compute; discriminate | vm_compute; discriminate |].
  split; [exact H0|]. split; [exact H1|]. split; [exact H2|].
  apply H3. vm_compute. discriminate.
Defined.

(** ** The conversion on the two platforms *)

(** X13.  The conversion of readPressure does not depend on the platform
    when the range is in order ([_PSI_min <= _PSI_max]): the width of
    [int] only matters for a difference that is negative.  For a range
    given upside down (25 down to 0 PSI) the two platforms disagree on
    the raw count 0x800000. *)
Theorem readPressure_platform_independent :
  (forall P P' s raw_psi,
     is_u16 (_PSI_min s) -> is_u16 (_PSI_max s) ->
     (_PSI_min s <= _PSI_max s)%Z ->
     pressure_of_raw P s raw_psi = pressure_of_raw P' s raw_psi) /\
  pressure_of_raw (avr8 Samples.no_undef) Scenes.inverted_range 0x800000
  <> pressure_of_raw (ilp32 Samples.no_undef) Scenes.inverted_range 0x800000.
Proof.
  split.
  - intros P P' s raw_psi Hmin Hmax Hle. unfold pressure_of_raw.
    rewrite (psi_span_ordered P s Hmin Hmax Hle).
    rewrite (psi_span_ordered P' s Hmin Hmax Hle). reflexivity.
  - vm_compute. discriminate.
Qed.

Lemma readPressure_platform_independent_witness :
  pressure_of_raw (avr8 Samples.no_undef) Samples.sensor_polled 0x800000
  = pressure_of_raw (ilp32 Samples.no_undef) Samples.sensor_polled 0x800000.
Proof.
  apply (proj1 readPressure_platform_independent
           (avr8 Samples.no_undef) (ilp32 Samples.no_undef)
           Samples.sensor_polled 0x800000);
    unfold is_u16; cbn; change (2 ^ 16) with 65536; lia.
Defined.

(** ** The order of the pressures *)

(** X14.  Within the curve the conversion of readPressure is monotone: of
    two raw counts of 24 bits between [_OUTPUT_min] and [_OUTPUT_max] the
    larger never gives the smaller pressure.  The range is in order, its
    product with the width of the curve fits 32 bits, and the scale factor
    is a positive normal [float] between 2^-91 and 2^90; the platform is
    any. *)
Theorem readPressure_monotone P s raw1 raw2 :
  well_formed s ->
  (_OUTPUT_min s <= raw1)%Z -> (raw1 <= raw2)%Z -> (raw2 <= _OUTPUT_max s)%Z ->
  (_OUTPUT_min s < _OUTPUT_max s)%Z ->
  (raw2 < 2 ^ 24)%Z ->
  (_PSI_min s <= _PSI_max s)%Z ->
  ((_OUTPUT_max s - _OUTPUT_min s) * (_PSI_max s - _PSI_min s) < 2 ^ 32)%Z ->
  normal_pos 24 (-90) 90 (_K s) ->
  (SF2Q (pressure_of_raw P s raw1) <= SF2Q (pressure_of_raw P s raw2))%Q.
Proof.
  intros (_ & _ & _ & Hpmin & Hpmax & Homin & Homax) H1 H12 H2 Hcurve H24 Hpsi
         Hprod HK.
  unfold is_u16, is_u32 in *. change (2 ^ 16) with 65536 in *.
  change (2 ^ 32) with 4294967296 in *. change (2 ^ 24) with 16777216 in *.
  unfold pressure_of_raw.
  destruct (Z.eqb_spec raw1 0xFFFFFFFF) as [E|_]; [lia|].
  destruct (Z.eqb_spec raw2 0xFFFFFFFF) as [E|_]; [lia|].
  destruct (Z.eqb_spec (_OUTPUT_min s) (_OUTPUT_max s)) as [E|_]; [lia|].
  cbn [orb].
  rewrite (psi_span_ordered P s)
    by (unfold is_u16; change (2 ^ 16) with 65536; lia).
  set (sp := _PSI_max s - _PSI_min s) in *.
  set (d := _OUTPUT_max s - _OUTPUT_min s) in *.
  set (r1 := raw1 - _OUTPUT_min s). set (r2 := raw2 - _OUTPUT_min s).
  assert (Hr : 0 <= r1 <= r2 /\ r2 <= d) by (unfold r1, r2, d; lia).
  assert (Hsp : 0 <= sp < 65536) by (unfold sp; lia).
  assert (Hn1 : 0 <= r1 * sp <= r2 * sp) by nia.
  assert (Hn2 : r2 * sp < 4294967296) by nia.
  rewrite (u32_small r1), (u32_small r2), (u32_small d)
    by (unfold is_u32; change (2 ^ 32) with 4294967296; lia).
  rewrite (u32_small (r1 * sp)), (u32_small (r2 * sp))
    by (unfold is_u32; change (2 ^ 32) with 4294967296; lia).
  apply psi_monotone; try assumption;
    change (2 ^ 32) with 4294967296; change (2 ^ 16) with 65536; lia.
Qed.

Lemma readPressure_monotone_witness :
  let s := Adafruit_MPRLS_default (ilp32 Samples.no_undef) 0 in
  (SF2Q (pressure_of_raw (ilp32 Samples.no_undef) s 0x800000)
   <= SF2Q (pressure_of_raw (ilp32 Samples.no_undef) s 0x800001))%Q.
Proof.
  apply (readPressure_monotone (ilp32 Samples.no_undef)
           (Adafruit_MPRLS_default (ilp32 Samples.no_undef) 0)
           0x800000 0x800001).
  - apply Adafruit_MPRLS_new_well_formed; unfold is_u16; lia.
  - vm_compute. discriminate.
  - vm_compute. discriminate.
  - vm_compute. discriminate.
  - reflexivity.
  - reflexivity.
  - vm_compute. discriminate.
  - reflexivity.
  - exists 9037096%positive, (-17). repeat split; try reflexivity; lia.
Defined.

(** ** The example sketch *)

Import Sketch.

Section NotANumber.

Lemma binary_round_not_nan prec emax s m e :
  is_nan (binary_round prec emax s m e) = false.
Proof.
  unfold binary_round. destruct (shl_align m e _) as [mz ez].
  apply binary_round_aux_not_nan. lia.
Qed.

Lemma fconv_nan D x : is_nan (fconv D x) = is_nan x.
Proof.
  destruct x as [s|s| |s m e]; try reflexivity.
  apply binary_round_not_nan.
Qed.

(** A quotient by a finite number other than zero is a NaN only when the
    dividend is. *)
Lemma SFdiv_nan prec emax x s m e :
  is_nan (SFdiv prec emax x (S754_finite s m e)) = is_nan x.
Proof.
  destruct x as [sx|sx| |sx mx ex]; try reflexivity.
  cbn [SFdiv is_nan]. unfold SFdiv_core_binary.
  set (m' := match _ with 0 => Zpos mx | Zpos _ => _ | Zneg _ => 0 end).
  assert (Hm' : 0 <= m').
  { unfold m'. destruct (_ - _ - _) as [|p|p]; try lia.
    apply Z.shiftl_nonneg. lia. }
  pose proof (Z.div_pos m' (Zpos m) Hm' ltac:(lia)) as Hq.
  unfold Z.div in Hq. destruct (Z.div_eucl m' (Zpos m)) as [q r].
  apply binary_round_aux_not_nan. exact Hq.
Qed.

(** The literal of the sketch is the quotient of 68947572932 by 10^9,
    rounded to [double]; where [double] is binary32 it is [PSI_to_HPA]. *)
Lemma literal_68_947572932_value :
  literal_68_947572932 binary64
  = fdiv binary64 (of_Z binary64 68947572932) (of_Z binary64 1000000000) /\
  literal_68_947572932 binary32 = PSI_to_HPA.
Proof. split; vm_compute; reflexivity. Qed.

Lemma literal_finite D :
  D = binary32 \/ D = binary64 ->
  exists m e, literal_68_947572932 D = S754_finite false m e.
Proof. intros [-> | ->]; do 2 eexists; vm_compute; reflexivity. Qed.

End NotANumber.

Section SketchFacts.

Lemma delay_forever_diverges fuel : forall s w, delay_forever fuel s w = OutOfFuel.
Proof.
  induction fuel as [|fuel IH]; intros s w; [reflexivity|].
  cbn [delay_forever]. run. apply IH.
Qed.

End SketchFacts.

(** X15.  The setup of the sketch.  When the device does not acknowledge
    or the status byte it shows is not the powered one (masked with
    0b01100101), setup never returns: it stays in its loop of delays,
    whatever the fuel.  Otherwise it returns, having announced the sensor
    on the serial port, with the object bound to the default address. *)
Theorem setup_outcome fuel out s w :
  let found := ack_tape w (opens w)
               && (Z.land (u8 (rx_tape w (rx_reads w) 0)) 0x65 =? 0x40) in
  (found = false -> setup fuel out s w = OutOfFuel) /\
  (found = true ->
   exists w',
     setup fuel out s w
     = Done (SerialPrint "Found MPRLS sensor"%string true
             :: SerialPrint "MPRLS Simple Test"%string true
             :: SerialBegin 115200 :: out)
            (set_i2c_dev (Some MPRLS_DEFAULT_ADDR) s) w').
Proof.
  intros found. destruct (begin_result MPRLS_DEFAULT_ADDR s w) as (w' & Hb).
  change (ack_tape w (opens w)
          && (Z.land (u8 (rx_tape w (rx_reads w) 0)) MPRLS_STATUS_MASK
              =? MPRLS_STATUS_POWERED)) with found in Hb.
  unfold setup, bind. rewrite Hb. split; intros Hf; rewrite Hf; cbn [negb].
  - rewrite delay_forever_diverges. reflexivity.
  - exists w'. reflexivity.
Qed.

Lemma setup_outcome_witness :
  setup 5 [] (Sketch.mpr (ilp32 Samples.no_undef) 0) Scenes.absent = OutOfFuel /\
  exists w',
    setup 5 [] (Sketch.mpr (ilp32 Samples.no_undef) 0) Samples.powered
    = Done [SerialPrint "Found MPRLS sensor"%string true;
            SerialPrint "MPRLS Simple Test"%string true;
            SerialBegin 115200]
           Scenes.sketch_mpr w'.
Proof.
  split.
  - apply (proj1 (setup_outcome 5 [] (Sketch.mpr (ilp32 Samples.no_undef) 0)
                    Scenes.absent)).
    reflexivity.
  - apply (proj2 (setup_outcome 5 [] (Sketch.mpr (ilp32 Samples.no_undef) 0)
                    Samples.powered)).
    reflexivity.
Defined.

(** X16.  One turn of the loop of the sketch, on an object whose scale
    factor is finite and whose curve has two different counts.  It takes
    one reading, prints the pressure and the pressure divided by
    68.947572932, each as a [double], and then delays for a second.  Both
    numbers printed are NaN exactly when readData returned the sentinel:
    a timeout or a fault shows as NaN on the port, a reading never does. *)
Theorem loop_prints P fuel out s w out' s' w' :
  well_formed s ->
  is_finite (_K s) = true ->
  _OUTPUT_max s <> _OUTPUT_min s ->
  double_format P = binary32 \/ double_format P = binary64 ->
  loop P fuel out s w = Done out' s' w' ->
  exists raw_psi w1,
    readData fuel s w = Done raw_psi s' w1 /\
    w' = hw_log (EvDelay 1000) w1 /\
    let D := double_format P in
    let hPa := fconv D (pressure_of_raw P s raw_psi) in
    let PSI := fdiv D hPa (literal_68_947572932 D) in
    out' = SerialPrintNumber PSI true
           :: SerialPrint "Pressure (PSI): "%string false
           :: SerialPrintNumber hPa true
           :: SerialPrint "Pressure (hPa): "%string false :: out /\
    (is_nan hPa = true <-> raw_psi = 0xFFFFFFFF) /\
    (is_nan PSI = true <-> raw_psi = 0xFFFFFFFF).
Proof.
  intros Hwf HK Hcurve HD Hrun. unfold loop, bind in Hrun.
  destruct (readPressure P fuel s w) as [x s1 w1| |] eqn:Hp; try discriminate.
  unfold delay, emit, ret in Hrun. injection Hrun as <- <- <-.
  destruct (readPressure_inv _ _ _ _ _ _ _ Hp) as (raw & Hdata & Hx).
  rewrite (readData_object _ _ _ _ _ _ Hdata), pressure_of_raw_lastStatus in Hx.
  exists raw, w1. split; [exact Hdata|]. split; [reflexivity|].
  cbv zeta. subst x. split; [reflexivity|].
  destruct (literal_finite (double_format P) HD) as (ml & el & ->).
  unfold fdiv. rewrite SFdiv_nan, fconv_nan.
  assert (Hiff : is_nan (pressure_of_raw P s raw) = true <-> raw = 0xFFFFFFFF).
  { split.
    - intros Hnan. destruct (Z.eq_dec raw 0xFFFFFFFF) as [E|E]; [exact E|].
      rewrite (pressure_of_raw_not_nan P s raw Hwf E Hcurve HK) in Hnan.
      discriminate.
    - intros ->. reflexivity. }
  split; exact Hiff.
Qed.

Lemma loop_prints_witness :
  exists out' s' w' raw_psi,
    loop (ilp32 Samples.no_undef) 3 [] Scenes.sketch_mpr Samples.busy_twice
    = Done out' s' w' /\
    hd (SerialBegin 0) out'
    = SerialPrintNumber
        (fdiv binary64
           (fconv binary64
              (pressure_of_raw (ilp32 Samples.no_undef) Scenes.sketch_mpr raw_psi))
           (literal_68_947572932 binary64)) true /\
    raw_psi <> 0xFFFFFFFF.
Proof.
  assert (E : exists out' s' w',
             loop (ilp32 Samples.no_undef) 3 [] Scenes.sketch_mpr
                  Samples.busy_twice = Done out' s' w')
    by (do 3 eexists; vm_compute; reflexivity).
  destruct E as (out' & s' & w' & Hrun).
  destruct (loop_prints (ilp32 Samples.no_undef) 3 [] Scenes.sketch_mpr
              Samples.busy_twice out' s' w') as (raw & w1 & Hdata & _ & Hout);
    try exact Hrun.
  - apply set_i2c_dev_well_formed.
    apply Adafruit_MPRLS_new_well_formed;
      unfold is_u16, RESET_PIN, EOC_PIN; change (2 ^ 16) with 65536; lia.
  - reflexivity.
  - vm_compute. discriminate.
  - right. reflexivity.
  - cbv zeta in Hout. destruct Hout as (Hout & _ & _).
    exists out', s', w', raw. split; [exact Hrun|].
    split; [rewrite Hout; reflexivity|].
    intros E. rewrite E in Hdata. vm_compute in Hdata. discriminate.
Defined.

(** X17.  One turn of the loop of the sketch comes to an end.  Whatever
    the sensor does, once a reading of the clock shows more than
    MPRLS_READ_TIMEOUT elapsed since the command, the turn returns: it has
    taken one reading, with at most [k + 2] readings of the clock, printed
    the two labels and the two numbers, and delayed for a second. *)
Theorem loop_returns P fuel out s w a k :
  i2c_dev s = Some a ->
  (forall j, (j < k)%nat -> elapsed w j <= MPRLS_READ_TIMEOUT) ->
  elapsed w k > MPRLS_READ_TIMEOUT ->
  (k < fuel)%nat ->
  exists raw_psi s' w1,
    readData fuel s w = Done raw_psi s' w1 /\
    (millis_calls w1 <= millis_calls w + k + 2)%nat /\
    let D := double_format P in
    let hPa := fconv D (pressure_of_raw P s raw_psi) in
    let PSI := fdiv D hPa (literal_68_947572932 D) in
    loop P fuel out s w
    = Done (SerialPrintNumber PSI true
            :: SerialPrint "Pressure (PSI): "%string false
            :: SerialPrintNumber hPa true
            :: SerialPrint "Pressure (hPa): "%string false :: out)
           s' (hw_log (EvDelay 1000) w1).
Proof.
  intros Hdev Hbefore Hafter Hfuel.
  destruct (readData_returns s w a k fuel Hdev Hbefore Hafter Hfuel)
    as (r & s' & w1 & Hdata & Hc).
  exists r, s', w1. split; [exact Hdata|]. split; [exact Hc|].
  cbv zeta. unfold loop, bind.
  rewrite (readPressure_of_readData P _ _ _ _ _ _ Hdata). reflexivity.
Qed.

(** The sketch with a sensor that stays busy: the turn ends after the
    timeout. *)
Lemma loop_returns_witness :
  exists raw_psi s' w1,
    readData 3 Scenes.sketch_mpr Samples.stuck_busy = Done raw_psi s' w1 /\
    (millis_calls w1 <= 4)%nat /\
    let hPa := fconv binary64
                 (pressure_of_raw (ilp32 Samples.no_undef) Scenes.sketch_mpr
                    raw_psi) in
    let PSI := fdiv binary64 hPa (literal_68_947572932 binary64) in
    loop (ilp32 Samples.no_undef) 3 [] Scenes.sketch_mpr Samples.stuck_busy
    = Done [SerialPrintNumber PSI true;
            SerialPrint "Pressure (PSI): "%string false;
            SerialPrintNumber hPa true;
            SerialPrint "Pressure (hPa): "%string false]
           s' (hw_log (EvDelay 1000) w1).
Proof.
  apply (loop_returns (ilp32 Samples.no_undef) 3 [] Scenes.sketch_mpr
           Samples.stuck_busy MPRLS_DEFAULT_ADDR 2).
  - reflexivity.
  - intros j Hj. destruct j as [|[|j]]; [vm_compute; discriminate..|lia].
  - vm_compute. reflexivity.
  - lia.
Defined.
